(** * Email PDF processor: a shallow embedding of [email-poller.js] and of
    the response parsers of its sibling scripts.

    - Strings are JavaScript strings, finite sequences of UTF-16 code
      units; values are what [JSON.parse] produces, plus [undefined].
    - [validateBillNumbers], the response parsers, [matchEmailProcessor]
      are functions that return or throw ([result]).
    - The per-document pipeline ([processSinglePdf]) and the refresh of the
      routing rules ([fetchNetSuiteConfigs]) are written in a state and
      exception monad; the state of the pipeline records the calls made to
      the collaborators (disk, oracle, document store) and the shared
      counters, and the collaborators' answers are given by a [world].
    - The batch loop produces the trace of what it starts, awaits and waits
      for; the order in which the pipelines of a batch settle is a
      parameter.

    Definitions come first, theorems after them. *)

From Stdlib Require Import List ZArith NArith Lia Bool String Ascii Permutation.
Import ListNotations.

Set Implicit Arguments.
Set Warnings "-register-all".

(** ** JavaScript strings *)

Module JsString.

Definition jsstring := list N.

(** An ASCII literal as a JavaScript string. *)
Fixpoint js (s : string) : jsstring :=
  match s with
  | EmptyString => []
  | String a r => N_of_ascii a :: js r
  end.

Definition nl : jsstring := [10%N].
Definition dquote : jsstring := [34%N].

Fixpoint jseqb (a b : jsstring) : bool :=
  match a, b with
  | [], [] => true
  | x :: a', y :: b' => N.eqb x y && jseqb a' b'
  | _, _ => false
  end.

Fixpoint starts_with (pat s : jsstring) : bool :=
  match pat, s with
  | [], _ => true
  | p :: pat', c :: s' => N.eqb p c && starts_with pat' s'
  | _ :: _, [] => false
  end.

(** [String.prototype.includes]. *)
Fixpoint includes (s pat : jsstring) : bool :=
  starts_with pat s ||
  match s with
  | [] => false
  | _ :: s' => includes s' pat
  end.

(** Position of the first occurrence of [pat] in [s], counted from the
    start of [s]. *)
Fixpoint find_from (s pat : jsstring) : option nat :=
  if starts_with pat s then Some 0
  else match s with
       | [] => None
       | _ :: s' => option_map S (find_from s' pat)
       end.

(** [s.indexOf(pat, from)]: -1 when there is no occurrence at or after
    [from] (a negative [from] counts as 0). *)
Definition indexOf (s pat : jsstring) (from : Z) : Z :=
  let start := Z.to_nat (Z.max 0 from) in
  match find_from (skipn start s) pat with
  | Some k => Z.of_nat (Nat.min start (List.length s) + k)
  | None => (-1)%Z
  end.

(** [s.substring(a, b)]: both arguments are clamped to [0, length] and
    swapped when out of order. *)
Definition substring (s : jsstring) (a b : Z) : jsstring :=
  let len := Z.of_nat (List.length s) in
  let clamp x := Z.to_nat (Z.max 0 (Z.min x len)) in
  let a' := clamp a in
  let b' := clamp b in
  let lo := Nat.min a' b' in
  let hi := Nat.max a' b' in
  firstn (hi - lo) (skipn lo s).

(** White space and line terminators, as [trim] and the regular expression
    class [\s] understand them. *)
Definition is_space (c : N) : bool :=
  (N.leb 9 c && N.leb c 13) || N.eqb c 32 || N.eqb c 160 || N.eqb c 5760
  || (N.leb 8192 c && N.leb c 8202) || N.eqb c 8232 || N.eqb c 8233
  || N.eqb c 8239 || N.eqb c 8287 || N.eqb c 12288 || N.eqb c 65279.

Fixpoint drop_space (s : jsstring) : jsstring :=
  match s with
  | c :: s' => if is_space c then drop_space s' else s
  | [] => []
  end.

Definition trim (s : jsstring) : jsstring :=
  rev (drop_space (rev (drop_space s))).

(** The class [\d]: ASCII digits only. *)
Definition is_digit (c : N) : bool := N.leb 48 c && N.leb c 57.

(** [Array.prototype.join] on strings. *)
Fixpoint join (sep : jsstring) (l : list jsstring) : jsstring :=
  match l with
  | [] => []
  | [x] => x
  | x :: rest => x ++ sep ++ join sep rest
  end.

Fixpoint uint_codes (u : Decimal.uint) : jsstring :=
  match u with
  | Decimal.Nil => []
  | Decimal.D0 u => 48%N :: uint_codes u
  | Decimal.D1 u => 49%N :: uint_codes u
  | Decimal.D2 u => 50%N :: uint_codes u
  | Decimal.D3 u => 51%N :: uint_codes u
  | Decimal.D4 u => 52%N :: uint_codes u
  | Decimal.D5 u => 53%N :: uint_codes u
  | Decimal.D6 u => 54%N :: uint_codes u
  | Decimal.D7 u => 55%N :: uint_codes u
  | Decimal.D8 u => 56%N :: uint_codes u
  | Decimal.D9 u => 57%N :: uint_codes u
  end.

(** The decimal digits of a natural number. *)
Definition digits_of (n : N) : jsstring := uint_codes (N.to_uint n).

(** The ASCII rendering of a string, for reading results. *)
Fixpoint show (s : jsstring) : string :=
  match s with
  | [] => EmptyString
  | c :: r => String (ascii_of_N c) (show r)
  end.

End JsString.
Import JsString.

(** ** Exceptions *)

(** What a [throw] carries.  [TypeError], [ReferenceError] and
    [SyntaxError] are raised by the language itself; [Failure] is an [Error]
    a collaborator (file system, network client) rejects with, with its
    [message] if it has one. *)
Inductive error :=
| TypeError
| ReferenceError (ident : jsstring)
| SyntaxError
| Failure (message : option jsstring).

Inductive result (A : Type) :=
| Ok (a : A)
| Throw (e : error).
Arguments Ok {A} a.
Arguments Throw {A} e.

Definition rbind {A B} (r : result A) (k : A -> result B) : result B :=
  match r with
  | Ok a => k a
  | Throw e => Throw e
  end.

Declare Scope result_scope.
Delimit Scope result_scope with result.
Notation "x <- e ;; k" := (rbind e (fun x => k))
  (at level 61, e at next level, right associativity) : result_scope.
Open Scope result_scope.

(** ** JavaScript values *)

(** A number is kept as the decimal [m * 10^e] its literal denotes, with
    [m] free of trailing zeros ([VNum 0 0] for zero), so that equal numbers
    are equal terms.  Literals beyond the precision or range of a double
    are rounded by the platform; the model keeps them exact. *)
Inductive value :=
| VUndefined
| VNull
| VBool (b : bool)
| VNum (m e : Z)
| VStr (s : jsstring)
| VArr (elems : list value)
| VObj (fields : list (jsstring * value)).

Fixpoint strip_zeros (fuel : nat) (m e : Z) : Z * Z :=
  match fuel with
  | O => (m, e)
  | S f => if (m mod 10 =? 0)%Z then strip_zeros f (m / 10)%Z (e + 1)%Z else (m, e)
  end.

Definition mkNum (m e : Z) : value :=
  if (m =? 0)%Z then VNum 0 0
  else let (m', e') := strip_zeros (Z.to_nat (Z.log2 (Z.abs m))) m e in VNum m' e'.

Definition of_nat (n : nat) : value := mkNum (Z.of_nat n) 0.

Fixpoint lookup (k : jsstring) (fields : list (jsstring * value)) : option value :=
  match fields with
  | [] => None
  | (k', v) :: rest => if jseqb k k' then Some v else lookup k rest
  end.

Definition has_key (k : jsstring) (fields : list (jsstring * value)) : bool :=
  match lookup k fields with Some _ => true | None => false end.

(** ToBoolean. *)
Definition truthy (v : value) : bool :=
  match v with
  | VUndefined | VNull => false
  | VBool b => b
  | VNum m _ => negb (m =? 0)%Z
  | VStr s => match s with [] => false | _ => true end
  | VArr _ | VObj _ => true
  end.

(** Property read [v.k], for the property names this program reads (none of
    them is a method or accessor of a built-in prototype). *)
Definition get (v : value) (k : jsstring) : result value :=
  match v with
  | VUndefined | VNull => Throw TypeError
  | VObj fields => Ok (match lookup k fields with Some x => x | None => VUndefined end)
  | VStr s => Ok (if jseqb k (js "length") then of_nat (List.length s) else VUndefined)
  | VArr l => Ok (if jseqb k (js "length") then of_nat (List.length l) else VUndefined)
  | VBool _ | VNum _ _ => Ok VUndefined
  end.

Definition repeat_code (c : N) (n : Z) : jsstring := repeat c (Z.to_nat n).

(** Number::toString (radix 10) on the decimal [m * 10^e]: [k] digits, the
    decimal point after the [n]-th. *)
Definition Number_toString (m e : Z) : jsstring :=
  if (m =? 0)%Z then js "0"
  else
    let sign := if (m <? 0)%Z then js "-" else [] in
    let ds := digits_of (Z.to_N (Z.abs m)) in
    let k := Z.of_nat (List.length ds) in
    let n := (k + e)%Z in
    sign ++
    (if (k <=? n)%Z && (n <=? 21)%Z then ds ++ repeat_code 48 (n - k)
     else if (0 <? n)%Z && (n <=? 21)%Z then
       firstn (Z.to_nat n) ds ++ js "." ++ skipn (Z.to_nat n) ds
     else if (-6 <? n)%Z && (n <=? 0)%Z then
       js "0." ++ repeat_code 48 (- n) ++ ds
     else
       let x := (n - 1)%Z in
       let ex := (if (x <? 0)%Z then js "-" else js "+") ++ digits_of (Z.to_N (Z.abs x)) in
       match ds with
       | [d] => [d] ++ js "e" ++ ex
       | d :: rest => [d] ++ js "." ++ rest ++ js "e" ++ ex
       | [] => []
       end).

(** ToString.  An object read by [JSON.parse] prints as [[object Object]]
    unless it has an own property [toString] (which cannot be callable, so
    the conversion throws); an array prints its elements joined by commas,
    [null] and [undefined] as the empty string. *)
Fixpoint ToString (v : value) : result jsstring :=
  match v with
  | VUndefined => Ok (js "undefined")
  | VNull => Ok (js "null")
  | VBool true => Ok (js "true")
  | VBool false => Ok (js "false")
  | VNum m e => Ok (Number_toString m e)
  | VStr s => Ok s
  | VArr l =>
      (fix elems (l : list value) : result jsstring :=
         match l with
         | [] => Ok []
         | x :: rest =>
             sx <- match x with
                   | VUndefined | VNull => Ok []
                   | _ => ToString x
                   end ;;
             match rest with
             | [] => Ok sx
             | _ => sr <- elems rest ;; Ok (sx ++ js "," ++ sr)
             end
         end) l
  | VObj fields =>
      if has_key (js "toString") fields then Throw TypeError
      else Ok (js "[object Object]")
  end.

(** ** The bill-number validator ([validateBillNumbers]) *)

Record invalid_item := {
  index : nat;
  narda : value;
  billNumber : value;
  length_ : value
}.

(** [{ valid: true }] or [{ valid: false, reason, invalidItems }]. *)
Inductive validation :=
| Valid
| Invalid (reason : jsstring) (invalidItems : list invalid_item).

Definition valid (v : validation) : bool :=
  match v with Valid => true | Invalid _ _ => false end.

(** [/^\d{8}$/.test(s)]. *)
Definition test_8digits (s : jsstring) : bool :=
  Nat.eqb (List.length s) 8 && forallb is_digit s.

(** [x !== 8]. *)
Definition not_eight (x : value) : bool :=
  match x with
  | VNum 8 0 => false
  | _ => true
  end.

(** [!billNumber || billNumber.length !== 8 || !/^\d{8}$/.test(billNumber)] *)
Definition bill_rejected (billNumber : value) : result bool :=
  if negb (truthy billNumber) then Ok true
  else
    len <- get billNumber (js "length") ;;
    if not_eight len then Ok true
    else s <- ToString billNumber ;; Ok (negb (test_8digits s)).

(** The [for] loop of [validateBillNumbers], from index [i] on. *)
Fixpoint collect_invalid (i : nat) (lineItems : list value) : result (list invalid_item) :=
  match lineItems with
  | [] => Ok []
  | item :: rest =>
      billNumber <- get item (js "originalBillNumber") ;;
      bad <- bill_rejected billNumber ;;
      if bad then
        nardaNumber <- get item (js "nardaNumber") ;;
        len <- (if truthy billNumber then get billNumber (js "length") else Ok (VNum 0 0)) ;;
        more <- collect_invalid (S i) rest ;;
        Ok ({| index := i;
               narda := nardaNumber;
               billNumber := if truthy billNumber then billNumber else VStr (js "(empty)");
               length_ := len |} :: more)
      else collect_invalid (S i) rest
  end.

(** One entry of [details]:
    [Line ${index + 1} (NARDA: ${narda}): "${billNumber}" is ${length} digits (need 8)] *)
Definition detail (it : invalid_item) : result jsstring :=
  sn <- ToString it.(narda) ;;
  sb <- ToString it.(billNumber) ;;
  sl <- ToString it.(length_) ;;
  Ok (js "Line " ++ digits_of (N.of_nat (it.(index) + 1)) ++ js " (NARDA: " ++ sn ++ js "): "
      ++ dquote ++ sb ++ dquote ++ js " is " ++ sl ++ js " digits (need 8)").

Fixpoint map_result {A B} (f : A -> result B) (l : list A) : result (list B) :=
  match l with
  | [] => Ok []
  | x :: rest => y <- f x ;; ys <- map_result f rest ;; Ok (y :: ys)
  end.

Definition validateBillNumbers (extractedData : value) : result validation :=
  if negb (truthy extractedData) then Ok Valid
  else
    lineItems <- get extractedData (js "lineItems") ;;
    match lineItems with
    | VArr items =>
        invalidItems <- collect_invalid 0 items ;;
        match invalidItems with
        | [] => Ok Valid
        | _ =>
            details <- map_result detail invalidItems ;;
            Ok (Invalid (js "Invalid bill numbers found: " ++ join (js "; ") details)
                        invalidItems)
        end
    | _ => Ok Valid
    end.


(** *** The bill-number rule in the words of the specification *)

Definition bill_field : jsstring := js "originalBillNumber".
Definition narda_field : jsstring := js "nardaNumber".

(** The value read from a field, [undefined] where the read fails. *)
Definition field (v : value) (k : jsstring) : value :=
  match get v k with
  | Ok x => x
  | Throw _ => VUndefined
  end.

(** Present, non-empty and exactly 8 ASCII digits. *)
Definition is_bill_number (b : value) : bool :=
  match b with
  | VStr s => Nat.eqb (List.length s) 8 && forallb is_digit s
  | _ => false
  end.

Definition entry_ok (item : value) : bool := is_bill_number (field item bill_field).

(** The entries of a list with their 0-based indices. *)
Definition indexed (items : list value) : list (nat * value) :=
  combine (seq 0 (List.length items)) items.

Definition failing (items : list value) : list (nat * value) :=
  filter (fun p => negb (entry_ok (snd p))) (indexed items).

Definition print (v : value) : jsstring :=
  match ToString v with
  | Ok s => s
  | Throw _ => []
  end.

Definition prints (v : value) : bool :=
  match ToString v with
  | Ok _ => true
  | Throw _ => false
  end.

(** What the reason says about the failing entry [p]: 1-based index, NARDA
    identifier, offending value in quotes (the marker [(empty)] when there
    is none), its length against the required 8. *)
Definition report_line (p : nat * value) : jsstring :=
  let b := field (snd p) bill_field in
  js "Line " ++ digits_of (N.of_nat (fst p + 1))
  ++ js " (NARDA: " ++ print (field (snd p) narda_field) ++ js "): "
  ++ dquote ++ (if truthy b then print b else js "(empty)") ++ dquote
  ++ js " is " ++ (if truthy b then print (field b (js "length")) else js "0")
  ++ js " digits (need 8)".

Definition report (items : list value) : jsstring :=
  js "Invalid bill numbers found: " ++ join (js "; ") (map report_line (failing items)).

(** An entry the validator can read and print: it is not [null], and its
    two fields (and the length of the bill number) convert to strings. *)
Definition entry_readable (item : value) : bool :=
  match get item bill_field with
  | Throw _ => false
  | Ok b => prints b && prints (field item narda_field) && prints (field b (js "length"))
  end.

(** The record the validator pushes for the failing entry [p]. *)
Definition invalid_record (p : nat * value) : invalid_item :=
  let b := field (snd p) bill_field in
  {| index := fst p;
     narda := field (snd p) narda_field;
     billNumber := if truthy b then b else VStr (js "(empty)");
     length_ := if truthy b then field b (js "length") else VNum 0 0 |}.


(** Sample line items: a good one, one with 7 digits, one whose bill number
    is the number 12345678, one without a bill number. *)
Definition sample_good : value :=
  VObj [(js "nardaNumber", VStr (js "NF")); (js "originalBillNumber", VStr (js "66811026"))].
Definition sample_short : value :=
  VObj [(js "nardaNumber", VStr (js "J1")); (js "originalBillNumber", VStr (js "1234567"))].
Definition sample_number : value :=
  VObj [(js "nardaNumber", VStr (js "CORE")); (js "originalBillNumber", VNum 12345678 0)].
Definition sample_missing : value :=
  VObj [(js "nardaNumber", VStr (js "BOX"))].

Definition with_lineItems (items : list value) : value :=
  VObj [(js "invoiceNumber", VStr (js "67718510")); (js "lineItems", VArr items)].

(** A value that is not an array or an object. *)
Definition primitive (v : value) : bool :=
  match v with
  | VArr _ | VObj _ => false
  | _ => true
  end.

(** ** [JSON.parse] *)

(** The platform's parser, after the JSON grammar (ECMA-404): a lexer into
    tokens and a recursive-descent parser over them.  A text that is not
    JSON raises [SyntaxError]. *)
Module Json.

Inductive token :=
| TLBrace | TRBrace | TLBracket | TRBracket | TComma | TColon
| TString (s : jsstring)
| TNumber (m e : Z)
| TTrue | TFalse | TNull.

Definition is_ws (c : N) : bool :=
  N.eqb c 32 || N.eqb c 9 || N.eqb c 10 || N.eqb c 13.

Definition hex_value (c : N) : option N :=
  if N.leb 48 c && N.leb c 57 then Some (c - 48)%N
  else if N.leb 97 c && N.leb c 102 then Some (c - 87)%N
  else if N.leb 65 c && N.leb c 70 then Some (c - 55)%N
  else None.

Definition hex4 (a b c d : N) : option N :=
  match hex_value a, hex_value b, hex_value c, hex_value d with
  | Some x, Some y, Some z, Some w => Some (((x * 16 + y) * 16 + z) * 16 + w)%N
  | _, _, _, _ => None
  end.

(** The characters of a string literal after its opening quote: the decoded
    string (in reverse in [acc]) and the text after the closing quote. *)
Fixpoint lex_string (s : jsstring) (acc : jsstring) : option (jsstring * jsstring) :=
  match s with
  | [] => None
  | c :: rest =>
      if N.eqb c 34 then Some (rev acc, rest)
      else if N.eqb c 92 then
        match rest with
        | [] => None
        | x :: r =>
            if N.eqb x 34 then lex_string r (34 :: acc)%N
            else if N.eqb x 92 then lex_string r (92 :: acc)%N
            else if N.eqb x 47 then lex_string r (47 :: acc)%N
            else if N.eqb x 98 then lex_string r (8 :: acc)%N
            else if N.eqb x 102 then lex_string r (12 :: acc)%N
            else if N.eqb x 110 then lex_string r (10 :: acc)%N
            else if N.eqb x 114 then lex_string r (13 :: acc)%N
            else if N.eqb x 116 then lex_string r (9 :: acc)%N
            else if N.eqb x 117 then
              match r with
              | h1 :: h2 :: h3 :: h4 :: r' =>
                  match hex4 h1 h2 h3 h4 with
                  | Some u => lex_string r' (u :: acc)
                  | None => None
                  end
              | _ => None
              end
            else None
        end
      else if N.ltb c 32 then None
      else lex_string rest (c :: acc)
  end.

Fixpoint span_digits (s : jsstring) : jsstring * jsstring :=
  match s with
  | c :: rest =>
      if is_digit c then let (ds, r) := span_digits rest in (c :: ds, r)
      else ([], s)
  | [] => ([], [])
  end.

Definition digits_value (ds : jsstring) : Z :=
  fold_left (fun acc c => (acc * 10 + Z.of_N (c - 48))%Z) ds 0%Z.

(** A number literal at the head of [s]: mantissa, exponent and the rest.
    An integer part with a leading zero followed by a digit is refused here
    (as two adjacent numbers it could not be part of any JSON text). *)
Definition lex_number (s : jsstring) : option (Z * Z * jsstring) :=
  let '(neg, s1) := match s with
                    | c :: r => if N.eqb c 45 then (true, r) else (false, s)
                    | [] => (false, s)
                    end in
  let '(int, s2) := span_digits s1 in
  match int with
  | [] => None
  | d :: more =>
      if N.eqb d 48 && negb (Nat.eqb (List.length more) 0) then None
      else
        let frac_part :=
          match s2 with
          | c :: r =>
              if N.eqb c 46 then
                let '(fr, s3) := span_digits r in
                match fr with [] => None | _ => Some (fr, s3) end
              else Some ([], s2)
          | [] => Some ([], s2)
          end in
        match frac_part with
        | None => None
        | Some (fr, s3) =>
            let exp_part :=
              match s3 with
              | c :: r =>
                  if N.eqb c 101 || N.eqb c 69 then
                    let '(eneg, r1) := match r with
                                       | x :: r' => if N.eqb x 45 then (true, r')
                                                    else if N.eqb x 43 then (false, r')
                                                    else (false, r)
                                       | [] => (false, r)
                                       end in
                    let '(ex, s4) := span_digits r1 in
                    match ex with
                    | [] => None
                    | _ => Some ((if eneg then - digits_value ex else digits_value ex)%Z, s4)
                    end
                  else Some (0%Z, s3)
              | [] => Some (0%Z, s3)
              end in
            match exp_part with
            | None => None
            | Some (x, s4) =>
                let m := digits_value (int ++ fr) in
                Some ((if neg then - m else m)%Z, (x - Z.of_nat (List.length fr))%Z, s4)
            end
        end
  end.

(** The tokens of [s].  A token that takes more than one character leaves
    in [skip] the number of characters still to pass over. *)
Fixpoint lex (skip : nat) (s : jsstring) : option (list token) :=
  match s with
  | [] => Some []
  | c :: rest =>
      match skip with
      | S k => lex k rest
      | O =>
          let push t n := option_map (cons t) (lex n rest) in
          if is_ws c then lex 0 rest
          else if N.eqb c 123 then push TLBrace 0
          else if N.eqb c 125 then push TRBrace 0
          else if N.eqb c 91 then push TLBracket 0
          else if N.eqb c 93 then push TRBracket 0
          else if N.eqb c 44 then push TComma 0
          else if N.eqb c 58 then push TColon 0
          else if N.eqb c 34 then
            match lex_string rest [] with
            | Some (str, r) => push (TString str) (List.length rest - List.length r)
            | None => None
            end
          else if N.eqb c 45 || is_digit c then
            match lex_number s with
            | Some (m, e, r) => push (TNumber m e) (List.length rest - List.length r)
            | None => None
            end
          else if starts_with (js "true") s then push TTrue 3
          else if starts_with (js "false") s then push TFalse 4
          else if starts_with (js "null") s then push TNull 3
          else None
      end
  end.

(** An own property is created for a new name; a repeated name overwrites
    the earlier value. *)
Fixpoint set_field (k : jsstring) (v : value) (fields : list (jsstring * value)) :=
  match fields with
  | [] => [(k, v)]
  | (k', v') :: rest => if jseqb k k' then (k', v) :: rest else (k', v') :: set_field k v rest
  end.

Definition object_of (members : list (jsstring * value)) : value :=
  VObj (fold_left (fun fields kv => set_field (fst kv) (snd kv) fields) members []).

Fixpoint parse_value (fuel : nat) (ts : list token) : option (value * list token) :=
  match fuel with
  | O => None
  | S f =>
      match ts with
      | TNull :: r => Some (VNull, r)
      | TTrue :: r => Some (VBool true, r)
      | TFalse :: r => Some (VBool false, r)
      | TString s :: r => Some (VStr s, r)
      | TNumber m e :: r => Some (mkNum m e, r)
      | TLBracket :: TRBracket :: r => Some (VArr [], r)
      | TLBracket :: r =>
          match parse_elements f r with
          | Some (vs, r') => Some (VArr vs, r')
          | None => None
          end
      | TLBrace :: TRBrace :: r => Some (VObj [], r)
      | TLBrace :: r =>
          match parse_members f r with
          | Some (ms, r') => Some (object_of ms, r')
          | None => None
          end
      | _ => None
      end
  end
with parse_elements (fuel : nat) (ts : list token) : option (list value * list token) :=
  match fuel with
  | O => None
  | S f =>
      match parse_value f ts with
      | Some (v, TComma :: r) =>
          match parse_elements f r with
          | Some (vs, r') => Some (v :: vs, r')
          | None => None
          end
      | Some (v, TRBracket :: r) => Some ([v], r)
      | _ => None
      end
  end
with parse_members (fuel : nat) (ts : list token)
  : option (list (jsstring * value) * list token) :=
  match fuel with
  | O => None
  | S f =>
      match ts with
      | TString k :: TColon :: r =>
          match parse_value f r with
          | Some (v, TComma :: r') =>
              match parse_members f r' with
              | Some (ms, r'') => Some ((k, v) :: ms, r'')
              | None => None
              end
          | Some (v, TRBrace :: r') => Some ([(k, v)], r')
          | _ => None
          end
      | _ => None
      end
  end.

(** One round of [parse_value] for every token is more than any text
    needs. *)
Definition parse (text : jsstring) : result value :=
  match lex 0 text with
  | Some ts =>
      match parse_value (List.length ts) ts with
      | Some (v, []) => Ok v
      | _ => Throw SyntaxError
      end
  | None => Throw SyntaxError
  end.

End Json.

Definition JSON_parse := Json.parse.

(** ** Response parsers *)

(** *** [email-poller.js], lines 649-655 *)

(** The text handed to [JSON.parse]: the response, or what lies between
    the first [```json] and the next [```], trimmed. *)
Definition fenced_body (analysis : jsstring) : jsstring :=
  if includes analysis (js "```json") then
    let startIdx := (indexOf analysis (js "```json") 0 + 7)%Z in
    let endIdx := indexOf analysis (js "```") startIdx in
    trim (substring analysis startIdx endIdx)
  else analysis.

(** *** [retry_claude_json_scheduled.js], [parseJSONFromResponse] *)

(** [text.match(/```(?:json)?\s*([\s\S]*?)\s*```/)], the captured group:
    after the first fence, an optional [json] and white space are skipped;
    the group runs to the next fence, without the white space before it. *)
Definition match_fence (text : jsstring) : option jsstring :=
  match find_from text (js "```") with
  | None => None
  | Some p =>
      let r1 := skipn (p + 3) text in
      let r2 := if starts_with (js "json") r1 then skipn 4 r1 else r1 in
      let r3 := drop_space r2 in
      match find_from r3 (js "```") with
      | None => None
      | Some q => Some (rev (drop_space (rev (firstn q r3))))
      end
  end.

(** [text.match(/\{[\s\S]*\}/)]: from the first [{] to the last [}]. *)
Definition match_object (text : jsstring) : option jsstring :=
  match find_from text (js "{") with
  | None => None
  | Some p =>
      let r := skipn p text in
      match find_from (rev r) (js "}") with
      | None => None
      | Some k => if Nat.ltb (S k) (List.length r)
                  then Some (firstn (List.length r - k) r)
                  else None
      end
  end.

(** The parsed value, or [null] when nothing could be parsed. *)
Definition parseJSONFromResponse (responseText : jsstring) : value :=
  match JSON_parse responseText with
  | Ok v => v
  | Throw _ =>
      match match_fence responseText with
      | Some body =>
          match JSON_parse body with
          | Ok v => v
          | Throw _ => VNull
          end
      | None =>
          match match_object responseText with
          | Some obj =>
              match JSON_parse obj with
              | Ok v => v
              | Throw _ => VNull
              end
          | None => VNull
          end
      end
  end.

(** *** [test-detailed.js] (and [test-narda-issue.js]), lines 104-114 *)

(** [s.replace(/```json\n|\n```/g, '')]; [skip] characters of a matched
    marker are still to be dropped. *)
Fixpoint strip_fences (skip : nat) (s : jsstring) : jsstring :=
  match s with
  | [] => []
  | c :: r =>
      match skip with
      | S k => strip_fences k r
      | O =>
          if starts_with (js "```json" ++ nl) s then strip_fences 7 r
          else if starts_with (nl ++ js "```") s then strip_fences 3 r
          else c :: strip_fences 0 r
      end
  end.

Fixpoint take_space (s : jsstring) : jsstring :=
  match s with
  | c :: r => if is_space c then c :: take_space r else []
  | [] => []
  end.

(** The lookahead of that pattern: only white space up to the end, or
    white space up to a blank line, or white space up to a bold marker. *)
Definition prose_follows (rest : jsstring) : bool :=
  forallb is_space rest
  || includes (take_space rest) (nl ++ nl)
  || starts_with (js "**") (drop_space rest).

(** Length of the shortest prefix of [r] that ends in a [}] with the
    lookahead satisfied. *)
Fixpoint scan_close (r : jsstring) : option nat :=
  match r with
  | [] => None
  | c :: r' =>
      if N.eqb c 125 && prose_follows r' then Some 1
      else option_map S (scan_close r')
  end.

(** The lazy object pattern of the test scripts: from the first [{] to the
    first [}] that is followed, after optional white space, by the end of
    the text, a blank line or a bold marker. *)
Definition match_object_lazy (s : jsstring) : option jsstring :=
  match find_from s (js "{") with
  | None => None
  | Some p =>
      let r := skipn p s in
      match scan_close r with
      | Some n => Some (firstn n r)
      | None => None
      end
  end.

Definition test_detailed_parse (result_text : jsstring) : result value :=
  let jsonStr := if includes result_text (js "```json")
                 then strip_fences 0 result_text else result_text in
  let jsonStr := match match_object_lazy jsonStr with
                 | Some m => m
                 | None => jsonStr
                 end in
  JSON_parse jsonStr.

(** A response used in the examples: the JSON text of an object, and the
    same with prose after it, and wrapped in a fence. *)
Definition json_text : jsstring :=
  js "{" ++ dquote ++ js "invoiceNumber" ++ dquote ++ js ":" ++ dquote ++ js "67718510"
  ++ dquote ++ js "," ++ dquote ++ js "lineItems" ++ dquote ++ js ":[]}".

Definition json_object : value :=
  VObj [(js "invoiceNumber", VStr (js "67718510")); (js "lineItems", VArr [])].

Definition trailing_note : jsstring := nl ++ nl ++ js " trailing note".
Definition bold_note : jsstring := nl ++ nl ++ js "**bold note**".

Definition fenced (text : jsstring) : jsstring :=
  js "```json" ++ nl ++ text ++ nl ++ js "```".

(** A text without a backquote. *)
Definition no_backquote (text : jsstring) : bool :=
  forallb (fun c => negb (N.eqb c 96)) text.

(** A text that neither starts nor ends with white space (and is not
    empty), as the JSON text of an object. *)
Definition tight (text : jsstring) : bool :=
  match text, rev text with
  | c :: _, d :: _ => negb (is_space c) && negb (is_space d)
  | _, _ => false
  end.

(** ** The per-document pipeline ([processSinglePdf] in [processEmail]) *)

Record pdf := {
  filename : jsstring;
  content : list N
}.

(** What the collaborators answer.  The [k]-th call (from 0) of [savePdf]
    or [saveResult] for a document either resolves or rejects with an error
    carrying the given message; the [k]-th request to the oracle either
    resolves with the text of the response or rejects. *)
Inductive oracle_reply :=
| Replies (analysis : jsstring)
| Rejects (message : option jsstring).

Record world := {
  savePdf_rejects : nat -> option (option jsstring);
  oracle : nat -> oracle_reply;
  saveResult_rejects : nat -> option (option jsstring)
}.

Inductive warning :=
| BillValidationFailed (reason : jsstring)
| RetryStillInvalid (reason : jsstring)
| MaxRetriesReached (reason : jsstring)
| CouldNotParse (e : error)
| RateLimitHit (delaySeconds : Z).

(** Calls to the collaborators, pauses and console warnings, in the order
    they happen. *)
Inductive event :=
| CallSavePdf
| CallOracle (prompt : jsstring)
| CallSaveResult (extractedData : value)
| CallUpload (extractedData : value)
| Sleep (ms : Z)
| Warn (w : warning).

(** The counters of [processEmail], shared by the documents of an email. *)
Record counters := {
  processedCount : nat;
  successCount : nat;
  failCount : nat
}.

Record pstate := {
  calls_savePdf : nat;
  calls_oracle : nat;
  calls_saveResult : nat;
  events : list event;
  counts : counters
}.

(** State and exceptions: a computation returns or throws, and leaves a
    state either way. *)
Definition State (S A : Type) : Type := S -> result A * S.

Definition ret {S A} (a : A) : State S A := fun st => (Ok a, st).
Definition throw {S A} (e : error) : State S A := fun st => (Throw e, st).
Definition bind {S A B} (m : State S A) (k : A -> State S B) : State S B :=
  fun st => match m st with
            | (Ok a, st') => k a st'
            | (Throw e, st') => (Throw e, st')
            end.
Definition try_catch {S A} (m : State S A) (handler : error -> State S A) : State S A :=
  fun st => match m st with
            | (Ok a, st') => (Ok a, st')
            | (Throw e, st') => handler e st'
            end.
Definition lift {S A} (r : result A) : State S A := fun st => (r, st).

Declare Scope pipeline_scope.
Delimit Scope pipeline_scope with pipeline.
Notation "x <~ e ;; k" := (bind e (fun x => k))
  (at level 61, e at next level, right associativity) : pipeline_scope.
Notation "e ;;; k" := (bind e (fun _ => k))
  (at level 61, right associativity) : pipeline_scope.
Open Scope pipeline_scope.

Definition M : Type -> Type := State pstate.

Definition emit (e : event) : M unit :=
  fun st => (Ok tt, {| calls_savePdf := st.(calls_savePdf);
                       calls_oracle := st.(calls_oracle);
                       calls_saveResult := st.(calls_saveResult);
                       events := st.(events) ++ [e];
                       counts := st.(counts) |}).

Definition count_success : M unit :=
  fun st => (Ok tt, {| calls_savePdf := st.(calls_savePdf);
                       calls_oracle := st.(calls_oracle);
                       calls_saveResult := st.(calls_saveResult);
                       events := st.(events);
                       counts := {| processedCount := S st.(counts).(processedCount);
                                    successCount := S st.(counts).(successCount);
                                    failCount := st.(counts).(failCount) |} |}).

Definition count_failure : M unit :=
  fun st => (Ok tt, {| calls_savePdf := st.(calls_savePdf);
                       calls_oracle := st.(calls_oracle);
                       calls_saveResult := st.(calls_saveResult);
                       events := st.(events);
                       counts := {| processedCount := S st.(counts).(processedCount);
                                    successCount := st.(counts).(successCount);
                                    failCount := S st.(counts).(failCount) |} |}).

(** [error.message].  Only a collaborator's [Failure] reaches the code that
    reads it; the text of the language's own errors is the engine's. *)
Definition message_of (e : error) : option jsstring :=
  match e with
  | Failure m => m
  | TypeError => Some (js "TypeError")
  | SyntaxError => Some (js "SyntaxError")
  | ReferenceError ident => Some (ident ++ js " is not defined")
  end.

Definition savePdf (w : world) : M unit :=
  fun st =>
    let st' := {| calls_savePdf := S st.(calls_savePdf);
                  calls_oracle := st.(calls_oracle);
                  calls_saveResult := st.(calls_saveResult);
                  events := st.(events) ++ [CallSavePdf];
                  counts := st.(counts) |} in
    match w.(savePdf_rejects) st.(calls_savePdf) with
    | None => (Ok tt, st')
    | Some m => (Throw (Failure m), st')
    end.

Definition saveResult (w : world) (extractedData : value) : M unit :=
  fun st =>
    let st' := {| calls_savePdf := st.(calls_savePdf);
                  calls_oracle := st.(calls_oracle);
                  calls_saveResult := S st.(calls_saveResult);
                  events := st.(events) ++ [CallSaveResult extractedData];
                  counts := st.(counts) |} in
    match w.(saveResult_rejects) st.(calls_saveResult) with
    | None => (Ok tt, st')
    | Some m => (Throw (Failure m), st')
    end.

(** [uploadToNetSuite] catches its own errors and its result is not looked
    at: only the call is recorded. *)
Definition uploadToNetSuite (extractedData : value) : M unit :=
  emit (CallUpload extractedData).

(** [{ success: true, analysis, ... }] or [{ success: false, error, ... }]. *)
Inductive claude_result :=
| ClaudeOk (analysis : jsstring)
| ClaudeFailed (error_message : option jsstring).

(** [{ success: true, filename }] or [{ success: false, filename, error }]. *)
Inductive outcome :=
| Succeeded (file : jsstring)
| FailedItem (file : jsstring) (error_message : option jsstring).

Definition success (o : outcome) : bool :=
  match o with Succeeded _ => true | FailedItem _ _ => false end.

Definition RETRY_ATTEMPTS : nat := 3.

Section Pipeline.

(** The extraction instructions written out in [processPdfWithClaude], as
    a function of the file name they end with. *)
Variable marconePrompt : jsstring -> jsstring.

(** [createExtractionPrompt], which the retry prompt calls.  Nothing in the
    repository defines or imports it: in the program as it stands the
    identifier is unbound ([None]) and evaluating it throws a
    [ReferenceError].  [Some f] is the program with the helper supplied. *)
Variable createExtractionPrompt : option (jsstring -> jsstring).

(** The oracle call.  Its own [catch] turns every rejection into a
    [success: false] result; nothing is thrown to the caller. *)
Definition processPdfWithClaude (w : world) (p : pdf) (customPrompt : option jsstring)
  : M claude_result :=
  let prompt := match customPrompt with
                | Some (c :: s) => c :: s
                | _ => marconePrompt p.(filename)
                end in
  fun st =>
    let st' := {| calls_savePdf := st.(calls_savePdf);
                  calls_oracle := S st.(calls_oracle);
                  calls_saveResult := st.(calls_saveResult);
                  events := st.(events) ++ [CallOracle prompt];
                  counts := st.(counts) |} in
    match w.(oracle) st.(calls_oracle) with
    | Replies analysis => (Ok (ClaudeOk analysis), st')
    | Rejects m => (Ok (ClaudeFailed m), st')
    end.

(** The fixed text of the retry prompt around the validator's reason. *)
Definition retryPreamble (reason : jsstring) : jsstring :=
  js "CRITICAL: Previous extraction had invalid bill numbers." ++ nl ++ nl
  ++ reason ++ nl ++ nl
  ++ js "Please re-analyze this PDF and extract EXACTLY 8-digit bill numbers for each line item."
  ++ nl
  ++ js "Remember: Bill numbers are embedded in the Description column (look for N or W followed by 8 digits)."
  ++ nl
  ++ js "If the number spans multiple lines, concatenate to get exactly 8 digits total."
  ++ nl ++ nl
  ++ js "All line items MUST have valid 8-digit original bill numbers." ++ nl ++ nl.

Definition call_createExtractionPrompt (name : jsstring) : M jsstring :=
  match createExtractionPrompt with
  | Some f => ret (f name)
  | None => throw (ReferenceError (js "createExtractionPrompt"))
  end.

Definition reason_of (v : validation) : jsstring :=
  match v with
  | Invalid reason _ => reason
  | Valid => js "undefined"
  end.

(** Lines 658-695: validation of the first extraction and the single retry
    with the corrective prompt.  Returns the value [extractedData] holds
    at the end. *)
Definition validate_and_retry (w : world) (p : pdf) (retryCount : nat)
    (extractedData : value) : M value :=
  validationResult <~ lift (validateBillNumbers extractedData) ;;
  if negb (valid validationResult) && Nat.eqb retryCount 0 then
    emit (Warn (BillValidationFailed (reason_of validationResult))) ;;;
    instructions <~ call_createExtractionPrompt p.(filename) ;;
    let retryPrompt := retryPreamble (reason_of validationResult) ++ instructions in
    retryResult <~ processPdfWithClaude w p (Some retryPrompt) ;;
    match retryResult with
    | ClaudeOk retryAnalysis =>
        retryExtractedData <~ lift (JSON_parse (fenced_body retryAnalysis)) ;;
        retryValidation <~ lift (validateBillNumbers retryExtractedData) ;;
        if valid retryValidation then ret retryExtractedData
        else
          emit (Warn (RetryStillInvalid (reason_of retryValidation))) ;;;
          ret extractedData
    | ClaudeFailed _ => ret extractedData
    end
  else if negb (valid validationResult) then
    emit (Warn (MaxRetriesReached (reason_of validationResult))) ;;;
    ret extractedData
  else ret extractedData.

(** Line 656 prints [extractedData.invoiceNumber || 'N/A']. *)
Definition invoice_label (extractedData : value) : result jsstring :=
  (invoiceNumber <- get extractedData (js "invoiceNumber") ;;
   ToString (if truthy invoiceNumber then invoiceNumber else VStr (js "N/A")))%result.

(** Lines 646-699: the inner [try].  [extractedData] starts as [null]; once
    [JSON.parse] has returned it holds the first extraction, and an
    exception later in the block leaves it so. *)
Definition parse_response (w : world) (p : pdf) (retryCount : nat)
    (analysis : jsstring) : M value :=
  match JSON_parse (fenced_body analysis) with
  | Throw e => emit (Warn (CouldNotParse e)) ;;; ret VNull
  | Ok extractedData =>
      try_catch
        (_ <~ lift (invoice_label extractedData) ;;
         validate_and_retry w p retryCount extractedData)
        (fun e => emit (Warn (CouldNotParse e)) ;;; ret extractedData)
  end.

Definition is_rate_limit (e : error) : bool :=
  match message_of e with
  | Some m => includes m (js "rate_limit_error")
  | None => false
  end.

(** Lines 629-732: the body of the outer [try], at a given [retryCount]. *)
Definition attempt (w : world) (p : pdf) (retryCount : nat) : M outcome :=
  savePdf w ;;;
  result <~ processPdfWithClaude w p None ;;
  match result with
  | ClaudeOk analysis =>
      extractedData <~ parse_response w p retryCount analysis ;;
      saveResult w extractedData ;;;
      (if truthy extractedData then uploadToNetSuite extractedData else ret tt) ;;;
      count_success ;;;
      ret (Succeeded p.(filename))
  | ClaudeFailed err =>
      count_failure ;;;
      ret (FailedItem p.(filename) err)
  end.

(** Lines 744-748: the item is reported failed. *)
Definition report_failure (p : pdf) (e : error) : M outcome :=
  count_failure ;;;
  ret (FailedItem p.(filename) (message_of e)).

(** [processSinglePdf(pdf, index, retryCount)] with
    [retryCount = RETRY_ATTEMPTS - budget]: the recursive call of the
    [catch] block raises [retryCount] by one, that is, lowers [budget]. *)
Fixpoint processSinglePdf_from (budget : nat) (w : world) (p : pdf) (index : nat)
  : M outcome :=
  let retryCount := RETRY_ATTEMPTS - budget in
  try_catch
    (attempt w p retryCount)
    (fun e =>
       if is_rate_limit e && Nat.ltb retryCount RETRY_ATTEMPTS then
         let delaySeconds := (2 ^ Z.of_nat retryCount * 10)%Z in
         match budget with
         | S b =>
             emit (Warn (RateLimitHit delaySeconds)) ;;;
             emit (Sleep (delaySeconds * 1000)) ;;;
             processSinglePdf_from b w p index
         | O => report_failure p e
         end
       else report_failure p e).

(** [processSinglePdf(pdf, index)]: [retryCount] defaults to 0. *)
Definition processSinglePdf (w : world) (p : pdf) (index : nat) : M outcome :=
  processSinglePdf_from RETRY_ATTEMPTS w p index.

Definition initial (c : counters) : pstate :=
  {| calls_savePdf := 0; calls_oracle := 0; calls_saveResult := 0;
     events := []; counts := c |}.

End Pipeline.

(** A computation that leaves the shared counters as they were. *)
Definition keeps_counts {A} (m : M A) : Prop :=
  forall st, counts (snd (m st)) = counts st.

(** The counters after one more document, succeeded or failed. *)
Definition bump (ok : bool) (c : counters) : counters :=
  {| processedCount := S c.(processedCount);
     successCount := if ok then S c.(successCount) else c.(successCount);
     failCount := if ok then c.(failCount) else S c.(failCount) |}.

(** The prompts sent to the oracle, in order. *)
Fixpoint oracle_prompts (evs : list event) : list jsstring :=
  match evs with
  | [] => []
  | CallOracle prompt :: rest => prompt :: oracle_prompts rest
  | _ :: rest => oracle_prompts rest
  end.

(** What was handed to the sink ([saveResult] and [uploadToNetSuite]). *)
Fixpoint persisted (evs : list event) : list value :=
  match evs with
  | [] => []
  | CallSaveResult d :: rest => d :: persisted rest
  | CallUpload d :: rest => d :: persisted rest
  | _ :: rest => persisted rest
  end.

Fixpoint sleeps (evs : list event) : list Z :=
  match evs with
  | [] => []
  | Sleep ms :: rest => ms :: sleeps rest
  | _ :: rest => sleeps rest
  end.

Definition zero_counters : counters :=
  {| processedCount := 0; successCount := 0; failCount := 0 |}.

(** A world in which the disk never fails and the oracle gives the listed
    answers, then rejects. *)
Definition scripted (replies : list oracle_reply) : world :=
  {| savePdf_rejects := fun _ => None;
     oracle := fun k => nth k replies (Rejects (Some (js "Connection error.")));
     saveResult_rejects := fun _ => None |}.

Definition sample_prompt (name : jsstring) : jsstring :=
  js "MARCONE CREDIT MEMO EXTRACTION ... Document: " ++ name.

(** Oracle answers used in the examples: text that is not JSON, and two
    extractions whose bill numbers have 7 and 6 digits. *)
Definition apology : jsstring := js "Sorry, I cannot read this document.".
Definition seven_digits : jsstring := js "1234567".
Definition six_digits : jsstring := js "123456".

Definition sample_pdf : pdf := {| filename := js "credit.pdf"; content := [37; 80; 68; 70]%N |}.

(** The JSON text of [{"lineItems":[{"nardaNumber":"NF","originalBillNumber":b}]}]. *)
Definition response_with_bill (b : jsstring) : jsstring :=
  js "{" ++ dquote ++ js "lineItems" ++ dquote ++ js ":[{" ++ dquote ++ js "nardaNumber"
  ++ dquote ++ js ":" ++ dquote ++ js "NF" ++ dquote ++ js "," ++ dquote
  ++ js "originalBillNumber" ++ dquote ++ js ":" ++ dquote ++ b ++ dquote ++ js "}]}".

(** What [JSON.parse] makes of [response_with_bill b]. *)
Definition extraction_with_bill (b : jsstring) : value :=
  VObj [(js "lineItems",
         VArr [VObj [(js "nardaNumber", VStr (js "NF"));
                     (js "originalBillNumber", VStr b)]])].

Definition run_sample (helper : option (jsstring -> jsstring)) (replies : list oracle_reply)
  : result outcome * pstate :=
  processSinglePdf sample_prompt helper (scripted replies) sample_pdf 0 (initial zero_counters).

Definition sample_short_nf : value :=
  VObj [(js "nardaNumber", VStr (js "NF")); (js "originalBillNumber", VStr seven_digits)].
Definition sample_shorter_nf : value :=
  VObj [(js "nardaNumber", VStr (js "NF")); (js "originalBillNumber", VStr six_digits)].

(** Whether a validation returned, and returned [valid: true]. *)
Definition valid_result (r : result validation) : bool :=
  match r with
  | Ok v => valid v
  | Throw _ => false
  end.

(** Counting events: [cnt] gives each event its weight. *)
Definition tally (cnt : event -> nat) (evs : list event) : nat :=
  list_sum (map cnt evs).

(** A computation that only appends events, of total weight at most [k]. *)
Definition adds (cnt : event -> nat) (k : nat) {A} (m : M A) : Prop :=
  forall st, exists evs,
    events (snd (m st)) = events st ++ evs /\ tally cnt evs <= k.

(** Weight 1 for entering the validation retry. *)
Definition retry_entered (e : event) : nat :=
  match e with
  | Warn (BillValidationFailed _) => 1
  | _ => 0
  end.

(** Weight 1 for a request to the oracle. *)
Definition oracle_called (e : event) : nat :=
  match e with
  | CallOracle _ => 1
  | _ => 0
  end.

(** ** The batch loop of [processEmail] *)

Definition BATCH_SIZE : nat := 3.
Definition BATCH_DELAY_MS : Z := 5000.

(** A document with the answers the collaborators give for it. *)
Definition job : Type := pdf * world.

(** What the loop does, in order: a pipeline is started, a pipeline has
    settled ([processed] is the counter it leaves), the loop has waited. *)
Inductive sevent :=
| Started (index : nat)
| Settled (index : nat) (r : result outcome) (processed : nat)
| Waited (ms : Z).

Definition slice {A} (i j : nat) (l : list A) : list A := firstn (j - i) (skipn i l).

Section Scheduler.

Variable marconePrompt : jsstring -> jsstring.
Variable createExtractionPrompt : option (jsstring -> jsstring).

(** The order in which the pipelines of a batch settle; it is for the
    collaborators to decide, and may be any arrangement of the batch. *)
Variable completion : list (nat * job) -> list (nat * job).

(** The pipelines of a batch in the order they settle.  A pipeline touches
    the shared counters only in its last, synchronous step, so each one is
    run here on the counters its predecessor left. *)
Fixpoint settle (running : list (nat * job)) (c : counters) : list sevent * counters :=
  match running with
  | [] => ([], c)
  | (idx, (p, w)) :: rest =>
      let '(r, st) := processSinglePdf marconePrompt createExtractionPrompt w p idx (initial c) in
      let '(evs, c') := settle rest st.(counts) in
      (Settled idx r st.(counts).(processedCount) :: evs, c')
  end.

(** [for (let i = ...; i < pdfAttachments.length; i += BATCH_SIZE)], at
    most [fuel] rounds.  [Promise.allSettled] waits for every pipeline of
    the batch, fulfilled or rejected. *)
Fixpoint run_batches (fuel : nat) (pdfAttachments : list job) (i : nat) (c : counters)
  : list sevent * counters :=
  match fuel with
  | O => ([], c)
  | S f =>
      if Nat.ltb i (List.length pdfAttachments) then
        let batch := slice i (i + BATCH_SIZE) pdfAttachments in
        let running := combine (seq i (List.length batch)) batch in
        let '(settled, c') := settle (completion running) c in
        let pause := if Nat.ltb (i + BATCH_SIZE) (List.length pdfAttachments)
                     then [Waited BATCH_DELAY_MS] else [] in
        let '(rest, c'') := run_batches f pdfAttachments (i + BATCH_SIZE) c' in
        (map (fun ij => Started (fst ij)) running ++ settled ++ pause ++ rest, c'')
      else ([], c)
  end.

(** The loop from [i = 0] with the counters at zero; one round per
    document is more than the loop can take. *)
Definition process_batches (pdfAttachments : list job) : list sevent * counters :=
  run_batches (List.length pdfAttachments) pdfAttachments 0 zero_counters.

End Scheduler.

(** The indices started, in order. *)
Fixpoint started (trace : list sevent) : list nat :=
  match trace with
  | [] => []
  | Started i :: rest => i :: started rest
  | _ :: rest => started rest
  end.

(** The counter values shown as the pipelines settle, in order. *)
Fixpoint progress (trace : list sevent) : list nat :=
  match trace with
  | [] => []
  | Settled _ _ n :: rest => n :: progress rest
  | _ :: rest => progress rest
  end.

(** The started indices between the waits: one list for each stretch of
    the trace that no wait interrupts. *)
Fixpoint stretches (trace : list sevent) : list (list nat) :=
  match trace with
  | [] => [[]]
  | Waited _ :: rest => [] :: stretches rest
  | Started i :: rest =>
      match stretches rest with
      | g :: gs => (i :: g) :: gs
      | [] => [[i]]
      end
  | Settled _ _ _ :: rest => stretches rest
  end.

(** The partition the specification asks for: consecutive groups of at
    most [n], in order. *)
Fixpoint groups_of {A} (fuel n : nat) (l : list A) : list (list A) :=
  match fuel with
  | O => []
  | S f =>
      match l with
      | [] => []
      | _ => firstn n l :: groups_of f n (skipn n l)
      end
  end.

Definition groups {A} (n : nat) (l : list A) : list (list A) :=
  groups_of (List.length l) n l.

Definition sample_job : job :=
  (sample_pdf, scripted [Replies (response_with_bill (js "66811026"))]).

(** A settled pipeline that was fulfilled, not rejected. *)
Definition fulfilled (e : sevent) : Prop :=
  match e with
  | Settled _ (Ok _) _ => True
  | _ => False
  end.

(** Every index of [idxs] has settled in [l]. *)
Definition all_settled (idxs : list nat) (l : list sevent) : Prop :=
  forall i, In i idxs -> exists r m, In (Settled i r m) l.

(** A document for which the disk and the oracle fail every time. *)
Definition hopeless_job : job :=
  (sample_pdf,
   {| savePdf_rejects := fun _ => Some (Some (js "EIO: i/o error, write"));
      oracle := fun _ => Rejects (Some (js "Connection error."));
      saveResult_rejects := fun _ => Some None |}).

(** The pipelines of a batch settling in the reverse of their order. *)
Definition last_first (running : list (nat * job)) : list (nat * job) := rev running.

Definition seven_jobs : list job := repeat sample_job 7.

(** ** Routing rules and their refresh ([fetchNetSuiteConfigs]) *)

Record processor := {
  name : jsstring;
  enabled : bool;
  criteria_from : value;
  criteria_subjectContains : value;
  pdfFolderId : value;
  jsonFolderId : value;
  claudePrompt : value;
  configId : value;
  vendor : value;
  transactionType : value
}.

(** [EMAIL_PROCESSORS] and [CONFIG.processors]: two references, assigned
    together. *)
Record app_state := {
  EMAIL_PROCESSORS : list processor;
  CONFIG_processors : list processor
}.

Record netsuite_config := {
  netsuite_enabled : bool;
  restletUrl : value
}.

(** What signing and sending the request come to: a response with its
    decoded body, or an error. *)
Inductive http_reply :=
| Responds (data : value)
| RequestFails (message : option jsstring).

Record email := {
  from_text : option jsstring;
  from_address : option jsstring;
  subject : option jsstring
}.

Definition is_lower_alnum (c : N) : bool :=
  (N.leb 97 c && N.leb c 122) || (N.leb 48 c && N.leb c 57).

(** [s.replace(/[^a-z0-9]+/g, '_')]; [in_run] says that the previous
    character was already replaced. *)
Fixpoint replace_runs (in_run : bool) (s : jsstring) : jsstring :=
  match s with
  | [] => []
  | c :: r =>
      if is_lower_alnum c then c :: replace_runs false r
      else if in_run then replace_runs true r
      else 95%N :: replace_runs true r
  end.

Section Config.

(** [String.prototype.toLowerCase], with the platform's case tables. *)
Variable toLowerCase : jsstring -> jsstring.

(** The rule built from one entry of [response.data.configs]. *)
Definition to_processor (config : value) : result processor :=
  displayName <- get config (js "displayName") ;;
  match displayName with
  | VStr s =>
      emailFrom <- get config (js "emailFrom") ;;
      emailSubjectContains <- get config (js "emailSubjectContains") ;;
      pdf_id <- get config (js "pdfFolderId") ;;
      json_id <- get config (js "jsonFolderId") ;;
      prompt <- get config (js "claudePrompt") ;;
      id <- get config (js "id") ;;
      vend <- get config (js "vendor") ;;
      ttype <- get config (js "transactionType") ;;
      Ok {| name := replace_runs false (toLowerCase s);
            enabled := true;
            criteria_from := emailFrom;
            criteria_subjectContains := emailSubjectContains;
            pdfFolderId := pdf_id;
            jsonFolderId := json_id;
            claudePrompt := if truthy prompt then prompt else VStr (js "marcone");
            configId := id;
            vendor := vend;
            transactionType := ttype |}
  | _ => Throw TypeError
  end.

(** Lines 208-213: the log line of one new rule.  It converts the criteria
    to strings and takes a prefix of a custom prompt, which must then be a
    string. *)
Definition log_processor (p : processor) : result unit :=
  _ <- ToString p.(criteria_from) ;;
  _ <- ToString p.(criteria_subjectContains) ;;
  match p.(claudePrompt) with
  | VStr s => Ok tt
  | other => if truthy other then Throw TypeError else Ok tt
  end.

Definition replace_processors (ps : list processor) : State app_state unit :=
  fun _ => (Ok tt, {| EMAIL_PROCESSORS := ps; CONFIG_processors := ps |}).

(** Lines 177-216, inside the [try]. *)
Definition fetch_body (reply : http_reply) : State app_state unit :=
  match reply with
  | RequestFails m => throw (Failure m)
  | Responds data =>
      ok <~ lift (get data (js "success")) ;;
      if negb (truthy ok) then ret tt
      else
        configs <~ lift (get data (js "configs")) ;;
        match configs with
        | VArr [] => ret tt
        | VArr cs =>
            newProcessors <~ lift (map_result to_processor cs) ;;
            replace_processors newProcessors ;;;
            _ <~ lift (map_result log_processor newProcessors) ;;
            ret tt
        | VStr (_ :: _) => throw TypeError
        | _ => ret tt
        end
  end.

(** [fetchNetSuiteConfigs]: nothing is fetched unless the integration is
    enabled and has a URL; whatever the [try] throws is logged. *)
Definition fetchNetSuiteConfigs (cfg : netsuite_config) (reply : http_reply)
  : State app_state unit :=
  if negb cfg.(netsuite_enabled) || negb (truthy cfg.(restletUrl)) then ret tt
  else try_catch (fetch_body reply) (fun _ => ret tt).

(** The timer callback: [fetchNetSuiteConfigs().catch(...)]. *)
Definition refresh_tick (cfg : netsuite_config) (reply : http_reply)
  : State app_state unit :=
  try_catch (fetchNetSuiteConfigs cfg reply) (fun _ => ret tt).

Definition or_else (a : option jsstring) (b : jsstring) : jsstring :=
  match a with
  | Some (c :: s) => c :: s
  | _ => b
  end.

(** The loop of [matchEmailProcessor] over the rules still to try. *)
Fixpoint match_rules (fromAddress subj : jsstring) (rules : list processor)
  : result (option processor) :=
  match rules with
  | [] => Ok None
  | p :: rest =>
      if negb p.(enabled) then match_rules fromAddress subj rest
      else
        match p.(criteria_from) with
        | VStr f =>
            needle <- ToString p.(criteria_subjectContains) ;;
            if includes fromAddress (toLowerCase f) && includes subj needle
            then Ok (Some p)
            else match_rules fromAddress subj rest
        | _ => Throw TypeError
        end
  end.

Definition matchEmailProcessor (st : app_state) (e : email) : result (option processor) :=
  let fromAddress :=
    or_else (option_map toLowerCase e.(from_text))
            (or_else (option_map toLowerCase e.(from_address)) []) in
  let subj := or_else e.(subject) [] in
  match_rules fromAddress subj st.(CONFIG_processors).

(** The response of a successful refresh: [success] is truthy and
    [configs] is a list of at least one entry, each of which makes a rule. *)
Definition carries_rules (reply : http_reply) (ps : list processor) : Prop :=
  exists data ok c cs,
    reply = Responds data /\
    get data (js "success") = Ok ok /\ truthy ok = true /\
    get data (js "configs") = Ok (VArr (c :: cs)) /\
    map_result to_processor (c :: cs) = Ok ps.

End Config.

(** Lower case for the letters A to Z, the others unchanged. *)
Definition ascii_lower (s : jsstring) : jsstring :=
  map (fun c => if N.leb 65 c && N.leb c 90 then (c + 32)%N else c) s.

Definition rule_config (displayName emailFrom subjectContains : jsstring) : value :=
  VObj [(js "id", VNum 7 0);
        (js "displayName", VStr displayName);
        (js "emailFrom", VStr emailFrom);
        (js "emailSubjectContains", VStr subjectContains);
        (js "pdfFolderId", VNum 101 0);
        (js "jsonFolderId", VNum 102 0)].

Definition marcone_credits : processor :=
  {| name := js "marcone_credits";
     enabled := true;
     criteria_from := VStr (js "no-replies@marcone.com");
     criteria_subjectContains := VStr (js "Credits processed by Marcone for 2684000");
     pdfFolderId := VUndefined;
     jsonFolderId := VUndefined;
     claudePrompt := VStr (js "marcone");
     configId := VUndefined;
     vendor := VUndefined;
     transactionType := VUndefined |}.

Definition startup : app_state :=
  {| EMAIL_PROCESSORS := [marcone_credits]; CONFIG_processors := [marcone_credits] |}.

Definition marcone_email : email :=
  {| from_text := Some (js "Marcone <No-Replies@marcone.com>");
     from_address := Some (js "No-Replies@marcone.com");
     subject := Some (js "Credits processed by Marcone for 2684000 on 09/11") |}.

Definition live : netsuite_config :=
  {| netsuite_enabled := true; restletUrl := VStr (js "https://example.invalid/restlet") |}.

Definition other_vendor_reply : http_reply :=
  Responds (VObj [(js "success", VBool true);
                  (js "configs", VArr [rule_config (js "Acme Parts") (js "billing@acme.example")
                                                    (js "Invoice")])]).

(** The rule made from the entry of [other_vendor_reply]. *)
Definition acme_rule : processor :=
  {| name := js "acme_parts";
     enabled := true;
     criteria_from := VStr (js "billing@acme.example");
     criteria_subjectContains := VStr (js "Invoice");
     pdfFolderId := VNum 101 0;
     jsonFolderId := VNum 102 0;
     claudePrompt := VStr (js "marcone");
     configId := VNum 7 0;
     vendor := VUndefined;
     transactionType := VUndefined |}.

(** ** More of [email-poller.js] *)

(** *** How [matchEmailProcessor] treats one rule *)

(** An enabled rule whose criteria the email meets. *)
Definition accepts (toLowerCase : jsstring -> jsstring) (fromAddress subj : jsstring)
    (p : processor) : Prop :=
  p.(enabled) = true /\
  exists f needle,
    p.(criteria_from) = VStr f /\
    ToString p.(criteria_subjectContains) = Ok needle /\
    includes fromAddress (toLowerCase f) = true /\ includes subj needle = true.

(** A rule the loop passes over: it is disabled, or its criteria can be
    read and the email does not meet both. *)
Definition passes_over (toLowerCase : jsstring -> jsstring) (fromAddress subj : jsstring)
    (p : processor) : Prop :=
  p.(enabled) = false \/
  exists f needle,
    p.(criteria_from) = VStr f /\
    ToString p.(criteria_subjectContains) = Ok needle /\
    (includes fromAddress (toLowerCase f) && includes subj needle) = false.

(** An enabled rule on which the loop throws [e]: its sender criterion is
    not a string, or its subject criterion cannot be converted to one. *)
Definition unreadable (p : processor) (e : error) : Prop :=
  p.(enabled) = true /\
  (((forall f, p.(criteria_from) <> VStr f) /\ e = TypeError) \/
   ((exists f, p.(criteria_from) = VStr f) /\
    ToString p.(criteria_subjectContains) = Throw e)).

(** The characters a rule name is made of. *)
Definition is_name_char (c : N) : bool := is_lower_alnum c || N.eqb c 95.

(** No two underscores in a row. *)
Fixpoint single_underscores (s : jsstring) : bool :=
  match s with
  | a :: ((b :: _) as r) => negb (N.eqb a 95 && N.eqb b 95) && single_underscores r
  | _ => true
  end.

(** A response whose only entry has no [emailFrom]. *)
Definition senderless_reply : value :=
  VObj [(js "success", VBool true);
        (js "configs",
         VArr [VObj [(js "id", VNum 9 0);
                     (js "displayName", VStr (js "Acme - Bill"));
                     (js "emailSubjectContains", VStr (js "Invoice"))]])].

Definition senderless_rule : processor :=
  {| name := js "acme_bill";
     enabled := true;
     criteria_from := VUndefined;
     criteria_subjectContains := VStr (js "Invoice");
     pdfFolderId := VUndefined;
     jsonFolderId := VUndefined;
     claudePrompt := VStr (js "marcone");
     configId := VNum 9 0;
     vendor := VUndefined;
     transactionType := VUndefined |}.

(** *** Counting what a document's pipeline does *)

(** Weight 1 for a call of [savePdf], of [saveResult], of
    [uploadToNetSuite], for a pause. *)
Definition savePdf_called (e : event) : nat :=
  match e with CallSavePdf => 1 | _ => 0 end.
Definition saveResult_called (e : event) : nat :=
  match e with CallSaveResult _ => 1 | _ => 0 end.
Definition upload_called (e : event) : nat :=
  match e with CallUpload _ => 1 | _ => 0 end.
Definition slept (e : event) : nat :=
  match e with Sleep _ => 1 | _ => 0 end.

(** The pauses of the rate-limit retry, in milliseconds, from [retryCount]
    on: [2^retryCount * 10] seconds each. *)
Definition backoff (retryCount n : nat) : list Z :=
  map (fun r => (2 ^ Z.of_nat r * 10 * 1000)%Z) (seq retryCount n).

(** What was handed to [uploadToNetSuite], in order. *)
Fixpoint uploads (evs : list event) : list value :=
  match evs with
  | [] => []
  | CallUpload d :: rest => d :: uploads rest
  | _ :: rest => uploads rest
  end.

(** The end of a run that succeeded: the result is saved, and uploaded
    if it is truthy. *)
Definition closing (d : value) : list event :=
  CallSaveResult d :: (if truthy d then [CallUpload d] else []).

(** Weight 1 for a pipeline that settled with [success: true], and for one
    that settled with [success: false]. *)
Definition settled_ok (e : sevent) : nat :=
  match e with
  | Settled _ (Ok o) _ => if success o then 1 else 0
  | _ => 0
  end.
Definition settled_failed (e : sevent) : nat :=
  match e with
  | Settled _ (Ok o) _ => if success o then 0 else 1
  | _ => 0
  end.

Definition count_events (f : sevent -> nat) (trace : list sevent) : nat :=
  list_sum (map f trace).

(** *** [CONFIG] (lines 32-100) and [validateConfig] *)

(** [process.env]: a variable is a string, or is not set. *)
Definition environment : Type := jsstring -> option jsstring.

(** [process.env.X] as a value. *)
Definition env_value (x : option jsstring) : value :=
  match x with
  | Some s => VStr s
  | None => VUndefined
  end.

(** [process.env.X === 'true'] and [process.env.X !== 'false']. *)
Definition is_true (x : option jsstring) : bool :=
  match x with
  | Some s => jseqb s (js "true")
  | None => false
  end.
Definition not_false (x : option jsstring) : bool :=
  match x with
  | Some s => negb (jseqb s (js "false"))
  | None => true
  end.

(** The settings the functions below read.  (The numeric settings, read
    with [parseInt], and the credentials of the signature are used by the
    mail and network clients only.) *)
Record config := {
  imap_user : option jsstring;
  imap_password : option jsstring;
  imap_host : option jsstring;
  claude_apiKey : option jsstring;
  claude_model : jsstring;
  polling_markAsRead : bool;
  polling_mailbox : jsstring;
  polling_searchCriteria : jsstring;
  output_saveProcessedPdfs : bool;
  output_outputDir : jsstring;
  output_saveResults : bool;
  output_resultsDir : jsstring;
  netsuite : netsuite_config;
  netsuite_defaultPdfFolderId : value;
  netsuite_defaultJsonFolderId : value
}.

Definition CONFIG (env : environment) : config :=
  {| imap_user := env (js "IMAP_USER");
     imap_password := env (js "IMAP_PASSWORD");
     imap_host := env (js "IMAP_HOST");
     claude_apiKey := env (js "ANTHROPIC_API_KEY");
     claude_model := or_else (env (js "CLAUDE_MODEL")) (js "claude-haiku-4-5-20251001");
     polling_markAsRead := not_false (env (js "MARK_AS_READ"));
     polling_mailbox := or_else (env (js "IMAP_MAILBOX")) (js "INBOX");
     polling_searchCriteria := or_else (env (js "SEARCH_CRITERIA")) (js "UNSEEN");
     output_saveProcessedPdfs := is_true (env (js "SAVE_PDFS"));
     output_outputDir := or_else (env (js "OUTPUT_DIR")) (js "./processed-pdfs");
     output_saveResults := is_true (env (js "SAVE_RESULTS"));
     output_resultsDir := or_else (env (js "RESULTS_DIR")) (js "./results");
     netsuite := {| netsuite_enabled := is_true (env (js "NETSUITE_ENABLED"));
                    restletUrl := env_value (env (js "NETSUITE_RESTLET_URL")) |};
     netsuite_defaultPdfFolderId := env_value (env (js "NETSUITE_PDF_FOLDER_ID"));
     netsuite_defaultJsonFolderId := env_value (env (js "NETSUITE_JSON_FOLDER_ID")) |}.

(** The rules the program starts with (lines 32-47). *)
Definition EMAIL_PROCESSORS_at_start (env : environment) : list processor :=
  [{| name := js "marcone_credits";
      enabled := not_false (env (js "MARCONE_ENABLED"));
      criteria_from := VStr (js "no-replies@marcone.com");
      criteria_subjectContains := VStr (js "Credits processed by Marcone for 2684000");
      pdfFolderId := env_value (env (js "MARCONE_PDF_FOLDER_ID"));
      jsonFolderId := env_value (env (js "MARCONE_JSON_FOLDER_ID"));
      claudePrompt := VStr (js "marcone");
      configId := VUndefined;
      vendor := VUndefined;
      transactionType := VUndefined |}].

Definition at_start (env : environment) : app_state :=
  {| EMAIL_PROCESSORS := EMAIL_PROCESSORS_at_start env;
     CONFIG_processors := EMAIL_PROCESSORS_at_start env |}.

(** [!value] for a setting read from the environment. *)
Definition unset (x : option jsstring) : bool :=
  match x with
  | Some (_ :: _) => false
  | _ => true
  end.

(** The object [required] of [validateConfig], as its entries. *)
Definition required (c : config) : list (jsstring * option jsstring) :=
  [(js "IMAP_USER", c.(imap_user));
   (js "IMAP_PASSWORD", c.(imap_password));
   (js "IMAP_HOST", c.(imap_host));
   (js "ANTHROPIC_API_KEY", c.(claude_apiKey))].

(** Lines 129-135: the log line of one enabled rule converts its criteria
    to strings. *)
Definition log_enabled (p : processor) : result unit :=
  _ <- ToString p.(criteria_from) ;;
  _ <- ToString p.(criteria_subjectContains) ;;
  Ok tt.

Definition validateConfig (c : config) (st : app_state) : result unit :=
  let missing := map fst (filter (fun kv => unset (snd kv)) (required c)) in
  match missing with
  | [] =>
      _ <- map_result log_enabled (filter enabled st.(CONFIG_processors)) ;;
      Ok tt
  | _ =>
      Throw (Failure (Some (js "Missing required environment variables: "
                            ++ join (js ", ") missing)))
  end.

Definition required_names : list jsstring :=
  [js "IMAP_USER"; js "IMAP_PASSWORD"; js "IMAP_HOST"; js "ANTHROPIC_API_KEY"].

(** An environment given by a list of settings. *)
Fixpoint env_of (settings : list (jsstring * jsstring)) : environment :=
  fun k =>
    match settings with
    | [] => None
    | (k', v) :: rest => if jseqb k k' then Some v else env_of rest k
    end.

(** *** The text of the oracle's answer ([processPdfWithClaude], lines 415-440) *)

(** [v === s] for a string [s]. *)
Definition is_string (v : value) (s : jsstring) : bool :=
  match v with
  | VStr x => jseqb x s
  | _ => false
  end.

(** [blocks.filter(block => block.type === 'text')] *)
Fixpoint text_blocks (blocks : list value) : result (list value) :=
  match blocks with
  | [] => Ok []
  | block :: rest =>
      type <- get block (js "type") ;;
      more <- text_blocks rest ;;
      Ok (if is_string type (js "text") then block :: more else more)
  end.

(** [Array.prototype.join]: [undefined] and [null] elements give the empty
    string, the others are converted to strings. *)
Definition join_values (sep : jsstring) (l : list value) : result jsstring :=
  strs <- map_result (fun v => match v with
                               | VUndefined | VNull => Ok []
                               | _ => ToString v
                               end) l ;;
  Ok (join sep strs).

(** [message.content.filter(...).map(block => block.text).join('\n')] *)
Definition analysis_of (message : value) : result jsstring :=
  content <- get message (js "content") ;;
  match content with
  | VArr blocks =>
      kept <- text_blocks blocks ;;
      texts <- map_result (fun block => get block (js "text")) kept ;;
      join_values nl texts
  | _ => Throw TypeError
  end.

(** What [processPdfWithClaude] returns for what the SDK's request came
    to: after the text, the log line reads the token counts of
    [message.usage]; every exception ends in the [catch]. *)
Definition claude_result_of (sdk : result value) : claude_result :=
  match (message <- sdk ;;
         analysis <- analysis_of message ;;
         usage <- get message (js "usage") ;;
         input_tokens <- get usage (js "input_tokens") ;;
         output_tokens <- get usage (js "output_tokens") ;;
         _ <- ToString input_tokens ;;
         _ <- ToString output_tokens ;;
         Ok analysis) with
  | Ok analysis => ClaudeOk analysis
  | Throw e => ClaudeFailed (message_of e)
  end.

Definition text_block (s : jsstring) : value :=
  VObj [(js "type", VStr (js "text")); (js "text", VStr s)].

(** The texts of the blocks of type [text], for blocks whose text is a
    string. *)
Fixpoint texts_of (blocks : list value) : list jsstring :=
  match blocks with
  | [] => []
  | block :: rest =>
      if is_string (field block (js "type")) (js "text") then
        match field block (js "text") with
        | VStr s => s :: texts_of rest
        | _ => texts_of rest
        end
      else texts_of rest
  end.

(** A block the code can take: an object, whose text is a string if its
    type is [text]. *)
Definition plain_block (block : value) : bool :=
  match block with
  | VObj _ =>
      negb (is_string (field block (js "type")) (js "text"))
      || match field block (js "text") with VStr _ => true | _ => false end
  | _ => false
  end.

(** A message of the SDK with the given content. *)
Definition message_with (blocks : list value) : value :=
  VObj [(js "id", VStr (js "msg_01"));
        (js "content", VArr blocks);
        (js "model", VStr (js "claude-haiku-4-5-20251001"));
        (js "stop_reason", VStr (js "end_turn"));
        (js "usage", VObj [(js "input_tokens", VNum 1520 0); (js "output_tokens", VNum 212 0)])].

Definition thinking_block : value :=
  VObj [(js "type", VStr (js "thinking")); (js "thinking", VStr (js "Let me read the table."))].

(** *** Files on disk ([savePdf], [saveResult]) *)

Definition is_safe_char (c : N) : bool :=
  (N.leb 97 c && N.leb c 122) || (N.leb 65 c && N.leb c 90)
  || (N.leb 48 c && N.leb c 57) || N.eqb c 46 || N.eqb c 45.

(** [filename.replace(/[^a-z0-9.-]/gi, '_')]: every code unit that is not
    an ASCII letter, a digit, a dot or a hyphen becomes an underscore. *)
Definition sanitize (filename : jsstring) : jsstring :=
  map (fun c => if is_safe_char c then c else 95%N) filename.

(** [iso.replace(/[:.]/g, '-')] *)
Definition dashed (iso : jsstring) : jsstring :=
  map (fun c => if N.eqb c 58 || N.eqb c 46 then 45%N else c) iso.

Inductive file_content :=
| Bytes (b : list N)
| Text (s : jsstring).

(** The files written so far, by path. *)
Definition disk : Type := list (jsstring * file_content).

Fixpoint read_file (path : jsstring) (d : disk) : option file_content :=
  match d with
  | [] => None
  | (p, c) :: rest => if jseqb path p then Some c else read_file path rest
  end.

(** [fs.writeFile] creates the file or replaces its content. *)
Fixpoint write_file (path : jsstring) (c : file_content) (d : disk) : disk :=
  match d with
  | [] => [(path, c)]
  | (p, old) :: rest =>
      if jseqb path p then (p, c) :: rest else (p, old) :: write_file path c rest
  end.

Module Disk.

Section Disk.

(** [path.join] and [JSON.stringify(v, null, 2)], the platform's. *)
Variable path_join : jsstring -> jsstring -> jsstring.
Variable stringify : value -> jsstring.

(** Whether [fs.mkdir] and [fs.writeFile] reject for a path, and with
    which message. *)
Variable mkdir_rejects : jsstring -> option (option jsstring).
Variable writeFile_rejects : jsstring -> option (option jsstring).

Definition mkdir (dir : jsstring) : State disk unit :=
  match mkdir_rejects dir with
  | Some m => throw (Failure m)
  | None => ret tt
  end.

Definition writeFile (path : jsstring) (c : file_content) : State disk unit :=
  fun d =>
    match writeFile_rejects path with
    | Some m => (Throw (Failure m), d)
    | None => (Ok tt, write_file path c d)
    end.

(** The name [savePdf] gives the file, and its path: [now] is what
    [new Date().toISOString()] returns at the call. *)
Definition pdf_name (now filename : jsstring) : jsstring :=
  dashed now ++ js "_" ++ sanitize filename.

Definition savePdf (c : config) (now : jsstring) (buffer : list N) (filename : jsstring)
  : State disk unit :=
  if negb c.(output_saveProcessedPdfs) then ret tt
  else
    mkdir c.(output_outputDir) ;;;
    let fullPath := path_join c.(output_outputDir) (pdf_name now filename) in
    writeFile fullPath (Bytes buffer).

Definition result_name (now : jsstring) : jsstring :=
  js "analysis_" ++ dashed now ++ js ".json".

Definition saveResult (c : config) (now : jsstring) (result : value) : State disk unit :=
  if negb c.(output_saveResults) then ret tt
  else
    mkdir c.(output_resultsDir) ;;;
    let fullPath := path_join c.(output_resultsDir) (result_name now) in
    writeFile fullPath (Text (stringify result)).

End Disk.

End Disk.

(** Joining with a slash, for paths that need no normalisation. *)
Definition slash_join (dir name : jsstring) : jsstring := dir ++ js "/" ++ name.

(** A stand-in for the serialisation: the invoice number of the result. *)
Definition invoice_of (v : value) : jsstring := print (field v (js "invoiceNumber")).

Definition saving : environment := env_of [(js "SAVE_PDFS", js "true"); (js "SAVE_RESULTS", js "true")].

(** *** The upload ([uploadToNetSuite], lines 479-569) *)

(** [a || b] *)
Definition either (a b : value) : value := if truthy a then a else b.

Module Upload.

Record payload := {
  pdfBase64 : jsstring;
  pdfFilename : jsstring;
  emailSubject : jsstring;
  extractedData : value;
  processedDate : jsstring;
  pdfFolderId : value;
  jsonFolderId : value
}.

(** [{ success: false, reason: 'disabled' }],
    [{ success: true, pdfFileId, jsonFileId, response }] or
    [{ success: false, error }]. *)
Inductive upload_result :=
| Disabled
| Uploaded (pdfFileId jsonFileId response : value)
| UploadFailed (error_message : option jsstring).

Section Upload.

(** [Buffer.prototype.toString('base64')], the platform's. *)
Variable base64 : list N -> jsstring.

(** The signature of the request (the OAuth library): the header, or an
    exception. *)
Variable authorize : result jsstring.

(** What the server answers to a request. *)
Variable post : payload -> http_reply.

(** The request is recorded, then answered. *)
Definition send (p : payload) : State (list payload) value :=
  fun sent =>
    match post p with
    | Responds data => (Ok data, sent ++ [p])
    | RequestFails m => (Throw (Failure m), sent ++ [p])
    end.

(** [folderIds] is [processor.netsuite] of the matched rule ([None] for
    the default [null]); [now] is the clock reading at the call. *)
Definition uploadToNetSuite (c : config) (now : jsstring) (pdfBuffer : list N)
    (filename : jsstring) (data : value) (subject : jsstring)
    (folderIds : option (value * value)) : State (list payload) upload_result :=
  if negb c.(netsuite).(netsuite_enabled) then ret Disabled
  else
    try_catch
      (let pdf_id := either (match folderIds with Some ids => fst ids | None => VUndefined end)
                              c.(netsuite_defaultPdfFolderId) in
       let json_id := either (match folderIds with Some ids => snd ids | None => VUndefined end)
                               c.(netsuite_defaultJsonFolderId) in
       _ <~ lift (if truthy pdf_id then ToString pdf_id else Ok []) ;;
       _ <~ lift (if truthy json_id then ToString json_id else Ok []) ;;
       _ <~ lift authorize ;;
       response_data <~ send {| pdfBase64 := base64 pdfBuffer;
                                pdfFilename := filename;
                                emailSubject := subject;
                                extractedData := data;
                                processedDate := now;
                                pdfFolderId := pdf_id;
                                jsonFolderId := json_id |} ;;
       pdfFileId <~ lift (get response_data (js "pdfFileId")) ;;
       _ <~ lift (ToString (either pdfFileId (VStr (js "N/A")))) ;;
       jsonFileId <~ lift (get response_data (js "jsonFileId")) ;;
       _ <~ lift (ToString (either jsonFileId (VStr (js "N/A")))) ;;
       ret (Uploaded pdfFileId jsonFileId response_data))
      (fun e => ret (UploadFailed (message_of e))).

End Upload.

End Upload.

(** The JSON text of [{"lineItems":[null]}] and its value. *)
Definition null_item_response : jsstring :=
  js "{" ++ dquote ++ js "lineItems" ++ dquote ++ js ":[null]}".
Definition null_item_extraction : value := VObj [(js "lineItems", VArr [VNull])].

(** *** The handler of a message body ([processEmail], lines 585-780) *)

(** An attachment as the mail parser gives it. *)
Record attachment := {
  contentType : value;
  file : pdf
}.

(** [att.contentType === 'application/pdf'] *)
Definition is_pdf (a : attachment) : bool := is_string a.(contentType) (js "application/pdf").

(** What the handler came to: the email matched no rule, it had no
    attachment, it had [found] attachments but no PDF, or its PDFs went
    through the batch loop. *)
Inductive handled :=
| NoProcessor
| NoAttachments
| NoPdfs (found : nat)
| Processed (trace : list sevent) (c : counters).

(** The [filename] of an outcome. *)
Definition file_of (o : outcome) : jsstring :=
  match o with
  | Succeeded f => f
  | FailedItem f _ => f
  end.

Section Handler.

Variable toLowerCase : jsstring -> jsstring.
Variable marconePrompt : jsstring -> jsstring.
Variable createExtractionPrompt : option (jsstring -> jsstring).
Variable completion : list (nat * job) -> list (nat * job).

(** [parsed] is what [simpleParser] came to: the headers and the
    attachments (each with the answers the collaborators give for it), or
    a rejection.  An exception anywhere in the handler rejects the promise
    of [processEmail]. *)
Definition on_body (st : app_state)
    (parsed : result (email * option (list (attachment * world)))) : result handled :=
  mail <- parsed ;;
  processor <- matchEmailProcessor toLowerCase st (fst mail) ;;
  match processor with
  | None => Ok NoProcessor
  | Some _ =>
      match snd mail with
      | None | Some [] => Ok NoAttachments
      | Some attachments =>
          let pdfAttachments := filter (fun a => is_pdf (fst a)) attachments in
          match pdfAttachments with
          | [] => Ok (NoPdfs (List.length attachments))
          | _ =>
              let '(trace, c) :=
                process_batches marconePrompt createExtractionPrompt completion
                  (map (fun a => ((fst a).(file), snd a)) pdfAttachments) in
              Ok (Processed trace c)
          end
      end
  end.

End Handler.

(** An email with a spreadsheet between two PDFs. *)
Definition spreadsheet : attachment :=
  {| contentType := VStr (js "application/vnd.ms-excel");
     file := {| filename := js "summary.xls"; content := [208; 207]%N |} |}.
Definition credit_memo (name : jsstring) : attachment :=
  {| contentType := VStr (js "application/pdf");
     file := {| filename := name; content := [37; 80; 68; 70]%N |} |}.
Definition good_world : world := scripted [Replies (response_with_bill (js "66811026"))].
Definition three_attachments : list (attachment * world) :=
  [(credit_memo (js "a.pdf"), good_world); (spreadsheet, good_world);
   (credit_memo (js "b.pdf"), good_world)].

(** ** More of [retry_claude_json_scheduled.js] *)

(** *** Responses [parseJSONFromResponse] is written for *)

(** A fenced block, with or without the [json] tag. *)
Definition fence (tagged : bool) (text : jsstring) : jsstring :=
  (if tagged then js "```json" else js "```") ++ nl ++ text ++ nl ++ js "```".

(** A text without the character [x]. *)
Definition lacks (x : N) (text : jsstring) : bool :=
  forallb (fun c => negb (N.eqb c x)) text.

(** A text from an opening brace to a closing brace. *)
Definition braced (text : jsstring) : bool :=
  match text, rev text with
  | a :: _ :: _, b :: _ => N.eqb a 123 && N.eqb b 125
  | _, _ => false
  end.

Definition preamble : jsstring := js "Here is the extracted data:" ++ nl ++ nl.
Definition closing_remark : jsstring := nl ++ nl ++ js "Let me know if anything is missing.".

(** ** The scripts on the NetSuite side *)

(** *** What the scripts ask of the platform *)

Inductive file_type := PDF | JSON.

(** A row of a search, or a loaded record: its id and what [getValue] and
    [getText] return for a field. *)
Record row := {
  row_id : value;
  getValue : jsstring -> value;
  getText : jsstring -> value
}.

(** What a script asks of the oracle and does to the File Cabinet, in
    order: a request to the oracle, a file created and saved, a file moved
    to another folder. *)
Inductive suite_event :=
| AskClaude (userPrompt pdfBase64 : value)
| SaveFile (name : jsstring) (type : file_type) (contents folder : value)
| MoveFile (id folder : value).

(** The answers of the platform: the ids of the running script and its
    parameters, the API key read by
    the oracle's library, [record.load], the two searches, the usage left
    at each round of the loop, [file.load(...).getContents()], the
    library's [callClaude], [file.create(...).save()] (the new id) and the
    load, change of folder and save that move a file (the id [save]
    returns); the clock at each round (start and end of the request in
    milliseconds, and the ISO time). *)
Record platform := {
  script_id : value;
  script_deploymentId : value;
  getParameter : jsstring -> value;
  getApiKey : result value;
  load_record : value -> result row;
  find_files : value -> value -> result (list row);
  find_configs : result (list row);
  getRemainingUsage : nat -> Z;
  getContents : value -> result value;
  callClaude : value -> value -> result value;
  save_file : jsstring -> file_type -> value -> value -> result value;
  move_file : value -> value -> result value;
  getTime : nat -> Z * Z;
  toISOString : nat -> jsstring
}.

Definition Script : Type -> Type := State (list suite_event).

Definition record_event {A} (e : suite_event) (r : result A) : Script A :=
  fun log => (r, log ++ [e]).

(** [e.message] as a value. *)
Definition message_value (e : error) : value :=
  match message_of e with
  | Some m => VStr m
  | None => VUndefined
  end.

Definition lower (c : N) : N := if N.leb 65 c && N.leb c 90 then (c + 32)%N else c.

(** [/\.pdf$/i] matches at the end of [s]. *)
Definition ends_in_pdf (s : jsstring) : bool :=
  jseqb (map lower (skipn (List.length s - 4) s)) (js ".pdf").

(** [s.replace(/\.pdf$/i, '')] *)
Definition strip_pdf (s : jsstring) : jsstring :=
  if ends_in_pdf s then firstn (List.length s - 4) s else s.

(** The same on a value: only a string has [replace]. *)
Definition baseName_of (name : value) : result jsstring :=
  match name with
  | VStr s => Ok (strip_pdf s)
  | _ => Throw TypeError
  end.

(** *** [retry_claude_json_scheduled.js] *)

Module Retry.

(** The object [loadVendorConfig] returns. *)
Record vendor_config := {
  id : value;
  vendorId : value;
  vendorName : value;
  transactionType : value;
  aiPrompt : value;
  retryFolderId : value;
  jsonFolderId : value;
  pdfFolderId : value
}.

(** An entry of [pdfFiles]. *)
Record pdf_file := {
  file_id : value;
  name : value;
  created : value;
  filesize : value
}.

(** [{ success: true, jsonFileId, movedPdfId, extractedData, ... }] or
    [{ success: false, error, ... }]. *)
Inductive file_result :=
| Done (jsonFileId movedPdfId extractedData : value)
| NotDone (error : value).

(** What [execute] logs last: why it returned before the loop, the totals
    of the loop, or the exception it caught. *)
Inductive summary :=
| NoApiKey
| NoConfig
| NoFolders
| NoFiles
| Complete (totalFiles processed errors : nat)
| ScriptError (e : error).

Section Retry.

Variable pf : platform.

(** [JSON.stringify(v, null, 2)], the platform's. *)
Variable stringify : value -> jsstring.

Definition loadVendorConfig (configId : value) : option vendor_config :=
  match pf.(load_record) configId with
  | Ok r =>
      Some {| id := configId;
              vendorId := r.(getValue) (js "custrecord_ap_assist_vendor");
              vendorName := r.(getText) (js "custrecord_ap_assist_vendor");
              transactionType := r.(getValue) (js "custrecord_ap_assist_transaction_type");
              aiPrompt := r.(getValue) (js "custrecord_ap_assist_ai_prompt");
              retryFolderId := r.(getValue) (js "custrecord_ap_assist_pdf_retry_folder");
              jsonFolderId := r.(getValue) (js "custrecord_ap_assist_json_folder_id");
              pdfFolderId := r.(getValue) (js "custrecord_ap_asssist_pdf_folder_id") |}
  | Throw _ => None
  end.

Definition findPDFsInRetryFolder (retryFolderId maxFiles : value) : result (list pdf_file) :=
  searchResults <- pf.(find_files) retryFolderId maxFiles ;;
  Ok (map (fun r => {| file_id := r.(row_id);
                       name := r.(getValue) (js "name");
                       created := r.(getValue) (js "created");
                       filesize := r.(getValue) (js "documentsize") |}) searchResults).

(** The new id, or the old one when loading or saving throws. *)
Definition movePDFToProcessedFolder (fileId targetFolderId : value) : Script value :=
  match pf.(move_file) fileId targetFolderId with
  | Ok newFileId => record_event (MoveFile fileId targetFolderId) (Ok newFileId)
  | Throw _ => ret fileId
  end.

(** [parseJSONFromResponse(claudeResult.analysis)].  For an analysis that
    is not a string, [JSON.parse] reads its string conversion; where that
    fails, the calls of [match] and, in the handler, of [substring] throw
    a [TypeError], which leaves the function. *)
Definition parse_analysis (analysis : value) : result value :=
  match analysis with
  | VStr s => Ok (parseJSONFromResponse s)
  | other =>
      match (text <- ToString other ;; JSON_parse text) with
      | Ok v => Ok v
      | Throw _ => Throw TypeError
      end
  end.

(** [duration + 'ms'] *)
Definition duration_ms (startTime endTime : Z) : jsstring :=
  print (mkNum (endTime - startTime) 0) ++ js "ms".

Definition retryMetadata (pdfFile : pdf_file) (config : vendor_config) (claudeResult : value)
    (startTime endTime : Z) (now : jsstring) : result value :=
  model <- get claudeResult (js "model") ;;
  usage <- get claudeResult (js "usage") ;;
  input_tokens <- (if truthy usage then get usage (js "input_tokens") else Ok VNull) ;;
  output_tokens <- (if truthy usage then get usage (js "output_tokens") else Ok VNull) ;;
  Ok (VObj [(js "processType", VStr (js "AP_ASSIST_RETRY"));
            (js "retryTimestamp", VStr now);
            (js "originalPdfFileId", pdfFile.(file_id));
            (js "originalPdfFileName", pdfFile.(name));
            (js "configId", config.(id));
            (js "vendorName", config.(vendorName));
            (js "claudeModel", model);
            (js "processingDuration", VStr (duration_ms startTime endTime));
            (js "inputTokens", input_tokens);
            (js "outputTokens", output_tokens);
            (js "retryReason", VStr (js "Manual retry - poor initial JSON extraction"))]).

(** [extractedData._retryMetadata = meta]: an object gets the property (a
    repeated name is overwritten in place); an array gets it too, but it
    is no element and the serialisation does not show it; on a primitive
    the assignment does nothing (the script is not in strict mode). *)
Definition with_metadata (extractedData meta : value) : value :=
  match extractedData with
  | VObj fields => VObj (Json.set_field (js "_retryMetadata") meta fields)
  | other => other
  end.

(** The body of the [try] of [processPDFFile]. *)
Definition process_body (pdfFile : pdf_file) (config : vendor_config) (apiKey : value)
    (startTime endTime : Z) (now : jsstring) : Script file_result :=
  pdfBase64 <~ lift (pf.(getContents) pdfFile.(file_id)) ;;
  let userPrompt :=
    either config.(aiPrompt)
      (VStr (js "Extract all relevant data from this PDF and return as structured JSON.")) in
  _ <~ lift (get userPrompt (js "length")) ;;
  _ <~ lift (get pdfBase64 (js "length")) ;;
  claudeResult <~ record_event (AskClaude userPrompt pdfBase64)
                    (pf.(callClaude) userPrompt pdfBase64) ;;
  ok <~ lift (get claudeResult (js "success")) ;;
  if negb (truthy ok) then
    error <~ lift (get claudeResult (js "error")) ;;
    ret (NotDone error)
  else
    analysis <~ lift (get claudeResult (js "analysis")) ;;
    extractedData <~ lift (parse_analysis analysis) ;;
    if negb (truthy extractedData) then
      ret (NotDone (VStr (js "Failed to parse JSON from Claude response")))
    else
      meta <~ lift (retryMetadata pdfFile config claudeResult startTime endTime now) ;;
      let extractedData := with_metadata extractedData meta in
      baseName <~ lift (baseName_of pdfFile.(name)) ;;
      let jsonFilename := baseName ++ js ".json" in
      let contents := VStr (stringify extractedData) in
      jsonFileId <~ record_event (SaveFile jsonFilename JSON contents config.(jsonFolderId))
                      (pf.(save_file) jsonFilename JSON contents config.(jsonFolderId)) ;;
      movedPdfId <~ movePDFToProcessedFolder pdfFile.(file_id) config.(pdfFolderId) ;;
      ret (Done jsonFileId movedPdfId extractedData).

Definition processPDFFile (pdfFile : pdf_file) (config : vendor_config) (apiKey : value)
    (startTime endTime : Z) (now : jsstring) : Script file_result :=
  try_catch (process_body pdfFile config apiKey startTime endTime now)
            (fun e => ret (NotDone (message_value e))).

(** The loop of [execute] from round [i] on, with the two counters. *)
Fixpoint process_files (config : vendor_config) (apiKey : value) (i : nat)
    (pdfFiles : list pdf_file) (processedCount errorCount : nat) : Script (nat * nat) :=
  match pdfFiles with
  | [] => ret (processedCount, errorCount)
  | pdfFile :: rest =>
      if (pf.(getRemainingUsage) i <? 200)%Z then ret (processedCount, errorCount)
      else
        counted <~ try_catch
                     (result <~ processPDFFile pdfFile config apiKey
                                  (fst (pf.(getTime) i)) (snd (pf.(getTime) i))
                                  (pf.(toISOString) i) ;;
                      match result with
                      | Done _ _ _ => ret (S processedCount, errorCount)
                      | NotDone _ => ret (processedCount, S errorCount)
                      end)
                     (fun _ => ret (processedCount, S errorCount)) ;;
        process_files config apiKey (S i) rest (fst counted) (snd counted)
  end.

Definition execute : Script summary :=
  try_catch
    (apiKey <~ lift pf.(getApiKey) ;;
     if negb (truthy apiKey) then ret NoApiKey
     else
       let configId := either (pf.(getParameter) (js "custscript_retry_config_id"))
                              (VStr (js "1")) in
       let maxFiles := either (pf.(getParameter) (js "custscript_retry_max_files"))
                              (VNum 1 1) in
       match loadVendorConfig configId with
       | None => ret NoConfig
       | Some config =>
           if negb (truthy config.(retryFolderId)) || negb (truthy config.(jsonFolderId))
              || negb (truthy config.(pdfFolderId))
           then ret NoFolders
           else
             pdfFiles <~ lift (findPDFsInRetryFolder config.(retryFolderId) maxFiles) ;;
             match pdfFiles with
             | [] => ret NoFiles
             | _ =>
                 counts <~ process_files config apiKey 0 pdfFiles 0 0 ;;
                 ret (Complete (List.length pdfFiles) (fst counts) (snd counts))
             end
       end)
    (fun e => ret (ScriptError e)).

End Retry.

End Retry.

(** The rounds the loop of [execute] makes over [n] files from round [i]:
    it stops at the first round that finds less than 200 units of usage
    left. *)
Fixpoint rounds_made (usage : nat -> Z) (i n : nat) : nat :=
  match n with
  | O => 0
  | S n' => if (usage i <? 200)%Z then 0 else S (rounds_made usage (S i) n')
  end.

(** A platform for the examples: the retry folder holds the given files,
    the oracle answers every request with [analysis], saving and moving
    work, and the usage left drops by 400 units a round from 1000. *)
Definition vendor_row : row :=
  {| row_id := VNum 1 0;
     getValue := fun k =>
       if jseqb k (js "custrecord_ap_assist_pdf_retry_folder") then VNum 301 0
       else if jseqb k (js "custrecord_ap_assist_json_folder_id") then VNum 302 0
       else if jseqb k (js "custrecord_ap_asssist_pdf_folder_id") then VNum 303 0
       else VStr [];
     getText := fun _ => VStr (js "Marcone") |}.

Definition file_row (id : Z) (name : jsstring) : row :=
  {| row_id := VNum id 0;
     getValue := fun k => if jseqb k (js "name") then VStr name else VStr [];
     getText := fun _ => VStr [] |}.

Definition claude_answer (analysis : jsstring) : value :=
  VObj [(js "success", VBool true);
        (js "analysis", VStr analysis);
        (js "model", VStr (js "claude-haiku-4-5-20251001"));
        (js "usage", VObj [(js "input_tokens", VNum 1520 0); (js "output_tokens", VNum 212 0)])].

Definition sample_platform (files : list row) (analysis : jsstring) : platform :=
  {| script_id := VStr (js "customscript_ap_assist");
     script_deploymentId := VStr (js "customdeploy1");
     getParameter := fun _ => VNull;
     getApiKey := Ok (VStr (js "sk-ant-test"));
     load_record := fun _ => Ok vendor_row;
     find_files := fun _ _ => Ok files;
     find_configs := Ok [];
     getRemainingUsage := fun i => (1000 - 400 * Z.of_nat i)%Z;
     getContents := fun _ => Ok (VStr (js "JVBERi0xLjQK"));
     callClaude := fun _ _ => Ok (claude_answer analysis);
     save_file := fun _ _ _ _ => Ok (VNum 9001 0);
     move_file := fun _ _ => Throw (Failure (Some (js "RCRD_LOCKED")));
     getTime := fun _ => (1000, 4250)%Z;
     toISOString := fun _ => js "2026-01-05T10:15:30.123Z" |}.

Definition retry_file (id : Z) (name : jsstring) : Retry.pdf_file :=
  {| Retry.file_id := VNum id 0;
     Retry.name := VStr name;
     Retry.created := VStr [];
     Retry.filesize := VStr [] |}.

Definition marcone_config : Retry.vendor_config :=
  {| Retry.id := VStr (js "1");
     Retry.vendorId := VStr [];
     Retry.vendorName := VStr (js "Marcone");
     Retry.transactionType := VStr [];
     Retry.aiPrompt := VStr [];
     Retry.retryFolderId := VNum 301 0;
     Retry.jsonFolderId := VNum 302 0;
     Retry.pdfFolderId := VNum 303 0 |}.

(** *** [node_pdf_receiver_restlet.js] *)

(** A value as it arrives after [JSON.stringify] on one side and
    [JSON.parse] on the other: a property whose value is [undefined] is
    left out, an [undefined] element of an array arrives as [null]. *)
Fixpoint wire (v : value) : value :=
  match v with
  | VArr elems =>
      VArr (map (fun x => match x with VUndefined => VNull | _ => wire x end) elems)
  | VObj fields =>
      VObj ((fix members (fs : list (jsstring * value)) : list (jsstring * value) :=
               match fs with
               | [] => []
               | (k, x) :: rest =>
                   match x with
                   | VUndefined => members rest
                   | _ => (k, wire x) :: members rest
                   end
               end) fields)
  | _ => v
  end.

(** [a + b] where one of the two is a string. *)
Definition string_plus (a b : value) : result value :=
  sa <- ToString a ;;
  sb <- ToString b ;;
  Ok (VStr (sa ++ sb)).

Module Restlet.

(** [{ success: true, pdfFileId, jsonFileId, pdfFilename, ... }] or
    [{ success: false, error, ... }]. *)
Inductive post_result :=
| Stored (pdfFileId jsonFileId : value) (pdfFilename : jsstring)
| Refused (error : value).

Section Restlet.

Variable pf : platform.

(** [JSON.stringify(v, null, 2)] and [e.toString()], the platform's. *)
Variable stringify : value -> jsstring.
Variable describe : error -> jsstring.

Definition folders_missing : jsstring :=
  js "Folder IDs not provided. Set pdfFolderId/jsonFolderId in request or configure script parameters".

Definition fields_missing : jsstring :=
  js "Missing required fields: pdfBase64 and pdfFilename".

(** The body of the [try] of [post]; [now] is the ISO time at the call. *)
Definition post_body (requestBody : value) (now : jsstring) : Script post_result :=
  let defaultPdfFolderId := pf.(getParameter) (js "custscript_marcone_pdf_folder") in
  let defaultJsonFolderId := pf.(getParameter) (js "custscript_marcone_json_folder") in
  requestedPdf <~ lift (get requestBody (js "pdfFolderId")) ;;
  let pdfFolderId := either requestedPdf defaultPdfFolderId in
  requestedJson <~ lift (get requestBody (js "jsonFolderId")) ;;
  let jsonFolderId := either requestedJson defaultJsonFolderId in
  if negb (truthy pdfFolderId) || negb (truthy jsonFolderId) then
    ret (Refused (VStr folders_missing))
  else
    pdfBase64 <~ lift (get requestBody (js "pdfBase64")) ;;
    pdfFilename <~ lift (get requestBody (js "pdfFilename")) ;;
    if negb (truthy requestBody) || negb (truthy pdfBase64) || negb (truthy pdfFilename) then
      ret (Refused (VStr fields_missing))
    else
      let timestamp := dashed now in
      baseName <~ lift (baseName_of pdfFilename) ;;
      let pdfName := timestamp ++ js "_" ++ baseName ++ js ".pdf" in
      pdfFileId <~ record_event (SaveFile pdfName PDF pdfBase64 pdfFolderId)
                     (pf.(save_file) pdfName PDF pdfBase64 pdfFolderId) ;;
      extractedData <~ lift (get requestBody (js "extractedData")) ;;
      jsonFileId <~ (if truthy extractedData then
                       let jsonContent := VStr (stringify extractedData) in
                       let jsonFilename := timestamp ++ js "_" ++ baseName ++ js ".json" in
                       record_event (SaveFile jsonFilename JSON jsonContent jsonFolderId)
                         (pf.(save_file) jsonFilename JSON jsonContent jsonFolderId)
                     else ret VNull) ;;
      ret (Stored pdfFileId jsonFileId pdfName).

Definition post (requestBody : value) (now : jsstring) : Script post_result :=
  try_catch (post_body requestBody now) (fun e => ret (Refused (message_value e))).

(** The object [post] returns, as far as the client reads it. *)
Definition response_of (r : post_result) : value :=
  match r with
  | Stored pdfFileId jsonFileId pdfFilename =>
      VObj [(js "success", VBool true);
            (js "pdfFileId", pdfFileId);
            (js "jsonFileId", jsonFileId);
            (js "pdfFilename", VStr pdfFilename);
            (js "message", VStr (js "Files uploaded successfully"))]
  | Refused error =>
      VObj [(js "success", VBool false); (js "error", error)]
  end.

(** The entry of [configs] made from one row of the search. *)
Definition config_of (r : row) : result value :=
  let vendorId := r.(getValue) (js "custrecord_ap_assist_vendor") in
  let vendorName := r.(getText) (js "custrecord_ap_assist_vendor") in
  let transactionTypeId := r.(getValue) (js "custrecord_ap_assist_transaction_type") in
  let transactionTypeName := r.(getText) (js "custrecord_ap_assist_transaction_type") in
  let emailAddress := r.(getValue) (js "custrecord_ap_assist_email_address") in
  let emailSubject := r.(getValue) (js "custrecord_ap_assist_email_subject") in
  let aiPrompt := r.(getValue) (js "custrecord_ap_assist_ai_prompt") in
  let pdfFolderId := r.(getValue) (js "custrecord_ap_asssist_pdf_folder_id") in
  let jsonFolderId := r.(getValue) (js "custrecord_ap_assist_json_folder_id") in
  prefix <- string_plus vendorName (VStr (js " - ")) ;;
  displayName <- string_plus prefix transactionTypeName ;;
  Ok (VObj [(js "id", r.(row_id));
            (js "vendor", VObj [(js "id", vendorId); (js "name", vendorName)]);
            (js "transactionType",
             VObj [(js "id", transactionTypeId); (js "name", transactionTypeName)]);
            (js "emailFrom", emailAddress);
            (js "emailSubjectContains", emailSubject);
            (js "claudePrompt", either aiPrompt VNull);
            (js "pdfFolderId", pdfFolderId);
            (js "jsonFolderId", jsonFolderId);
            (js "displayName", displayName)]).

(** [get]: the health check, the list of configurations, or the answer to
    an unknown action.  Only the list is built inside a [try]. *)
Definition get_ (requestParams : value) (now : jsstring) : result value :=
  requested <- get requestParams (js "action") ;;
  let action := either requested (VStr (js "health")) in
  if is_string action (js "health") then
    Ok (VObj [(js "status", VStr (js "active"));
              (js "scriptId", pf.(script_id));
              (js "deploymentId", pf.(script_deploymentId));
              (js "configuration",
               VObj [(js "pdfFolder",
                      either (pf.(getParameter) (js "custscript_marcone_pdf_folder"))
                             (VStr (js "NOT CONFIGURED")));
                     (js "jsonFolder",
                      either (pf.(getParameter) (js "custscript_marcone_json_folder"))
                             (VStr (js "NOT CONFIGURED")))]);
              (js "message",
               VStr (js "AP Assist RESTlet is active. Use POST to upload files or GET with action=configs to retrieve processor configurations."))])
  else if is_string action (js "configs") then
    match (rows <- pf.(find_configs) ;; map_result config_of rows) with
    | Ok configs =>
        Ok (VObj [(js "success", VBool true);
                  (js "count", of_nat (List.length configs));
                  (js "configs", VArr configs);
                  (js "timestamp", VStr now)])
    | Throw e =>
        Ok (VObj [(js "success", VBool false);
                  (js "error", VStr (describe e));
                  (js "message", VStr (js "Failed to retrieve processor configurations"))])
    end
  else
    error <- string_plus (VStr (js "Unknown action: ")) action ;;
    Ok (VObj [(js "success", VBool false);
              (js "error", error);
              (js "message", VStr (js "Valid actions: health, configs"))]).

End Restlet.

End Restlet.

(** The body of the upload request as the RESTlet receives it. *)
Definition body_of (p : Upload.payload) : value :=
  wire (VObj [(js "pdfBase64", VStr p.(Upload.pdfBase64));
              (js "pdfFilename", VStr p.(Upload.pdfFilename));
              (js "emailSubject", VStr p.(Upload.emailSubject));
              (js "extractedData", p.(Upload.extractedData));
              (js "processedDate", VStr p.(Upload.processedDate));
              (js "pdfFolderId", p.(Upload.pdfFolderId));
              (js "jsonFolderId", p.(Upload.jsonFolderId))]).

(** A row of the configuration search with the given texts and values. *)
Definition config_row (id : Z) (vendor type address subject : jsstring) : row :=
  {| row_id := VNum id 0;
     getValue := fun k =>
       if jseqb k (js "custrecord_ap_assist_email_address") then VStr address
       else if jseqb k (js "custrecord_ap_assist_email_subject") then VStr subject
       else if jseqb k (js "custrecord_ap_asssist_pdf_folder_id") then VNum 303 0
       else if jseqb k (js "custrecord_ap_assist_json_folder_id") then VNum 302 0
       else VStr [];
     getText := fun k =>
       if jseqb k (js "custrecord_ap_assist_vendor") then VStr vendor
       else VStr type |}.

(** What the client gets for an upload: the answer of [post] for the body
    of the request, sent back as JSON. *)
Definition restlet_reply (pf : platform) (stringify : value -> jsstring) (now : jsstring)
    (p : Upload.payload) : http_reply :=
  match fst (Restlet.post pf stringify (body_of p) now []) with
  | Ok r => Responds (wire (Restlet.response_of r))
  | Throw e => RequestFails (message_of e)
  end.

(** No two properties of the same name. *)
Fixpoint distinct_keys (fields : list (jsstring * value)) : bool :=
  match fields with
  | [] => true
  | (k, _) :: rest => negb (has_key k rest) && distinct_keys rest
  end.

(** The integration switched on, with and without default folders. *)
Definition uploading : environment :=
  env_of [(js "NETSUITE_ENABLED", js "true");
          (js "NETSUITE_PDF_FOLDER_ID", js "303");
          (js "NETSUITE_JSON_FOLDER_ID", js "302")].

Definition uploading_nowhere : environment := env_of [(js "NETSUITE_ENABLED", js "true")].

(** The platform [pf] with a configuration search that finds [rows]. *)
Definition with_configs (pf : platform) (rows : list row) : platform :=
  {| script_id := pf.(script_id);
     script_deploymentId := pf.(script_deploymentId);
     getParameter := pf.(getParameter);
     getApiKey := pf.(getApiKey);
     load_record := pf.(load_record);
     find_files := pf.(find_files);
     find_configs := Ok rows;
     getRemainingUsage := pf.(getRemainingUsage);
     getContents := pf.(getContents);
     callClaude := pf.(callClaude);
     save_file := pf.(save_file);
     move_file := pf.(move_file);
     getTime := pf.(getTime);
     toISOString := pf.(toISOString) |}.

Definition pdf_bytes : list N := [37; 80; 68; 70; 45; 49; 46; 52]%N.

(** A stand-in for [Buffer.prototype.toString('base64')]. *)
Definition sample_base64 (buffer : list N) : jsstring :=
  match buffer with
  | [] => []
  | _ => js "JVBERi0xLjQ="
  end.

Definition sample_instant : jsstring := js "2026-01-05T10:15:30.123Z".
Definition later_instant : jsstring := js "2026-01-05T10:15:31.004Z".

(** The request of the poller for [credit.pdf], with the folders given. *)
Definition credit_request (folders : value * value) : Upload.payload :=
  {| Upload.pdfBase64 := sample_base64 pdf_bytes;
     Upload.pdfFilename := js "credit.pdf";
     Upload.emailSubject := js "Credit memo";
     Upload.extractedData := json_object;
     Upload.processedDate := sample_instant;
     Upload.pdfFolderId := fst folders;
     Upload.jsonFolderId := snd folders |}.

(** * Theorems *)

(** ** [JSON.parse]: the rounds allowed to the parser are enough *)

Module JsonFacts.
Import Json.

Ltac more_fuel f' :=
  destruct f' as [|f']; [cbn [List.length] in *; lia|].

(** Passing over the characters of a token is the same as lexing what
    follows it. *)
Lemma lex_skip (a r : jsstring) : lex (List.length a) (a ++ r) = lex 0 r.
Proof. induction a as [|c a IH]; [reflexivity|exact IH]. Qed.

Lemma parse_value_nil (f : nat) : parse_value f [] = None.
Proof. destruct f; reflexivity. Qed.

Lemma parse_elements_nil (f : nat) : parse_elements f [] = None.
Proof. destruct f; [reflexivity|]. cbn [parse_elements]. rewrite parse_value_nil. reflexivity. Qed.

Lemma parse_members_nil (f : nat) : parse_members f [] = None.
Proof. destruct f; reflexivity. Qed.

(** A successful parse consumes tokens, and succeeds again, with the same
    result, in any number of rounds that is at least the number of tokens
    it consumed. *)
Lemma parse_fuel (f : nat) :
  (forall ts v r, parse_value f ts = Some (v, r) ->
     List.length r < List.length ts /\
     forall f', List.length ts - List.length r <= f' -> parse_value f' ts = Some (v, r)) /\
  (forall ts vs r, parse_elements f ts = Some (vs, r) ->
     List.length r < List.length ts /\
     forall f', List.length ts - List.length r <= f' -> parse_elements f' ts = Some (vs, r)) /\
  (forall ts ms r, parse_members f ts = Some (ms, r) ->
     List.length r < List.length ts /\
     forall f', List.length ts - List.length r <= f' -> parse_members f' ts = Some (ms, r)).
Proof.
  induction f as [|f [IHv [IHe IHm]]].
  { repeat split; intros; discriminate. }
  split; [|split].
  - intros ts v r H. destruct ts as [|t ts]; cbn [parse_value] in H; [discriminate|].
    destruct t; try discriminate;
      try (inversion H; subst; split; [cbn; lia|];
           intros f' Hf'; more_fuel f'; reflexivity).
    + (* an object *)
      destruct ts as [|t2 ts]; [rewrite parse_members_nil in H; discriminate H|].
      destruct t2;
        try (destruct (parse_members f _) as [[ms r']|] eqn:E; [|discriminate];
             inversion H; subst; destruct (IHm _ _ _ E) as [Hl Hf];
             split; [cbn [List.length] in *; lia|];
             intros f' Hf'; more_fuel f'; cbn [parse_value];
             rewrite Hf by (cbn [List.length] in *; lia); reflexivity).
      inversion H; subst. split; [cbn; lia|].
      intros f' Hf'; more_fuel f'; reflexivity.
    + (* an array *)
      destruct ts as [|t2 ts]; [rewrite parse_elements_nil in H; discriminate H|].
      destruct t2;
        try (destruct (parse_elements f _) as [[vs r']|] eqn:E; [|discriminate];
             inversion H; subst; destruct (IHe _ _ _ E) as [Hl Hf];
             split; [cbn [List.length] in *; lia|];
             intros f' Hf'; more_fuel f'; cbn [parse_value];
             rewrite Hf by (cbn [List.length] in *; lia); reflexivity).
      inversion H; subst. split; [cbn; lia|].
      intros f' Hf'; more_fuel f'; reflexivity.
  - intros ts vs r H. cbn [parse_elements] in H.
    destruct (parse_value f ts) as [[v [|t rest]]|] eqn:E; try discriminate.
    destruct (IHv _ _ _ E) as [Hl Hf].
    destruct t; try discriminate.
    + (* the closing bracket *)
      inversion H; subst. split; [cbn [List.length] in *; lia|].
      intros f' Hf'; more_fuel f'. cbn [parse_elements].
      rewrite Hf by (cbn [List.length] in *; lia). reflexivity.
    + (* a comma *)
      destruct (parse_elements f rest) as [[vs' r']|] eqn:E2; [|discriminate].
      inversion H; subst. destruct (IHe _ _ _ E2) as [Hl2 Hf2].
      split; [cbn [List.length] in *; lia|].
      intros f' Hf'; more_fuel f'. cbn [parse_elements].
      rewrite Hf by (cbn [List.length] in *; lia).
      rewrite Hf2 by (cbn [List.length] in *; lia). reflexivity.
  - intros ts ms r H. cbn [parse_members] in H.
    destruct ts as [|t ts]; [discriminate|]. destruct t; try discriminate.
    destruct ts as [|t2 ts]; [discriminate|]. destruct t2; try discriminate.
    destruct (parse_value f ts) as [[v [|t rest]]|] eqn:E; try discriminate.
    destruct (IHv _ _ _ E) as [Hl Hf].
    destruct t; try discriminate.
    + inversion H; subst. split; [cbn [List.length] in *; lia|].
      intros f' Hf'; more_fuel f'. cbn [parse_members].
      rewrite Hf by (cbn [List.length] in *; lia). reflexivity.
    + destruct (parse_members f rest) as [[ms' r']|] eqn:E2; [|discriminate].
      inversion H; subst. destruct (IHm _ _ _ E2) as [Hl2 Hf2].
      split; [cbn [List.length] in *; lia|].
      intros f' Hf'; more_fuel f'. cbn [parse_members].
      rewrite Hf by (cbn [List.length] in *; lia).
      rewrite Hf2 by (cbn [List.length] in *; lia). reflexivity.
Qed.

(** [parse] refuses a text only if no number of rounds accepts it. *)
Lemma parse_complete (text : jsstring) (ts : list token) (f : nat) (v : value) :
  lex 0 text = Some ts -> parse_value f ts = Some (v, []) -> parse text = Ok v.
Proof.
  intros Hl Hp. unfold parse. rewrite Hl.
  destruct (parse_fuel f) as [Hv _]. destruct (Hv _ _ _ Hp) as [_ Hf].
  rewrite Hf by (cbn [List.length]; lia). reflexivity.
Qed.

End JsonFacts.


(** ** Numbers and strings *)

Lemma strip_zeros_value (fuel : nat) : forall m e m' e',
  strip_zeros fuel m e = (m', e') ->
  (e <= e')%Z /\ m = (m' * 10 ^ (e' - e))%Z.
Proof.
  induction fuel as [|f IH]; intros m e m' e' H; simpl in H.
  - inversion H; subst. split; [lia|]. rewrite Z.sub_diag. simpl. lia.
  - destruct (m mod 10 =? 0)%Z eqn:Hm.
    + apply IH in H. destruct H as [Hle Hv]. split; [lia|].
      apply Z.eqb_eq in Hm.
      replace (e' - e)%Z with (Z.succ (e' - (e + 1)))%Z by lia.
      rewrite Z.pow_succ_r by lia.
      rewrite (Z.div_mod m 10) by lia. rewrite Hm, Hv. ring.
    + inversion H; subst. split; [lia|]. rewrite Z.sub_diag. simpl. lia.
Qed.

Lemma strip_zeros_canonical (fuel : nat) : forall m e,
  m <> 0%Z -> (Z.abs m < 2 ^ (Z.of_nat fuel + 1))%Z ->
  (fst (strip_zeros fuel m e) mod 10 <> 0)%Z.
Proof.
  induction fuel as [|f IH]; intros m e Hm Hb.
  - cbn in Hb |- *. assert (m = 1 \/ m = -1)%Z as [H|H] by lia; subst; discriminate.
  - cbn [strip_zeros]. destruct (m mod 10 =? 0)%Z eqn:E.
    + apply Z.eqb_eq in E. pose proof (Z.div_mod m 10 ltac:(lia)) as D.
      apply IH; [lia|].
      replace (Z.of_nat (S f) + 1)%Z with (Z.succ (Z.of_nat f + 1))%Z in Hb by lia.
      rewrite Z.pow_succ_r in Hb by lia. lia.
    + apply Z.eqb_neq in E. exact E.
Qed.

(** A number is stored in one way only: zero as [VNum 0 0], any other with
    a mantissa that does not end in 0, and with the value it was given. *)
Lemma mkNum_canonical (m e : Z) :
  exists m' e', mkNum m e = VNum m' e' /\
    ((m = 0 /\ m' = 0 /\ e' = 0) \/
     (m <> 0 /\ m' mod 10 <> 0 /\ e <= e' /\ m = m' * 10 ^ (e' - e)))%Z.
Proof.
  unfold mkNum. destruct (m =? 0)%Z eqn:E.
  - apply Z.eqb_eq in E. exists 0%Z, 0%Z. auto.
  - apply Z.eqb_neq in E.
    pose proof (@strip_zeros_canonical (Z.to_nat (Z.log2 (Z.abs m))) m e E) as C.
    destruct (strip_zeros _ m e) as [m' e'] eqn:S.
    exists m', e'. split; [reflexivity|]. right.
    destruct (strip_zeros_value _ _ _ S) as [Hle Hv].
    repeat split; auto. apply C.
    rewrite Z2Nat.id by apply Z.log2_nonneg.
    replace (Z.log2 (Z.abs m) + 1)%Z with (Z.succ (Z.log2 (Z.abs m))) by lia.
    apply Z.log2_spec. lia.
Qed.

Lemma not_eight_other (v : value) : v <> VNum 8 0 -> not_eight v = true.
Proof.
  intros H. destruct v as [| | |m e| | |]; try reflexivity.
  destruct m as [|p|p]; try reflexivity.
  destruct p as [p|p|]; try reflexivity.
  destruct p as [p|p|]; try reflexivity.
  destruct p as [p|p|]; try reflexivity.
  destruct p as [p|p|]; try reflexivity.
  destruct e; try reflexivity. contradiction H. reflexivity.
Qed.

Lemma of_nat_eight (n : nat) : not_eight (of_nat n) = negb (Nat.eqb n 8).
Proof.
  destruct (Nat.eqb n 8) eqn:E.
  - apply Nat.eqb_eq in E. subst. reflexivity.
  - apply Nat.eqb_neq in E. apply not_eight_other. unfold of_nat, mkNum.
    destruct (Z.of_nat n =? 0)%Z; [discriminate|].
    destruct (strip_zeros _ _ _) as [m' e'] eqn:S.
    apply strip_zeros_value in S. destruct S as [Hle Hv].
    intros Heq. inversion Heq; subst. simpl in Hv. lia.
Qed.

Lemma digit_not_comma (s : jsstring) : In 44%N s -> forallb is_digit s = false.
Proof.
  induction s as [|c s IH]; intros H; [destruct H|].
  simpl. destruct H as [H|H].
  - subst. reflexivity.
  - rewrite (IH H). apply andb_false_r.
Qed.

Lemma ToString_array_comma (x y : value) (r : list value) (s : jsstring) :
  ToString (VArr (x :: y :: r)) = Ok s -> In 44%N s.
Proof.
  simpl. intros H.
  match type of H with
  | rbind ?a _ = _ => destruct a as [sx|]; [|discriminate]
  end.
  simpl in H.
  match type of H with
  | rbind ?a _ = _ => destruct a as [sr|]; [|discriminate]
  end.
  simpl in H. inversion H; subst.
  apply in_or_app. right. left. reflexivity.
Qed.

(** ** The bill-number validator *)

(** The validator accepts a field exactly when it is a string of 8 ASCII
    digits, whenever it gets to decide. *)
Lemma bill_rejected_spec (b : value) (r : bool) :
  bill_rejected b = Ok r -> r = negb (is_bill_number b).
Proof.
  unfold bill_rejected.
  destruct (truthy b) eqn:Tb; cbn [negb].
  2:{ intros H; inversion H. destruct b as [| |[|]|m e|[|c s]|l|f]; try reflexivity; discriminate Tb. }
  destruct b as [| |[|]|m e|s|l|f]; try discriminate Tb;
    try (intros H; inversion H; reflexivity).
  - cbn [get rbind]. simpl jseqb. cbv iota. rewrite of_nat_eight.
    destruct (Nat.eqb (List.length s) 8) eqn:E; cbn [negb ToString rbind];
      intros H; inversion H; unfold test_8digits, is_bill_number; rewrite E; reflexivity.
  - cbn [get rbind]. simpl jseqb. cbv iota. rewrite of_nat_eight.
    destruct (Nat.eqb (List.length l) 8) eqn:E; cbn [negb];
      [|intros H; inversion H; reflexivity].
    apply Nat.eqb_eq in E.
    destruct l as [|x [|y l']]; try discriminate E.
    destruct (ToString (VArr (x :: y :: l'))) as [s|] eqn:T; cbn [rbind]; [|discriminate].
    intros H. inversion H. unfold test_8digits.
    rewrite (digit_not_comma _ (ToString_array_comma _ _ _ T)).
    rewrite andb_false_r. reflexivity.
  - cbn [get rbind].
    destruct (not_eight _); [intros H; inversion H; reflexivity|].
    cbn [ToString]. destruct (has_key _ f); cbn [rbind]; [discriminate|].
    intros H. inversion H. reflexivity.
Qed.

Lemma bill_rejected_total (b : value) :
  prints b = true -> bill_rejected b = Ok (negb (is_bill_number b)).
Proof.
  intros P.
  assert (D : exists r, bill_rejected b = Ok r).
  { unfold bill_rejected. unfold prints in P.
    destruct (ToString b) as [s|] eqn:T; [|discriminate].
    destruct (truthy b) eqn:Tb; cbn [negb]; [|eexists; reflexivity].
    destruct (get b (js "length")) as [len|] eqn:G.
    - cbn [rbind]. destruct (not_eight len); eexists; reflexivity.
    - destruct b; try discriminate Tb; discriminate G. }
  destruct D as [r D]. rewrite D. f_equal. exact (bill_rejected_spec _ D).
Qed.

Lemma collect_invalid_all_ok (items : list value) : forall i,
  forallb entry_ok items = true -> collect_invalid i items = Ok [].
Proof.
  induction items as [|item rest IH]; intros i H; [reflexivity|].
  simpl in H. apply andb_prop in H. destruct H as [Hi Hr].
  cbn [collect_invalid]. unfold entry_ok, field, bill_field in Hi.
  destruct (get item (js "originalBillNumber")) as [b|] eqn:G; [|discriminate Hi].
  cbn [rbind]. rewrite bill_rejected_total.
  - rewrite Hi. cbn [negb rbind]. apply IH. exact Hr.
  - destruct b; try discriminate Hi. reflexivity.
Qed.

Lemma collect_invalid_none (items : list value) : forall i,
  collect_invalid i items = Ok [] ->
  Forall (fun item => exists b, get item bill_field = Ok b /\ is_bill_number b = true) items.
Proof.
  induction items as [|item rest IH]; intros i H; [constructor|].
  cbn [collect_invalid] in H. unfold bill_field.
  destruct (get item (js "originalBillNumber")) as [b|] eqn:G; [|discriminate H].
  cbn [rbind] in H.
  destruct (bill_rejected b) as [bad|] eqn:R; [|discriminate H].
  cbn [rbind] in H. apply bill_rejected_spec in R.
  destruct bad.
  - exfalso.
    destruct (get item (js "nardaNumber")); [|discriminate H]. cbn [rbind] in H.
    destruct (if truthy b then get b (js "length") else Ok (VNum 0 0)); [|discriminate H].
    cbn [rbind] in H.
    destruct (collect_invalid (S i) rest); discriminate H.
  - constructor.
    + exists b. split; [exact G|]. destruct (is_bill_number b); [reflexivity|discriminate R].
    + exact (IH _ H).
Qed.

Lemma collect_invalid_readable (items : list value) : forall i,
  forallb entry_readable items = true ->
  collect_invalid i items =
  Ok (map invalid_record
        (filter (fun p => negb (entry_ok (snd p))) (combine (seq i (List.length items)) items))).
Proof.
  induction items as [|item rest IH]; intros i H; [reflexivity|].
  simpl in H. apply andb_prop in H. destruct H as [Hi Hr].
  cbn [collect_invalid List.length seq combine filter snd].
  unfold entry_readable, bill_field in Hi. unfold entry_ok at 1, field at 1, bill_field.
  destruct (get item (js "originalBillNumber")) as [b|] eqn:G; [|discriminate Hi].
  apply andb_prop in Hi. destruct Hi as [Hi Pl]. apply andb_prop in Hi. destruct Hi as [Pb Pn].
  cbn [rbind]. rewrite (bill_rejected_total _ Pb).
  destruct (is_bill_number b) eqn:B; cbn [negb rbind].
  - apply IH. exact Hr.
  - assert (Gn : get item (js "nardaNumber") = Ok (field item narda_field)).
    { unfold field, narda_field. destruct item; try discriminate G; reflexivity. }
    rewrite Gn. cbn [rbind].
    assert (Gl : (if truthy b then get b (js "length") else Ok (VNum 0 0)) =
                 Ok (if truthy b then field b (js "length") else VNum 0 0)).
    { destruct (truthy b) eqn:Tb; [|reflexivity].
      unfold field. destruct b; try discriminate Tb; reflexivity. }
    rewrite Gl. cbn [rbind]. rewrite (IH (S i) Hr). cbn [rbind map].
    assert (Fb : field item bill_field = b).
    { unfold field, bill_field. rewrite G. reflexivity. }
    unfold invalid_record at 2. cbn [fst snd]. rewrite Fb. reflexivity.
Qed.

Lemma detail_readable (p : nat * value) :
  entry_readable (snd p) = true -> detail (invalid_record p) = Ok (report_line p).
Proof.
  unfold entry_readable, detail, report_line, invalid_record, prints, print.
  cbn [index narda billNumber length_].
  assert (Fb : forall b, get (snd p) bill_field = Ok b -> field (snd p) bill_field = b).
  { intros b G. unfold field. rewrite G. reflexivity. }
  destruct (get (snd p) bill_field) as [b|]; [|discriminate].
  rewrite (Fb b eq_refl). clear Fb.
  intros H. apply andb_prop in H. destruct H as [H Pl]. apply andb_prop in H.
  destruct H as [Pb Pn].
  destruct (ToString (field (snd p) narda_field)) as [sn|]; [|discriminate Pn].
  cbn [rbind].
  destruct (truthy b).
  - destruct (ToString b) as [sb|]; [|discriminate Pb]. cbn [rbind].
    destruct (ToString (field b (js "length"))) as [sl|]; [|discriminate Pl].
    reflexivity.
  - reflexivity.
Qed.

Lemma map_result_detail (l : list (nat * value)) :
  Forall (fun p => entry_readable (snd p) = true) l ->
  map_result detail (map invalid_record l) = Ok (map report_line l).
Proof.
  induction 1 as [|p l Hp Hl IH]; [reflexivity|].
  cbn [map map_result]. rewrite (detail_readable _ Hp). cbn [rbind].
  rewrite IH. reflexivity.
Qed.

Lemma failing_readable (items : list value) :
  forallb entry_readable items = true ->
  Forall (fun p => entry_readable (snd p) = true) (failing items).
Proof.
  intros H. apply Forall_forall. intros [i item] Hin.
  unfold failing, indexed in Hin. apply filter_In in Hin. destruct Hin as [Hin _].
  apply in_combine_r in Hin. rewrite forallb_forall in H. exact (H _ Hin).
Qed.

Lemma failing_nonempty (items : list value) :
  forallb entry_ok items = false -> failing items <> [].
Proof.
  unfold failing, indexed. generalize 0.
  induction items as [|item rest IH]; intros i H; [discriminate H|].
  cbn [List.length seq combine filter snd]. simpl in H.
  destruct (entry_ok item); cbn [negb]; [|discriminate].
  apply IH. exact H.
Qed.

Lemma lineItems_object (extractedData : value) (items : list value) :
  get extractedData (js "lineItems") = Ok (VArr items) -> truthy extractedData = true.
Proof.
  destruct extractedData as [| | | | s | l | f]; try discriminate; reflexivity.
Qed.

Lemma validateBillNumbers_all_ok (extractedData : value) (items : list value) :
  get extractedData (js "lineItems") = Ok (VArr items) ->
  forallb entry_ok items = true ->
  validateBillNumbers extractedData = Ok Valid.
Proof.
  intros G H. unfold validateBillNumbers.
  rewrite (lineItems_object _ G). cbn [negb]. rewrite G. cbn [rbind].
  rewrite (collect_invalid_all_ok _ 0 H). reflexivity.
Qed.

Lemma validateBillNumbers_some_bad (extractedData : value) (items : list value) :
  get extractedData (js "lineItems") = Ok (VArr items) ->
  forallb entry_ok items = false ->
  forallb entry_readable items = true ->
  validateBillNumbers extractedData =
  Ok (Invalid (report items) (map invalid_record (failing items))).
Proof.
  intros G Hbad Hread. unfold validateBillNumbers.
  rewrite (lineItems_object _ G). cbn [negb]. rewrite G. cbn [rbind].
  rewrite (collect_invalid_readable _ 0 Hread). cbn [rbind].
  fold (indexed items). fold (failing items).
  pose proof (failing_nonempty _ Hbad) as Hne.
  pose proof (failing_readable _ Hread) as Hr.
  unfold report.
  destruct (failing items) as [|p l] eqn:F; [contradiction Hne; reflexivity|].
  pose proof (map_result_detail Hr) as Hd.
  cbn [map] in Hd |- *. rewrite Hd. reflexivity.
Qed.



Lemma is_bill_number_string (b : value) :
  is_bill_number b = true ->
  exists s, b = VStr s /\ List.length s = 8 /\ Forall (fun c => (48 <= c <= 57)%N) s.
Proof.
  destruct b as [| | | |s| |]; try discriminate. simpl. intros H.
  apply andb_prop in H. destruct H as [Hl Hd].
  exists s. split; [reflexivity|]. split; [apply Nat.eqb_eq; exact Hl|].
  apply Forall_forall. intros c Hc. rewrite forallb_forall in Hd.
  specialize (Hd c Hc). unfold is_digit in Hd. apply andb_prop in Hd.
  destruct Hd as [H1 H2]. apply N.leb_le in H1, H2. lia.
Qed.

Lemma indexed_nth (items : list value) (i : nat) (item : value) :
  nth_error items i = Some item -> In (i, item) (indexed items).
Proof.
  unfold indexed.
  assert (G : forall k, nth_error items i = Some item ->
                        In (k + i, item) (combine (seq k (List.length items)) items)).
  { revert i. induction items as [|x rest IH]; intros [|i] k H; try discriminate H.
    - simpl in H. inversion H; subst. left. f_equal. lia.
    - right. simpl in H. replace (k + S i) with (S k + i) by lia. apply IH. exact H. }
  exact (G 0).
Qed.

(** C10.  A bill number that is not a string never passes: when the
    validator answers [valid: true] for a list of line items, every entry's
    bill-number field is a string of exactly 8 ASCII digits; and an entry
    whose field holds anything else (the number 12345678, say) is among the
    invalid records. *)
Theorem validateBillNumbers_strings_only (extractedData : value) (items : list value) :
  get extractedData (js "lineItems") = Ok (VArr items) ->
  (validateBillNumbers extractedData = Ok Valid ->
   Forall (fun item => exists s, get item bill_field = Ok (VStr s) /\
                                 List.length s = 8 /\
                                 Forall (fun c => (48 <= c <= 57)%N) s) items) /\
  (forall i item,
     nth_error items i = Some item ->
     (forall s, field item bill_field <> VStr s) ->
     forallb entry_readable items = true ->
     exists reason invalidItems,
       validateBillNumbers extractedData = Ok (Invalid reason invalidItems) /\
       In i (map index invalidItems)).
Proof.
  intros G. split.
  - unfold validateBillNumbers. rewrite (lineItems_object _ G). cbn [negb].
    rewrite G. cbn [rbind].
    destruct (collect_invalid 0 items) as [inv|] eqn:C; [|discriminate].
    cbn [rbind]. destruct inv as [|x inv].
    + intros _. apply collect_invalid_none in C.
      eapply Forall_impl; [|exact C]. intros item [b [Gb Hb]].
      destruct (is_bill_number_string _ Hb) as [s [E [Hl Hd]]]. subst b.
      exists s. auto.
    + destruct (map_result detail (x :: inv)); discriminate.
  - intros i item Hn Hns Hread.
    assert (Hbad : entry_ok item = false).
    { unfold entry_ok. destruct (field item bill_field) as [| | | |s| |] eqn:F; try reflexivity.
      exfalso. exact (Hns s eq_refl). }
    assert (Hall : forallb entry_ok items = false).
    { destruct (forallb entry_ok items) eqn:A; [|reflexivity].
      rewrite forallb_forall in A. rewrite <- Hbad. symmetry. apply A.
      exact (nth_error_In _ _ Hn). }
    exists (report items), (map invalid_record (failing items)).
    split; [exact (validateBillNumbers_some_bad _ G Hall Hread)|].
    rewrite (map_map invalid_record index (failing items)).
    apply (in_map fst _ (i, item)).
    unfold failing. apply filter_In. split; [exact (indexed_nth _ _ Hn)|].
    cbn [snd]. rewrite Hbad. reflexivity.
Qed.

Lemma validateBillNumbers_strings_only_witness :
  (validateBillNumbers (with_lineItems [sample_good]) = Ok Valid ->
   Forall (fun item => exists s, get item bill_field = Ok (VStr s) /\
                                 List.length s = 8 /\
                                 Forall (fun c => (48 <= c <= 57)%N) s) [sample_good]) /\
  exists reason invalidItems,
    validateBillNumbers (with_lineItems [sample_good; sample_number]) =
      Ok (Invalid reason invalidItems) /\
    In 1 (map index invalidItems).
Proof.
  split.
  - apply (@validateBillNumbers_strings_only (with_lineItems [sample_good]) [sample_good]).
    reflexivity.
  - apply (proj2 (@validateBillNumbers_strings_only
                    (with_lineItems [sample_good; sample_number])
                    [sample_good; sample_number] eq_refl) 1 sample_number).
    + reflexivity.
    + intros s. discriminate.
    + reflexivity.
Defined.

(** Entries as the data model has them, records whose two fields are
    strings (or numbers, booleans, [null], or absent), can always be read
    and printed. *)
Lemma primitive_prints (v : value) : primitive v = true -> prints v = true.
Proof. destruct v as [| |[|]| | | |]; try discriminate; reflexivity. Qed.

Lemma record_entry_readable (fields : list (jsstring * value)) :
  primitive (field (VObj fields) bill_field) = true ->
  primitive (field (VObj fields) narda_field) = true ->
  entry_readable (VObj fields) = true.
Proof.
  intros Hb Hn. unfold entry_readable. cbn [get].
  change (match lookup bill_field fields with Some x => x | None => VUndefined end)
    with (field (VObj fields) bill_field).
  rewrite (primitive_prints _ Hb), (primitive_prints _ Hn). cbn [andb].
  destruct (field (VObj fields) bill_field) as [| |[|]|m e|s| |];
    try discriminate Hb; try reflexivity.
  unfold field. cbn [get]. simpl jseqb. cbv iota. unfold of_nat.
  destruct (mkNum_canonical (Z.of_nat (List.length s)) 0) as [m' [e' [H _]]].
  rewrite H. reflexivity.
Qed.

(** ** The response parser of [email-poller.js] *)

Lemma starts_with_prefix (p s : jsstring) : starts_with p (p ++ s) = true.
Proof.
  induction p as [|c p IH]; [reflexivity|].
  cbn. rewrite N.eqb_refl. exact IH.
Qed.

Lemma includes_prefix (p s : jsstring) : includes (p ++ s) p = true.
Proof.
  destruct (p ++ s) eqn:E; cbn [includes]; rewrite <- E, starts_with_prefix; reflexivity.
Qed.

Lemma find_from_prefix (p s : jsstring) : find_from (p ++ s) p = Some 0.
Proof.
  destruct (p ++ s) eqn:E; cbn [find_from]; rewrite <- E, starts_with_prefix; reflexivity.
Qed.

(** The first occurrence of a pattern that begins with a backquote, after
    a stretch without backquotes. *)
Lemma find_from_after (a pat rest : jsstring) :
  no_backquote a = true -> starts_with pat rest = true ->
  find_from (a ++ 96%N :: rest) (96%N :: pat) = Some (List.length a).
Proof.
  intros H Hp. induction a as [|c a IH].
  - cbn [app find_from starts_with]. rewrite N.eqb_refl, Hp. reflexivity.
  - cbn in H. apply andb_prop in H. destruct H as [Hc Ha].
    cbn [app find_from starts_with].
    replace (N.eqb 96 c) with false.
    2:{ symmetry. apply N.eqb_neq. intros E. subst c. discriminate Hc. }
    cbn [andb]. rewrite (IH Ha). reflexivity.
Qed.

Lemma includes_none (a pat : jsstring) :
  no_backquote a = true -> includes a (96%N :: pat) = false.
Proof.
  induction a as [|c a IH]; intros H; [reflexivity|].
  cbn in H. apply andb_prop in H. destruct H as [Hc Ha].
  cbn [includes starts_with].
  replace (N.eqb 96 c) with false.
  2:{ symmetry. apply N.eqb_neq. intros E. subst c. discriminate Hc. }
  cbn [andb orb]. exact (IH Ha).
Qed.

Lemma drop_space_tight (c : N) (s r : jsstring) :
  is_space c = false -> drop_space (nl ++ (c :: s) ++ r) = (c :: s) ++ r.
Proof. intros H. cbn. rewrite H. reflexivity. Qed.

Lemma trim_between_lines (text : jsstring) :
  tight text = true -> trim (nl ++ text ++ nl) = text.
Proof.
  unfold tight, trim. intros H.
  destruct text as [|c s]; [discriminate|].
  destruct (rev (c :: s)) as [|d t] eqn:R; [discriminate|].
  apply andb_prop in H. destruct H as [Hc Hd].
  apply negb_true_iff in Hc, Hd.
  rewrite (@drop_space_tight c s nl Hc).
  rewrite rev_app_distr, R. cbn [rev app nl drop_space].
  replace (is_space 10) with true by reflexivity.
  rewrite Hd. rewrite <- R. apply rev_involutive.
Qed.

Lemma indexOf_prefix (p s : jsstring) : indexOf (p ++ s) p 0 = 0%Z.
Proof.
  unfold indexOf. change (Z.to_nat (Z.max 0 0)) with 0. cbn [skipn].
  rewrite find_from_prefix. reflexivity.
Qed.

Lemma indexOf_closing_fence (body : jsstring) :
  no_backquote body = true ->
  indexOf (js "```json" ++ body ++ js "```") (js "```") 7 = Z.of_nat (7 + List.length body).
Proof.
  intros Hbody. unfold indexOf. change (Z.to_nat (Z.max 0 7)) with 7.
  change (skipn 7 (js "```json" ++ body ++ js "```")) with (body ++ js "```").
  change (js "```") with (96%N :: js "``").
  rewrite (@find_from_after body (js "``") (js "``") Hbody eq_refl).
  rewrite length_app. cbn [List.length js]. f_equal; lia.
Qed.

(** What the parser of [email-poller.js] does accept: a text that
    [JSON.parse] accepts, be it bare or alone inside a [```json] fence. *)
Lemma fenced_body_of_text (text : jsstring) :
  no_backquote text = true -> tight text = true ->
  fenced_body text = text /\ fenced_body (fenced text) = text.
Proof.
  intros Hb Ht. split.
  - unfold fenced_body. change (js "```json") with (96%N :: js "``json").
    rewrite (@includes_none text (js "``json") Hb). reflexivity.
  - set (body := nl ++ text ++ nl).
    assert (Hbody : no_backquote body = true).
    { unfold body, no_backquote. rewrite !forallb_app. fold (no_backquote text).
      rewrite Hb. reflexivity. }
    assert (Hwhole : fenced text = js "```json" ++ body ++ js "```").
    { unfold fenced, body. rewrite <- !app_assoc. reflexivity. }
    rewrite Hwhole. unfold fenced_body.
    rewrite includes_prefix, indexOf_prefix. cbn [Z.add].
    rewrite (@indexOf_closing_fence body Hbody). unfold substring.
    rewrite !length_app. cbn [List.length js].
    replace (Z.to_nat (Z.max 0 (Z.min 7 (Z.of_nat (7 + (List.length body + 3))))))
      with 7 by lia.
    replace (Z.to_nat (Z.max 0 (Z.min (Z.of_nat (7 + List.length body))
                                      (Z.of_nat (7 + (List.length body + 3))))))
      with (7 + List.length body) by lia.
    replace (Nat.min 7 (7 + List.length body)) with 7 by lia.
    replace (Nat.max 7 (7 + List.length body) - 7) with (List.length body) by lia.
    cbn [skipn app].
    rewrite firstn_app, firstn_all, Nat.sub_diag. cbn [firstn].
    rewrite app_nil_r. apply trim_between_lines. exact Ht.
Qed.

Lemma poller_accepts_json (text : jsstring) (o : value) :
  JSON_parse text = Ok o ->
  no_backquote text = true -> tight text = true ->
  JSON_parse (fenced_body text) = Ok o /\
  JSON_parse (fenced_body (fenced text)) = Ok o.
Proof.
  intros Hp Hb Ht. destruct (@fenced_body_of_text text Hb Ht) as [H1 H2].
  rewrite H1, H2. split; exact Hp.
Qed.

(** ** The per-document pipeline *)

Section PipelineFacts.

Variable marconePrompt : jsstring -> jsstring.
Variable createExtractionPrompt : option (jsstring -> jsstring).

Local Abbreviation attempt := (attempt marconePrompt createExtractionPrompt).
Local Abbreviation processSinglePdf_from := (processSinglePdf_from marconePrompt createExtractionPrompt).
Local Abbreviation processSinglePdf := (processSinglePdf marconePrompt createExtractionPrompt).

Lemma processSinglePdf_from_unfold (budget : nat) (w : world) (p : pdf) (index : nat) :
  processSinglePdf_from budget w p index =
  try_catch
    (attempt w p (RETRY_ATTEMPTS - budget))
    (fun e =>
       if is_rate_limit e && Nat.ltb (RETRY_ATTEMPTS - budget) RETRY_ATTEMPTS then
         match budget with
         | S b =>
             emit (Warn (RateLimitHit (2 ^ Z.of_nat (RETRY_ATTEMPTS - budget) * 10)%Z)) ;;;
             emit (Sleep ((2 ^ Z.of_nat (RETRY_ATTEMPTS - budget) * 10) * 1000)%Z) ;;;
             processSinglePdf_from b w p index
         | O => report_failure p e
         end
       else report_failure p e).
Proof. destruct budget; reflexivity. Qed.

(** C5 (the code at the failing input).  When the request to the oracle is
    rejected, whatever the message, rate limit or not, [processPdfWithClaude]
    has already turned the rejection into a [success: false] result: the
    pipeline reports the item failed at once, without sleeping and without
    a second request. *)
Theorem oracle_rate_limit_not_retried (w : world) (p : pdf) (index : nat)
    (c : counters) (msg : option jsstring) :
  w.(savePdf_rejects) 0 = None ->
  w.(oracle) 0 = Rejects msg ->
  let run := processSinglePdf w p index (initial c) in
  fst run = Ok (FailedItem p.(filename) msg) /\
  events (snd run) = [CallSavePdf; CallOracle (marconePrompt p.(filename))] /\
  sleeps (events (snd run)) = [] /\
  counts (snd run) = bump false c.
Proof.
  intros Hs Ho. unfold processSinglePdf. rewrite processSinglePdf_from_unfold.
  unfold try_catch, attempt, bind, savePdf, processPdfWithClaude.
  unfold initial. cbn [calls_savePdf]. rewrite Hs. cbn [calls_oracle]. rewrite Ho.
  cbn. auto.
Qed.


(** *** What a pipeline does to the shared counters *)

Lemma keeps_ret {A} (a : A) : keeps_counts (ret a).
Proof. intros st. reflexivity. Qed.

Lemma keeps_throw {A} (e : error) : keeps_counts (@throw pstate A e).
Proof. intros st. reflexivity. Qed.

Lemma keeps_lift {A} (r : result A) : keeps_counts (lift r).
Proof. intros st. reflexivity. Qed.

Lemma keeps_emit (e : event) : keeps_counts (emit e).
Proof. intros st. reflexivity. Qed.

Lemma keeps_bind {A B} (m : M A) (k : A -> M B) :
  keeps_counts m -> (forall a, keeps_counts (k a)) -> keeps_counts (bind m k).
Proof.
  intros Hm Hk st. unfold bind. specialize (Hm st).
  destruct (m st) as [[a|e] st']; cbn [snd] in *.
  - rewrite (Hk a st'). exact Hm.
  - exact Hm.
Qed.

Lemma keeps_try_catch {A} (m : M A) (h : error -> M A) :
  keeps_counts m -> (forall e, keeps_counts (h e)) -> keeps_counts (try_catch m h).
Proof.
  intros Hm Hh st. unfold try_catch. specialize (Hm st).
  destruct (m st) as [[a|e] st']; cbn [snd] in *.
  - exact Hm.
  - rewrite (Hh e st'). exact Hm.
Qed.

Lemma keeps_savePdf (w : world) : keeps_counts (savePdf w).
Proof. intros st. unfold savePdf. destruct (savePdf_rejects w _); reflexivity. Qed.

Lemma keeps_saveResult (w : world) (d : value) : keeps_counts (saveResult w d).
Proof. intros st. unfold saveResult. destruct (saveResult_rejects w _); reflexivity. Qed.

Lemma keeps_processPdfWithClaude (w : world) (p : pdf) (custom : option jsstring) :
  keeps_counts (processPdfWithClaude marconePrompt w p custom).
Proof. intros st. unfold processPdfWithClaude. destruct (oracle w _); reflexivity. Qed.

Create HintDb counts.
#[local] Hint Resolve keeps_ret keeps_throw keeps_lift keeps_emit keeps_savePdf
  keeps_saveResult keeps_processPdfWithClaude : counts.

Lemma keeps_validate_and_retry (w : world) (p : pdf) (retryCount : nat) (d : value) :
  keeps_counts (validate_and_retry marconePrompt createExtractionPrompt w p retryCount d).
Proof.
  unfold validate_and_retry, call_createExtractionPrompt.
  apply keeps_bind; [auto with counts|]. intros v.
  destruct (negb (valid v) && Nat.eqb retryCount 0).
  - apply keeps_bind; [auto with counts|]. intros _.
    apply keeps_bind; [destruct createExtractionPrompt; auto with counts|]. intros ins.
    apply keeps_bind; [auto with counts|]. intros [a|m]; [|auto with counts].
    apply keeps_bind; [auto with counts|]. intros d2.
    apply keeps_bind; [auto with counts|]. intros v2.
    destruct (valid v2); [auto with counts|].
    apply keeps_bind; auto with counts.
  - destruct (negb (valid v)); [|auto with counts].
    apply keeps_bind; auto with counts.
Qed.

Lemma keeps_parse_response (w : world) (p : pdf) (retryCount : nat) (analysis : jsstring) :
  keeps_counts (parse_response marconePrompt createExtractionPrompt w p retryCount analysis).
Proof.
  unfold parse_response. destruct (JSON_parse _) as [d|e].
  - apply keeps_try_catch.
    + apply keeps_bind; [auto with counts|]. intros _.
      apply keeps_validate_and_retry.
    + intros e. apply keeps_bind; auto with counts.
  - apply keeps_bind; auto with counts.
Qed.

(** The inner [try] never lets an exception out. *)
Lemma parse_response_returns (w : world) (p : pdf) (retryCount : nat)
    (analysis : jsstring) (st : pstate) :
  exists d, fst (parse_response marconePrompt createExtractionPrompt w p retryCount analysis st)
            = Ok d.
Proof.
  unfold parse_response. destruct (JSON_parse _) as [d|e].
  - unfold try_catch.
    match goal with |- context [match ?m st with _ => _ end] => destruct (m st) as [[d'|e] st'] end.
    + exists d'. reflexivity.
    + exists d. reflexivity.
  - exists VNull. reflexivity.
Qed.

(** One run of the [try] body either returns, having counted the item
    once, or throws a collaborator's failure with the counters untouched. *)
Lemma attempt_counts (w : world) (p : pdf) (retryCount : nat) (st : pstate) :
  match attempt w p retryCount st with
  | (Ok o, st') => counts st' = bump (success o) (counts st)
  | (Throw e, st') => counts st' = counts st /\ exists m, e = Failure m
  end.
Proof.
  unfold attempt, bind.
  pose proof (keeps_savePdf w st) as K1.
  destruct (savePdf w st) as [[[]|e1] s1] eqn:E1; cbn [snd] in K1.
  2:{ split; [exact K1|]. unfold savePdf in E1.
      destruct (savePdf_rejects w _); inversion E1. eauto. }
  pose proof (keeps_processPdfWithClaude w p None s1) as K2.
  destruct (processPdfWithClaude marconePrompt w p None s1) as [[[a|m]|e2] s2] eqn:E2;
    cbn [snd] in K2.
  3:{ exfalso. unfold processPdfWithClaude in E2. destruct (oracle w _); inversion E2. }
  2:{ cbn. rewrite K2, K1. reflexivity. }
  pose proof (keeps_parse_response w p retryCount a s2) as K3.
  destruct (parse_response_returns w p retryCount a s2) as [d Hd].
  destruct (parse_response marconePrompt createExtractionPrompt w p retryCount a s2)
    as [r3 s3] eqn:E3.
  cbn [fst snd] in Hd, K3. subst r3.
  pose proof (keeps_saveResult w d s3) as K4.
  destruct (saveResult w d s3) as [[[]|e4] s4] eqn:E4; cbn [snd] in K4.
  2:{ split; [rewrite K4, K3, K2, K1; reflexivity|]. unfold saveResult in E4.
      destruct (saveResult_rejects w _); inversion E4. eauto. }
  destruct (truthy d); cbn; rewrite K4, K3, K2, K1; reflexivity.
Qed.

(** Whatever the collaborators do, a run of [processSinglePdf] returns an
    outcome, and has counted the document once. *)
Lemma processSinglePdf_from_returns (budget : nat) (w : world) (p : pdf) (index : nat) :
  forall st, exists o st',
    processSinglePdf_from budget w p index st = (Ok o, st') /\
    counts st' = bump (success o) (counts st).
Proof.
  induction budget as [|b IH]; intros st; rewrite processSinglePdf_from_unfold;
    unfold try_catch.
  - pose proof (attempt_counts w p (RETRY_ATTEMPTS - 0) st) as HA.
    destruct (attempt w p (RETRY_ATTEMPTS - 0) st) as [[o|e] st'].
    + eauto.
    + destruct HA as [HA _].
      destruct (is_rate_limit e && _); eexists; eexists; (split; [reflexivity|]);
        cbn; rewrite HA; reflexivity.
  - pose proof (attempt_counts w p (RETRY_ATTEMPTS - S b) st) as HA.
    destruct (attempt w p (RETRY_ATTEMPTS - S b) st) as [[o|e] st'].
    + eauto.
    + destruct HA as [HA _].
      destruct (is_rate_limit e && _).
      * unfold bind, emit.
        match goal with |- context [processSinglePdf_from b w p index ?s] =>
          destruct (IH s) as [o [st2 [H1 H2]]]; rewrite H1 end.
        exists o, st2. split; [reflexivity|]. rewrite H2. cbn [counts]. rewrite HA. reflexivity.
      * eexists; eexists; (split; [reflexivity|]). cbn. rewrite HA. reflexivity.
Qed.

End PipelineFacts.

(** *** Runs with given answers *)

Ltac state_simpl :=
  cbn [calls_savePdf calls_oracle calls_saveResult events counts fst snd].

Lemma invalid_truthy (d : value) (reason : jsstring) (invalidItems : list invalid_item) :
  validateBillNumbers d = Ok (Invalid reason invalidItems) -> truthy d = true.
Proof.
  unfold validateBillNumbers. destruct (truthy d); [reflexivity|discriminate].
Qed.

Section Runs.

Variable marconePrompt : jsstring -> jsstring.


(** C1 (the code at the failing input).  In the program as it stands
    [createExtractionPrompt] is unbound.  When the first extraction fails
    the bill-number rule, building the retry prompt throws; the exception is
    caught by the inner [try], the oracle is not asked a second time, and
    the first extraction is what is saved and uploaded. *)
Theorem retry_prompt_is_never_sent
    (w : world) (p : pdf) (index : nat) (c : counters) (analysis : jsstring)
    (d : value) (reason : jsstring) (invalidItems : list invalid_item) :
  w.(savePdf_rejects) 0 = None ->
  w.(oracle) 0 = Replies analysis ->
  JSON_parse (fenced_body analysis) = Ok d ->
  validateBillNumbers d = Ok (Invalid reason invalidItems) ->
  w.(saveResult_rejects) 0 = None ->
  let run := processSinglePdf marconePrompt None w p index (initial c) in
  fst run = Ok (Succeeded p.(filename)) /\
  oracle_prompts (events (snd run)) = [marconePrompt p.(filename)] /\
  persisted (events (snd run)) = [d; d] /\
  (forall label, invoice_label d = Ok label ->
     events (snd run) =
       [CallSavePdf; CallOracle (marconePrompt p.(filename));
        Warn (BillValidationFailed reason);
        Warn (CouldNotParse (ReferenceError (js "createExtractionPrompt")));
        CallSaveResult d; CallUpload d]).
Proof.
  intros Hs Ho Hp Hv Hr.
  pose proof (invalid_truthy _ Hv) as Td.
  unfold processSinglePdf. rewrite processSinglePdf_from_unfold.
  unfold try_catch, attempt, bind, savePdf, processPdfWithClaude, initial.
  state_simpl. rewrite Hs. state_simpl. rewrite Ho. state_simpl.
  unfold parse_response. rewrite Hp. unfold try_catch, bind, lift.
  destruct (invoice_label d) as [label|e] eqn:L.
  - unfold validate_and_retry, bind, lift. rewrite Hv.
    cbn [valid negb andb RETRY_ATTEMPTS Nat.sub Nat.eqb reason_of].
    unfold emit, call_createExtractionPrompt, throw, ret, saveResult.
    state_simpl. rewrite Hr. rewrite Td. cbn.
    repeat split; reflexivity.
  - unfold emit, ret, saveResult. state_simpl. rewrite Hr. rewrite Td. cbn.
    repeat split; try reflexivity. intros l Hl. discriminate Hl.
Qed.


(** When the second extraction passes the rule, it replaces the first. *)
Lemma second_valid_attempt_is_used
    (helper : jsstring -> jsstring)
    (w : world) (p : pdf) (index : nat) (c : counters)
    (analysis1 analysis2 label reason1 : jsstring) (d1 d2 : value)
    (invalid1 : list invalid_item) :
  w.(savePdf_rejects) 0 = None ->
  w.(oracle) 0 = Replies analysis1 ->
  JSON_parse (fenced_body analysis1) = Ok d1 ->
  invoice_label d1 = Ok label ->
  validateBillNumbers d1 = Ok (Invalid reason1 invalid1) ->
  w.(oracle) 1 = Replies analysis2 ->
  JSON_parse (fenced_body analysis2) = Ok d2 ->
  validateBillNumbers d2 = Ok Valid ->
  w.(saveResult_rejects) 0 = None ->
  let run := processSinglePdf marconePrompt (Some helper) w p index (initial c) in
  fst run = Ok (Succeeded p.(filename)) /\
  oracle_prompts (events (snd run)) =
    [marconePrompt p.(filename); retryPreamble reason1 ++ helper p.(filename)] /\
  persisted (events (snd run)) = (if truthy d2 then [d2; d2] else [d2]).
Proof.
  intros Hs Ho1 Hp1 Hl Hv1 Ho2 Hp2 Hv2 Hr.
  assert (Hne : forall r s, exists c0 s0, retryPreamble r ++ s = c0 :: s0).
  { intros r s. eexists. eexists. reflexivity. }
  destruct (Hne reason1 (helper p.(filename))) as [c0 [s0 Hc]].
  unfold processSinglePdf. rewrite processSinglePdf_from_unfold.
  unfold try_catch, attempt, bind, savePdf, processPdfWithClaude, initial.
  state_simpl. rewrite Hs. state_simpl. rewrite Ho1. state_simpl.
  unfold parse_response. rewrite Hp1. unfold try_catch, bind, lift. rewrite Hl.
  unfold validate_and_retry, bind, lift. rewrite Hv1.
  cbn [valid negb andb RETRY_ATTEMPTS Nat.sub Nat.eqb reason_of].
  unfold emit, call_createExtractionPrompt, ret, processPdfWithClaude.
  state_simpl. rewrite Hc. rewrite Ho2. rewrite Hp2, Hv2.
  cbn [valid reason_of]. unfold saveResult. state_simpl. rewrite Hr.
  rewrite <- Hc. destruct (truthy d2); cbn; auto.
Qed.

End Runs.

(** *** How often the oracle is asked *)

Section Tally.

Variable marconePrompt : jsstring -> jsstring.
Variable createExtractionPrompt : option (jsstring -> jsstring).
Variable cnt : event -> nat.

Lemma tally_app (a b : list event) : tally cnt (a ++ b) = tally cnt a + tally cnt b.
Proof. unfold tally. rewrite map_app, list_sum_app. reflexivity. Qed.

Lemma adds_weaken {A} (k k' : nat) (m : M A) : k <= k' -> adds cnt k m -> adds cnt k' m.
Proof.
  intros Hk Hm st. destruct (Hm st) as [evs [He Ht]]. exists evs. split; [exact He|lia].
Qed.

Lemma adds_ret {A} (a : A) : adds cnt 0 (ret (S := pstate) a).
Proof. intros st. exists []. split; [symmetry; apply app_nil_r|reflexivity]. Qed.

Lemma adds_throw {A} (e : error) : adds cnt 0 (@throw pstate A e).
Proof. intros st. exists []. split; [symmetry; apply app_nil_r|reflexivity]. Qed.

Lemma adds_lift {A} (r : result A) : adds cnt 0 (lift (S := pstate) r).
Proof. intros st. exists []. split; [symmetry; apply app_nil_r|reflexivity]. Qed.

Lemma adds_emit (e : event) : adds cnt (cnt e) (emit e).
Proof. intros st. exists [e]. split; [reflexivity|]. unfold tally. cbn. lia. Qed.

Lemma adds_count_success : adds cnt 0 count_success.
Proof. intros st. exists []. split; [symmetry; apply app_nil_r|reflexivity]. Qed.

Lemma adds_count_failure : adds cnt 0 count_failure.
Proof. intros st. exists []. split; [symmetry; apply app_nil_r|reflexivity]. Qed.

Lemma adds_savePdf (w : world) : adds cnt (cnt CallSavePdf) (savePdf w).
Proof.
  intros st. exists [CallSavePdf]. unfold savePdf.
  destruct (savePdf_rejects w _); (split; [reflexivity|unfold tally; cbn; lia]).
Qed.

Lemma adds_saveResult (w : world) (d : value) :
  adds cnt (cnt (CallSaveResult d)) (saveResult w d).
Proof.
  intros st. exists [CallSaveResult d]. unfold saveResult.
  destruct (saveResult_rejects w _); (split; [reflexivity|unfold tally; cbn; lia]).
Qed.

Lemma adds_bind {A B} (k1 k2 : nat) (m : M A) (f : A -> M B) :
  adds cnt k1 m -> (forall a, adds cnt k2 (f a)) -> adds cnt (k1 + k2) (bind m f).
Proof.
  intros Hm Hf st. unfold bind. destruct (Hm st) as [e1 [H1 T1]].
  destruct (m st) as [[a|e] st']; cbn [snd] in *.
  - destruct (Hf a st') as [e2 [H2 T2]]. exists (e1 ++ e2). split.
    + rewrite H2, H1. symmetry. apply app_assoc.
    + rewrite tally_app. lia.
  - exists e1. split; [exact H1|lia].
Qed.

Lemma adds_try_catch {A} (k1 k2 : nat) (m : M A) (h : error -> M A) :
  adds cnt k1 m -> (forall e, adds cnt k2 (h e)) -> adds cnt (k1 + k2) (try_catch m h).
Proof.
  intros Hm Hh st. unfold try_catch. destruct (Hm st) as [e1 [H1 T1]].
  destruct (m st) as [[a|e] st']; cbn [snd] in *.
  - exists e1. split; [exact H1|lia].
  - destruct (Hh e st') as [e2 [H2 T2]]. exists (e1 ++ e2). split.
    + rewrite H2, H1. symmetry. apply app_assoc.
    + rewrite tally_app. lia.
Qed.

End Tally.

Section RetryBudget.

Variable marconePrompt : jsstring -> jsstring.
Variable createExtractionPrompt : option (jsstring -> jsstring).

Local Abbreviation once retryCount := (if Nat.eqb retryCount 0 then 1 else 0).

Lemma oracle_call_adds (cnt : event -> nat) (w : world) (p : pdf) (custom : option jsstring) :
  (forall prompt, cnt (CallOracle prompt) <= 1) ->
  adds cnt 1 (processPdfWithClaude marconePrompt w p custom).
Proof.
  intros Hc st. unfold processPdfWithClaude. eexists [CallOracle _].
  destruct (oracle w _); (split; [reflexivity|]); unfold tally; cbn;
    match goal with |- cnt (CallOracle ?x) + 0 <= 1 => specialize (Hc x); lia end.
Qed.

(** Entering the validation retry and asking the oracle again both happen
    at most once in a run of the inner [try], and only at [retryCount] 0. *)
Lemma validate_and_retry_adds (cnt : event -> nat) (w : world) (p : pdf)
    (retryCount : nat) (d : value) :
  (cnt = retry_entered \/ cnt = oracle_called) ->
  adds cnt (once retryCount)
    (validate_and_retry marconePrompt createExtractionPrompt w p retryCount d).
Proof.
  intros Hcnt. unfold validate_and_retry.
  apply (adds_bind (k1 := 0) (k2 := once retryCount)); [apply adds_lift|]. intros v.
  destruct (Nat.eqb retryCount 0); [|rewrite andb_false_r].
  - destruct (negb (valid v)); cbn [andb]; [|apply (adds_weaken (k := 0)); [lia|apply adds_ret]].
    destruct Hcnt as [Hc|Hc]; subst cnt.
    + apply (adds_bind (k1 := 1) (k2 := 0)); [apply (adds_emit retry_entered)|]. intros _.
      apply (adds_bind (k1 := 0) (k2 := 0)).
      { unfold call_createExtractionPrompt. destruct createExtractionPrompt;
          [apply adds_ret|apply adds_throw]. }
      intros ins. apply (adds_bind (k1 := 0) (k2 := 0)).
      { intros st. unfold processPdfWithClaude. eexists [CallOracle _].
        destruct (oracle w _); (split; [reflexivity|reflexivity]). }
      intros [a|m]; [|apply adds_ret].
      apply (adds_bind (k1 := 0) (k2 := 0)); [apply adds_lift|]. intros d2.
      apply (adds_bind (k1 := 0) (k2 := 0)); [apply adds_lift|]. intros v2.
      destruct (valid v2); [apply adds_ret|].
      apply (adds_bind (k1 := 0) (k2 := 0)); [apply (adds_emit retry_entered)|].
      intros _. apply adds_ret.
    + apply (adds_bind (k1 := 0) (k2 := 1)); [apply (adds_emit oracle_called)|]. intros _.
      apply (adds_bind (k1 := 0) (k2 := 1)).
      { unfold call_createExtractionPrompt. destruct createExtractionPrompt;
          [apply adds_ret|apply adds_throw]. }
      intros ins. apply (adds_bind (k1 := 1) (k2 := 0)).
      { apply oracle_call_adds. intros prompt. reflexivity. }
      intros [a|m]; [|apply adds_ret].
      apply (adds_bind (k1 := 0) (k2 := 0)); [apply adds_lift|]. intros d2.
      apply (adds_bind (k1 := 0) (k2 := 0)); [apply adds_lift|]. intros v2.
      destruct (valid v2); [apply adds_ret|].
      apply (adds_bind (k1 := 0) (k2 := 0)); [apply (adds_emit oracle_called)|].
      intros _. apply adds_ret.
  - apply (adds_weaken (k := 0)); [lia|].
    destruct (negb (valid v)); [|apply adds_ret].
    destruct Hcnt as [Hc|Hc]; subst cnt;
      (apply (adds_bind (k1 := 0) (k2 := 0)); [|intros _; apply adds_ret]).
    + apply (adds_emit retry_entered).
    + apply (adds_emit oracle_called).
Qed.

Lemma parse_response_adds (cnt : event -> nat) (w : world) (p : pdf)
    (retryCount : nat) (analysis : jsstring) :
  (cnt = retry_entered \/ cnt = oracle_called) ->
  adds cnt (once retryCount)
    (parse_response marconePrompt createExtractionPrompt w p retryCount analysis).
Proof.
  intros Hcnt. unfold parse_response.
  assert (Hwarn : forall e, cnt (Warn (CouldNotParse e)) = 0).
  { intros e. destruct Hcnt; subst cnt; reflexivity. }
  destruct (JSON_parse _) as [d|e].
  - replace (once retryCount) with (once retryCount + 0) by lia.
    apply adds_try_catch.
    + apply (adds_bind (k1 := 0)); [apply adds_lift|]. intros _.
      apply validate_and_retry_adds. exact Hcnt.
    + intros e. apply (adds_bind (k1 := 0) (k2 := 0)); [|intros _; apply adds_ret].
      rewrite <- (Hwarn e). apply adds_emit.
  - apply (adds_weaken (k := 0)); [lia|].
    apply (adds_bind (k1 := 0) (k2 := 0)); [|intros _; apply adds_ret].
    rewrite <- (Hwarn e). apply adds_emit.
Qed.

(** One run of the outer [try] asks the oracle at most twice, and at most
    once when it is not the first for the document. *)
Lemma attempt_asks_at_most_twice (w : world) (p : pdf) (retryCount : nat) :
  adds oracle_called (1 + once retryCount)
    (attempt marconePrompt createExtractionPrompt w p retryCount).
Proof.
  unfold attempt.
  apply (adds_bind (k1 := 0)); [apply (adds_savePdf oracle_called)|]. intros _.
  apply (adds_bind (k1 := 1)); [apply oracle_call_adds; intros; reflexivity|].
  intros [a|m].
  - replace (once retryCount) with (once retryCount + 0) by lia.
    apply adds_bind; [apply parse_response_adds; right; reflexivity|]. intros d.
    apply (adds_bind (k1 := 0) (k2 := 0)); [apply (adds_saveResult oracle_called)|]. intros _.
    apply (adds_bind (k1 := 0) (k2 := 0)).
    { destruct (truthy d); [apply (adds_emit oracle_called)|apply adds_ret]. }
    intros _. apply (adds_bind (k1 := 0) (k2 := 0)); [apply adds_count_success|].
    intros _. apply adds_ret.
  - apply (adds_weaken (k := 0)); [lia|].
    apply (adds_bind (k1 := 0) (k2 := 0)); [apply adds_count_failure|].
    intros _. apply adds_ret.
Qed.

Lemma attempt_enters_retry (w : world) (p : pdf) (retryCount : nat) :
  adds retry_entered (once retryCount)
    (attempt marconePrompt createExtractionPrompt w p retryCount).
Proof.
  unfold attempt.
  apply (adds_bind (k1 := 0)); [apply (adds_savePdf retry_entered)|]. intros _.
  apply (adds_bind (k1 := 0)).
  { intros st. unfold processPdfWithClaude. eexists [CallOracle _].
    destruct (oracle w _); (split; [reflexivity|reflexivity]). }
  intros [a|m].
  - replace (once retryCount) with (once retryCount + 0) by lia.
    apply adds_bind; [apply parse_response_adds; left; reflexivity|]. intros d.
    apply (adds_bind (k1 := 0) (k2 := 0)); [apply (adds_saveResult retry_entered)|]. intros _.
    apply (adds_bind (k1 := 0) (k2 := 0)).
    { destruct (truthy d); [apply (adds_emit retry_entered)|apply adds_ret]. }
    intros _. apply (adds_bind (k1 := 0) (k2 := 0)); [apply adds_count_success|].
    intros _. apply adds_ret.
  - apply (adds_weaken (k := 0)); [lia|].
    apply (adds_bind (k1 := 0) (k2 := 0)); [apply adds_count_failure|].
    intros _. apply adds_ret.
Qed.

Lemma processSinglePdf_from_enters_retry (w : world) (p : pdf) (index : nat) :
  forall budget, budget <= RETRY_ATTEMPTS ->
  adds retry_entered (if Nat.eqb budget RETRY_ATTEMPTS then 1 else 0)
    (processSinglePdf_from marconePrompt createExtractionPrompt budget w p index).
Proof.
  assert (Hfail : forall e, adds retry_entered 0 (report_failure p e)).
  { intros e. apply (adds_bind (k1 := 0) (k2 := 0)); [apply adds_count_failure|].
    intros _. apply adds_ret. }
  induction budget as [|b IH]; intros Hb; rewrite processSinglePdf_from_unfold.
  - apply (adds_weaken (k := (if Nat.eqb (RETRY_ATTEMPTS - 0) 0 then 1 else 0) + 0));
      [cbn; lia|].
    apply adds_try_catch.
    + apply attempt_enters_retry.
    + intros e. destruct (_ && _); apply Hfail.
  - replace (if Nat.eqb (S b) RETRY_ATTEMPTS then 1 else 0)
      with ((if Nat.eqb (RETRY_ATTEMPTS - S b) 0 then 1 else 0) + 0).
    2:{ unfold RETRY_ATTEMPTS in *.
        destruct b as [|[|[|b]]]; cbn; try reflexivity. lia. }
    apply adds_try_catch; [apply attempt_enters_retry|].
    intros e. destruct (_ && _); [|apply Hfail].
    apply (adds_bind (k1 := 0) (k2 := 0)); [apply (adds_emit retry_entered)|]. intros _.
    apply (adds_bind (k1 := 0) (k2 := 0)); [apply (adds_emit retry_entered)|]. intros _.
    assert (Hlt : Nat.eqb b RETRY_ATTEMPTS = false) by (apply Nat.eqb_neq; lia).
    specialize (IH ltac:(lia)). rewrite Hlt in IH. exact IH.
Qed.

(** Whatever the collaborators do, and whether or not the helper is
    supplied, a document enters the validation retry at most once: there
    is never a second corrective request, let alone a third attempt. *)
Lemma validation_retry_at_most_once (w : world) (p : pdf) (index : nat) (c : counters) :
  tally retry_entered
    (events (snd (processSinglePdf marconePrompt createExtractionPrompt w p index
                    (initial c)))) <= 1.
Proof.
  destruct (@processSinglePdf_from_enters_retry w p index RETRY_ATTEMPTS (le_n _) (initial c))
    as [evs [He Ht]].
  unfold processSinglePdf. rewrite He. exact Ht.
Qed.

End RetryBudget.

(** ** The batch loop *)

Lemma started_app (a b : list sevent) : started (a ++ b) = started a ++ started b.
Proof.
  induction a as [|e a IH]; [reflexivity|].
  destruct e; cbn [app started]; rewrite IH; reflexivity.
Qed.

Lemma progress_app (a b : list sevent) : progress (a ++ b) = progress a ++ progress b.
Proof.
  induction a as [|e a IH]; [reflexivity|].
  destruct e; cbn [app progress]; rewrite IH; reflexivity.
Qed.

Lemma map_fst_combine {A B} (l : list A) : forall (l' : list B),
  List.length l = List.length l' -> map fst (combine l l') = l.
Proof.
  induction l as [|x l IH]; intros [|y l'] H; try discriminate H; [reflexivity|].
  cbn. f_equal. apply IH. inversion H. reflexivity.
Qed.

Lemma split_at {A} (x : A) (l1 : list A) : forall l2 pre post,
  l1 ++ l2 = pre ++ x :: post ->
  (exists mid, l1 = pre ++ x :: mid) \/
  (exists mid, pre = l1 ++ mid /\ l2 = mid ++ x :: post).
Proof.
  induction l1 as [|a l1 IH]; intros l2 pre post H.
  - right. exists pre. split; [reflexivity|exact H].
  - destruct pre as [|b pre].
    + left. inversion H; subst. exists l1. reflexivity.
    + inversion H; subst. destruct (IH _ _ _ H2) as [[mid Hm]|[mid [Hp Hl]]].
      * left. exists mid. rewrite Hm. reflexivity.
      * right. exists mid. split; [rewrite Hp; reflexivity|exact Hl].
Qed.

Lemma stretches_nonempty (t : list sevent) : stretches t <> [].
Proof.
  induction t as [|e t IH]; [discriminate|].
  destruct e; cbn [stretches]; [destruct (stretches t); discriminate|exact IH|discriminate].
Qed.

Lemma stretches_starts (idxs : list nat) (t : list sevent) :
  stretches (map Started idxs ++ t) =
  (idxs ++ hd [] (stretches t)) :: tl (stretches t).
Proof.
  induction idxs as [|i idxs IH].
  - cbn. pose proof (stretches_nonempty t). destruct (stretches t); [contradiction|reflexivity].
  - cbn [map app stretches]. rewrite IH. reflexivity.
Qed.

Lemma stretches_settled (s t : list sevent) :
  Forall fulfilled s -> stretches (s ++ t) = stretches t.
Proof.
  induction 1 as [|e s He Hs IH]; [reflexivity|].
  destruct e; try contradiction. cbn [app stretches]. exact IH.
Qed.

Lemma groups_of_fuel {A} (n : nat) : forall (f1 f2 : nat) (l : list A),
  0 < n -> List.length l <= f1 -> List.length l <= f2 ->
  groups_of f1 n l = groups_of f2 n l.
Proof.
  induction f1 as [|f1 IH]; intros f2 l Hn H1 H2.
  - destruct l; [|cbn in H1; lia]. destruct f2; reflexivity.
  - destruct f2 as [|f2].
    + destruct l; [reflexivity|cbn in H2; lia].
    + cbn [groups_of]. destruct l as [|x l]; [reflexivity|].
      f_equal. apply IH; [exact Hn| |]; rewrite length_skipn; cbn [List.length] in *; lia.
Qed.

Section SchedulerFacts.

Variable marconePrompt : jsstring -> jsstring.
Variable createExtractionPrompt : option (jsstring -> jsstring).
Variable completion : list (nat * job) -> list (nat * job).
Hypothesis completion_arranges : forall l, Permutation (completion l) l.

Local Abbreviation settles := (settle marconePrompt createExtractionPrompt).
Local Abbreviation runs := (run_batches marconePrompt createExtractionPrompt completion).

Lemma settle_facts (running : list (nat * job)) : forall c,
  let r := settles running c in
  Forall fulfilled (fst r) /\
  started (fst r) = [] /\
  progress (fst r) = seq (S c.(processedCount)) (List.length running) /\
  (snd r).(processedCount) = c.(processedCount) + List.length running /\
  all_settled (map fst running) (fst r) /\
  (forall ms, ~ In (Waited ms) (fst r)).
Proof.
  induction running as [|[idx [p w]] rest IH]; intros c.
  - cbn. repeat split; auto. intros i [].
  - cbn [settle]. unfold processSinglePdf.
    destruct (processSinglePdf_from_returns marconePrompt createExtractionPrompt
                RETRY_ATTEMPTS w p idx (initial c)) as [o [st' [Hrun Hc]]].
    rewrite Hrun. cbn [initial counts] in Hc.
    specialize (IH (counts st')).
    destruct (settles rest (counts st')) as [evs c'] eqn:E.
    cbn [fst snd] in IH |- *.
    destruct IH as [Hf [Hs [Hp [Hn [Ha Hw]]]]].
    assert (Hpc : processedCount (counts st') = S (processedCount c)).
    { rewrite Hc. reflexivity. }
    repeat split.
    + constructor; [exact I|exact Hf].
    + exact Hs.
    + cbn [progress List.length seq]. rewrite Hp, Hpc. reflexivity.
    + rewrite Hn, Hpc. cbn [List.length]. lia.
    + intros i [Hi|Hi].
      * cbn in Hi. subst i. exists (Ok o), (processedCount (counts st')). left. reflexivity.
      * destruct (Ha i Hi) as [r [m Hin]]. exists r, m. right. exact Hin.
    + intros ms [H|H]; [discriminate H|exact (Hw ms H)].
Qed.

End SchedulerFacts.

Section BatchFacts.

Variable marconePrompt : jsstring -> jsstring.
Variable createExtractionPrompt : option (jsstring -> jsstring).
Variable completion : list (nat * job) -> list (nat * job).
Hypothesis completion_arranges : forall l, Permutation (completion l) l.
Variable pdfAttachments : list job.

Local Abbreviation settles := (settle marconePrompt createExtractionPrompt).
Local Abbreviation runs :=
  (run_batches marconePrompt createExtractionPrompt completion).
Local Abbreviation n := (List.length pdfAttachments).
Local Abbreviation running_at i :=
  (combine (seq i (List.length (slice i (i + BATCH_SIZE) pdfAttachments)))
           (slice i (i + BATCH_SIZE) pdfAttachments)).

Lemma running_indices (i : nat) :
  map fst (running_at i) = seq i (Nat.min BATCH_SIZE (n - i)).
Proof.
  rewrite map_fst_combine by (rewrite length_seq; reflexivity).
  unfold slice. rewrite length_firstn, length_skipn.
  replace (i + BATCH_SIZE - i) with BATCH_SIZE by lia. reflexivity.
Qed.

Lemma starts_of_running (i : nat) :
  map (fun ij : nat * job => Started (fst ij)) (running_at i) =
  map Started (seq i (Nat.min BATCH_SIZE (n - i))).
Proof. rewrite <- running_indices, map_map. reflexivity. Qed.

Lemma started_starts (idxs : list nat) : started (map Started idxs) = idxs.
Proof. induction idxs as [|i l IH]; [reflexivity|]. cbn. rewrite IH. reflexivity. Qed.

Lemma progress_starts (idxs : list nat) : progress (map Started idxs) = [].
Proof. induction idxs as [|i l IH]; [reflexivity|exact IH]. Qed.

Lemma settled_completion (i : nat) (c : counters) :
  let r := settles (completion (running_at i)) c in
  Forall fulfilled (fst r) /\
  started (fst r) = [] /\
  progress (fst r) = seq (S c.(processedCount)) (Nat.min BATCH_SIZE (n - i)) /\
  (snd r).(processedCount) = c.(processedCount) + Nat.min BATCH_SIZE (n - i) /\
  all_settled (seq i (Nat.min BATCH_SIZE (n - i))) (fst r) /\
  (forall ms, ~ In (Waited ms) (fst r)).
Proof.
  pose proof (settle_facts marconePrompt createExtractionPrompt (completion (running_at i)) c)
    as [Hf [Hs [Hp [Hn [Ha Hw]]]]].
  assert (Hlen : List.length (completion (running_at i)) = Nat.min BATCH_SIZE (n - i)).
  { rewrite (Permutation_length (completion_arranges _)).
    rewrite <- (length_map fst), running_indices, length_seq. reflexivity. }
  rewrite Hlen in Hp, Hn. repeat split; auto.
  intros idx Hidx. apply Ha.
  apply (Permutation_in idx (Permutation_map fst (Permutation_sym (completion_arranges _)))).
  rewrite running_indices. exact Hidx.
Qed.

Lemma seq_join (i : nat) :
  seq i (Nat.min BATCH_SIZE (n - i)) ++ seq (i + BATCH_SIZE) (n - (i + BATCH_SIZE)) =
  seq i (n - i).
Proof.
  destruct (Nat.le_gt_cases (n - i) BATCH_SIZE) as [Hle|Hgt].
  - replace (n - (i + BATCH_SIZE)) with 0 by lia. rewrite Nat.min_r by exact Hle.
    cbn [seq]. apply app_nil_r.
  - rewrite Nat.min_l by lia.
    replace (n - i) with (BATCH_SIZE + (n - (i + BATCH_SIZE))) by lia.
    rewrite seq_app. reflexivity.
Qed.

(** One round of the loop, spelled out. *)
Lemma run_batches_round (f i : nat) (c : counters) :
  i < n ->
  runs (S f) pdfAttachments i c =
  (map Started (seq i (Nat.min BATCH_SIZE (n - i)))
     ++ fst (settles (completion (running_at i)) c)
     ++ (if Nat.ltb (i + BATCH_SIZE) n then [Waited BATCH_DELAY_MS] else [])
     ++ fst (runs f pdfAttachments (i + BATCH_SIZE)
               (snd (settles (completion (running_at i)) c))),
   snd (runs f pdfAttachments (i + BATCH_SIZE)
          (snd (settles (completion (running_at i)) c)))).
Proof.
  intros Hlt. cbn [run_batches]. apply Nat.ltb_lt in Hlt. rewrite Hlt.
  destruct (settles (completion (running_at i)) c) as [settled c']. cbn [fst snd].
  destruct (runs f pdfAttachments (i + BATCH_SIZE) c') as [rest c'']. cbn [fst snd].
  rewrite starts_of_running. reflexivity.
Qed.

Lemma run_batches_done (f i : nat) (c : counters) :
  n <= i -> runs f pdfAttachments i c = ([], c).
Proof.
  intros Hge. destruct f; [reflexivity|]. cbn [run_batches].
  apply Nat.ltb_ge in Hge. rewrite Hge. reflexivity.
Qed.

Lemma run_batches_counts : forall fuel i c,
  n - i <= fuel ->
  let r := runs fuel pdfAttachments i c in
  started (fst r) = seq i (n - i) /\
  progress (fst r) = seq (S c.(processedCount)) (n - i) /\
  (snd r).(processedCount) = c.(processedCount) + (n - i) /\
  all_settled (seq i (n - i)) (fst r) /\
  (forall idx r0 m, In (Settled idx r0 m) (fst r) -> exists o, r0 = Ok o) /\
  (forall ms, In (Waited ms) (fst r) -> ms = BATCH_DELAY_MS).
Proof.
  induction fuel as [|f IH]; intros i c Hfuel.
  - rewrite run_batches_done by lia. replace (n - i) with 0 by lia. cbn.
    repeat split; auto; try (intros; contradiction). intros j [].
  - destruct (Nat.lt_ge_cases i n) as [Hlt|Hge].
    2:{ rewrite run_batches_done by lia. replace (n - i) with 0 by lia. cbn.
        repeat split; auto; try (intros; contradiction). intros j []. }
    rewrite (run_batches_round f c Hlt).
    destruct (settled_completion i c) as [Hf [Hs [Hp [Hn [Ha Hw]]]]].
    set (sc := settles (completion (running_at i)) c) in *.
    assert (Hfuel' : n - (i + BATCH_SIZE) <= f) by (unfold BATCH_SIZE; lia).
    destruct (IH (i + BATCH_SIZE) (snd sc) Hfuel') as [Is [Ip [In_ [Ia [Io Iw]]]]].
    set (rest := runs f pdfAttachments (i + BATCH_SIZE) (snd sc)) in *.
    set (pause := if Nat.ltb (i + BATCH_SIZE) n then [Waited BATCH_DELAY_MS] else []).
    assert (Hsplit : n - i = Nat.min BATCH_SIZE (n - i) + (n - (i + BATCH_SIZE)))
      by (unfold BATCH_SIZE; lia).
    assert (Hpause_s : started pause = []) by (unfold pause; destruct (Nat.ltb _ _); reflexivity).
    assert (Hpause_p : progress pause = []) by (unfold pause; destruct (Nat.ltb _ _); reflexivity).
    cbn [fst snd]. repeat split.
    + rewrite !started_app, started_starts, Hs, Hpause_s, Is. cbn [app].
      apply seq_join.
    + rewrite !progress_app, progress_starts, Hp, Hpause_p, Ip. cbn [app].
      rewrite Hsplit at 2. rewrite seq_app. f_equal. f_equal. rewrite Hn. lia.
    + rewrite In_, Hn. lia.
    + intros idx Hidx. apply in_seq in Hidx.
      destruct (Nat.lt_ge_cases idx (i + BATCH_SIZE)) as [Hin|Hout].
      * destruct (Ha idx) as [r0 [m H]]; [apply in_seq; unfold BATCH_SIZE in *; lia|].
        exists r0, m. apply in_or_app. right. apply in_or_app. left. exact H.
      * destruct (Ia idx) as [r0 [m H]]; [apply in_seq; lia|].
        exists r0, m. apply in_or_app. right. apply in_or_app. right.
        apply in_or_app. right. exact H.
    + intros idx r0 m H. apply in_app_or in H. destruct H as [H|H].
      { apply in_map_iff in H. destruct H as [x [Hx _]]. discriminate Hx. }
      apply in_app_or in H. destruct H as [H|H].
      { rewrite Forall_forall in Hf. specialize (Hf _ H). cbn in Hf.
        destruct r0; [eauto|contradiction]. }
      apply in_app_or in H. destruct H as [H|H].
      { unfold pause in H. destruct (Nat.ltb _ _); [destruct H as [H|[]]; discriminate H|destruct H]. }
      exact (Io _ _ _ H).
    + intros ms H. apply in_app_or in H. destruct H as [H|H].
      { apply in_map_iff in H. destruct H as [x [Hx _]]. discriminate Hx. }
      apply in_app_or in H. destruct H as [H|H].
      { contradiction (Hw ms H). }
      apply in_app_or in H. destruct H as [H|H].
      { unfold pause in H. destruct (Nat.ltb _ _); [|destruct H].
        destruct H as [H|[]]. inversion H. reflexivity. }
      exact (Iw _ H).
Qed.


Lemma groups_of_nil {A} (f k : nat) : @groups_of A f k [] = [].
Proof. destruct f; reflexivity. Qed.

Lemma groups_of_step {A} (f k : nat) (l : list A) :
  l <> [] -> groups_of (S f) k l = firstn k l :: groups_of f k (skipn k l).
Proof. destruct l; [contradiction|reflexivity]. Qed.

Lemma firstn_seq_min (k start len : nat) :
  firstn k (seq start len) = seq start (Nat.min k len).
Proof.
  revert start len. induction k as [|k IH]; intros start [|len]; try reflexivity.
  cbn. f_equal. apply IH.
Qed.

Lemma run_batches_stretches : forall fuel i c,
  n - i <= fuel -> i < n ->
  stretches (fst (runs fuel pdfAttachments i c)) =
  groups_of (n - i) BATCH_SIZE (seq i (n - i)).
Proof.
  induction fuel as [|f IH]; intros i c Hfuel Hlt; [lia|].
  rewrite (run_batches_round f c Hlt). cbn [fst].
  destruct (settled_completion i c) as [Hf _].
  rewrite stretches_starts, (stretches_settled _ Hf).
  destruct (n - i) as [|m] eqn:Hm; [lia|].
  rewrite groups_of_step by discriminate.
  rewrite firstn_seq_min, skipn_seq.
  destruct (Nat.ltb (i + BATCH_SIZE) n) eqn:Hmore.
  - apply Nat.ltb_lt in Hmore. cbn [app stretches hd tl].
    rewrite app_nil_r. f_equal.
    rewrite IH by (unfold BATCH_SIZE in *; lia).
    replace (S m - BATCH_SIZE) with (n - (i + BATCH_SIZE)) by (unfold BATCH_SIZE; lia).
    apply groups_of_fuel; [unfold BATCH_SIZE; lia| |]; rewrite length_seq;
      unfold BATCH_SIZE; lia.
  - apply Nat.ltb_ge in Hmore. rewrite run_batches_done by exact Hmore.
    cbn [app fst stretches hd tl]. rewrite app_nil_r.
    replace (S m - BATCH_SIZE) with 0 by (unfold BATCH_SIZE in *; lia).
    cbn [seq]. rewrite groups_of_nil.
    reflexivity.
Qed.

Lemma started_in_starts (j : nat) (idxs : list nat) (pre mid : list sevent) :
  map Started idxs = pre ++ Started j :: mid -> In j idxs.
Proof.
  intros H. assert (Hin : In (Started j) (map Started idxs)).
  { rewrite H. apply in_or_app. right. left. reflexivity. }
  apply in_map_iff in Hin. destruct Hin as [x [Hx Hi]]. inversion Hx. subst. exact Hi.
Qed.

Lemma run_batches_order : forall fuel i c,
  n - i <= fuel ->
  let t := fst (runs fuel pdfAttachments i c) in
  (forall pre post j,
     t = pre ++ Started j :: post ->
     forall i' k, i <= i' -> i' < i + BATCH_SIZE * k -> i + BATCH_SIZE * k <= j ->
                  exists r0 m, In (Settled i' r0 m) pre) /\
  (forall pre post ms,
     t = pre ++ Waited ms :: post -> all_settled (started pre) pre).
Proof.
  induction fuel as [|f IH]; intros i c Hfuel.
  { rewrite run_batches_done by lia. cbn. split; intros pre post x H; destruct pre; discriminate H. }
  destruct (Nat.lt_ge_cases i n) as [Hlt|Hge].
  2:{ rewrite run_batches_done by lia. cbn.
      split; intros pre post x H; destruct pre; discriminate H. }
  rewrite (run_batches_round f c Hlt). cbn [fst].
  destruct (settled_completion i c) as [Hf [Hs [_ [_ [Ha Hw]]]]].
  set (sc := settles (completion (running_at i)) c) in *.
  assert (Hfuel' : n - (i + BATCH_SIZE) <= f) by (unfold BATCH_SIZE; lia).
  destruct (IH (i + BATCH_SIZE) (snd sc) Hfuel') as [IHs IHw].
  destruct (run_batches_counts (i + BATCH_SIZE) (snd sc) Hfuel') as [Rs _].
  set (rest := fst (runs f pdfAttachments (i + BATCH_SIZE) (snd sc))) in *.
  set (starts := map Started (seq i (Nat.min BATCH_SIZE (n - i)))).
  set (pause := if Nat.ltb (i + BATCH_SIZE) n then [Waited BATCH_DELAY_MS] else []).
  assert (Hstarts : all_settled (seq i (Nat.min BATCH_SIZE (n - i))) (starts ++ fst sc)).
  { intros x Hx. destruct (Ha x Hx) as [r0 [m H]]. exists r0, m.
    apply in_or_app. right. exact H. }
  assert (Hno_start : forall j, ~ In (Started j) (fst sc)).
  { intros j H. rewrite Forall_forall in Hf. exact (Hf _ H). }
  assert (Hpause_start : forall j, ~ In (Started j) pause).
  { intros j H. unfold pause in H. destruct (Nat.ltb _ _); [|exact H].
    destruct H as [H|[]]. discriminate H. }
  split.
  - intros pre post j H i' k Hi' Hk Hj.
    destruct (split_at _ _ _ _ _ H) as [[mid Hm]|[mid1 [Hp1 H1]]].
    { apply started_in_starts in Hm. apply in_seq in Hm. unfold BATCH_SIZE in *. lia. }
    destruct (split_at _ _ _ _ _ H1) as [[mid Hm]|[mid2 [Hp2 H2]]].
    { exfalso. apply (Hno_start j). rewrite Hm. apply in_or_app. right. left. reflexivity. }
    destruct (split_at _ _ _ _ _ H2) as [[mid Hm]|[mid3 [Hp3 H3]]].
    { exfalso. apply (Hpause_start j). rewrite Hm. apply in_or_app. right. left. reflexivity. }
    assert (Hjn : In j (seq (i + BATCH_SIZE) (n - (i + BATCH_SIZE)))).
    { rewrite <- Rs. fold rest. rewrite H3, started_app. apply in_or_app. right. left. reflexivity. }
    apply in_seq in Hjn.
    subst pre mid1 mid2.
    destruct (Nat.lt_ge_cases i' (i + BATCH_SIZE)) as [Hin|Hout].
    + destruct (Hstarts i') as [r0 [m Hx]]; [apply in_seq; unfold BATCH_SIZE in *; lia|].
      exists r0, m. rewrite !app_assoc. apply in_or_app. left. apply in_or_app. left.
      exact Hx.
    + destruct (IHs _ _ _ H3 i' (k - 1)) as [r0 [m Hx]]; try (unfold BATCH_SIZE in *; lia).
      exists r0, m. apply in_or_app. right. apply in_or_app. right. apply in_or_app. right.
      exact Hx.
  - intros pre post ms H.
    destruct (split_at _ _ _ _ _ H) as [[mid Hm]|[mid1 [Hp1 H1]]].
    { exfalso. assert (Hin : In (Waited ms) starts).
      { rewrite Hm. apply in_or_app. right. left. reflexivity. }
      apply in_map_iff in Hin. destruct Hin as [x [Hx _]]. discriminate Hx. }
    destruct (split_at _ _ _ _ _ H1) as [[mid Hm]|[mid2 [Hp2 H2]]].
    { exfalso. apply (Hw ms). rewrite Hm. apply in_or_app. right. left. reflexivity. }
    destruct (split_at _ _ _ _ _ H2) as [[mid Hm]|[mid3 [Hp3 H3]]].
    + assert (mid2 = []).
      { unfold pause in Hm. destruct (Nat.ltb _ _); destruct mid2 as [|x [|y l]];
          try reflexivity; discriminate Hm. }
      subst mid2 mid1 pre. rewrite app_nil_r.
      intros x Hx. rewrite started_app in Hx. unfold starts in Hx.
      rewrite started_starts, Hs, app_nil_r in Hx. exact (Hstarts x Hx).
    + subst pre mid1 mid2. intros x Hx.
      rewrite !started_app in Hx. unfold starts in Hx. rewrite started_starts, Hs in Hx.
      cbn [app] in Hx. apply in_app_or in Hx. destruct Hx as [Hx|Hx].
      * destruct (Hstarts x Hx) as [r0 [m Hy]]. exists r0, m.
        rewrite !app_assoc. apply in_or_app. left. apply in_or_app. left. exact Hy.
      * apply in_app_or in Hx. destruct Hx as [Hx|Hx].
        { exfalso. unfold pause in Hx. destruct (Nat.ltb _ _); exact Hx. }
        destruct (IHw _ _ _ H3 x Hx) as [r0 [m Hy]]. exists r0, m.
        apply in_or_app. right. apply in_or_app. right. apply in_or_app. right. exact Hy.
Qed.

Lemma in_started (i : nat) (t : list sevent) : In i (started t) -> In (Started i) t.
Proof.
  induction t as [|e t IH]; [intros []|].
  destruct e; cbn [started]; intros H.
  - destruct H as [H|H]; [left; subst; reflexivity|right; exact (IH H)].
  - right. exact (IH H).
  - right. exact (IH H).
Qed.

(** C7.  A failure inside a document's pipeline, wherever it is thrown,
    ends as a structured outcome: [processSinglePdf] always returns one, so
    every pipeline of every batch settles fulfilled, and every document of
    every batch is started and settled, whatever happened to the others. *)
Theorem failures_stay_inside_the_pipeline :
  (forall w p index st, exists o st',
     processSinglePdf marconePrompt createExtractionPrompt w p index st = (Ok o, st')) /\
  let trace := fst (process_batches marconePrompt createExtractionPrompt completion
                      pdfAttachments) in
  (forall idx r m, In (Settled idx r m) trace -> exists o, r = Ok o) /\
  (forall idx, idx < n ->
     In (Started idx) trace /\ exists o m, In (Settled idx (Ok o) m) trace).
Proof.
  split.
  { intros w p index st.
    destruct (processSinglePdf_from_returns marconePrompt createExtractionPrompt
                RETRY_ATTEMPTS w p index st) as [o [st' [H _]]].
    exists o, st'. exact H. }
  unfold process_batches.
  destruct (@run_batches_counts n 0 zero_counters) as [Hs [_ [_ [Ha [Ho _]]]]]; [lia|].
  rewrite Nat.sub_0_r in Hs, Ha. cbv zeta. split; [exact Ho|].
  intros idx Hidx. assert (Hin : In idx (seq 0 n)) by (apply in_seq; lia). split.
  - apply in_started. rewrite Hs. exact Hin.
  - destruct (Ha idx Hin) as [r [m H]]. destruct (Ho _ _ _ H) as [o Hr]. subst r.
    exists o, m. exact H.
Qed.

Lemma groups_of_concat {A} (k : nat) : forall (f : nat) (l : list A),
  0 < k -> List.length l <= f ->
  List.concat (groups_of f k l) = l /\
  Forall (fun g => 1 <= List.length g <= k) (groups_of f k l).
Proof.
  induction f as [|f IH]; intros l Hk Hl.
  - destruct l; [|cbn in Hl; lia]. split; [reflexivity|constructor].
  - destruct l as [|x l]; [split; [reflexivity|constructor]|].
    rewrite groups_of_step by discriminate.
    destruct (IH (skipn k (x :: l)) Hk) as [Hc Hf].
    { rewrite length_skipn. cbn [List.length] in *. lia. }
    split.
    + cbn [List.concat]. rewrite Hc. apply firstn_skipn.
    + constructor; [|exact Hf]. rewrite length_firstn. cbn [List.length]. lia.
Qed.

(** C6.  The loop takes the documents in consecutive groups of at most
    [BATCH_SIZE], in order ([3, 3, 1] for seven documents); between two
    waits it starts exactly one group; it waits [BATCH_DELAY_MS] between
    groups and not after the last; when it waits, and before it starts a
    document of a later group, every document started earlier has settled;
    and the counter shown as the documents settle runs from 1 to their
    number. *)
Theorem batches_run_one_after_another :
  let r := process_batches marconePrompt createExtractionPrompt completion pdfAttachments in
  let trace := fst r in
  (List.concat (groups BATCH_SIZE (seq 0 n)) = seq 0 n /\
   Forall (fun g => 1 <= List.length g <= BATCH_SIZE) (groups BATCH_SIZE (seq 0 n))) /\
  started trace = seq 0 n /\
  (0 < n -> stretches trace = groups BATCH_SIZE (seq 0 n)) /\
  (n = 7 -> stretches trace = [[0; 1; 2]; [3; 4; 5]; [6]]) /\
  (forall ms, In (Waited ms) trace -> ms = 5000%Z) /\
  (forall pre post ms, trace = pre ++ Waited ms :: post -> all_settled (started pre) pre) /\
  (forall pre post i j,
     trace = pre ++ Started j :: post ->
     i / BATCH_SIZE < j / BATCH_SIZE ->
     exists r0 m, In (Settled i r0 m) pre) /\
  progress trace = seq 1 n /\
  (snd r).(processedCount) = n.
Proof.
  cbv zeta. unfold process_batches.
  destruct (@run_batches_counts n 0 zero_counters) as [Hs [Hp [Hc [_ [_ Hw]]]]]; [lia|].
  destruct (@run_batches_order n 0 zero_counters) as [Hos How]; [lia|].
  rewrite Nat.sub_0_r in Hs, Hp, Hc.
  assert (Hst : 0 < n ->
                stretches (fst (runs n pdfAttachments 0 zero_counters)) =
                groups BATCH_SIZE (seq 0 n)).
  { intros Hn. rewrite run_batches_stretches by lia. rewrite Nat.sub_0_r.
    unfold groups. rewrite length_seq. reflexivity. }
  repeat split.
  - apply groups_of_concat; [unfold BATCH_SIZE; lia|reflexivity].
  - apply groups_of_concat; [unfold BATCH_SIZE; lia|reflexivity].
  - exact Hs.
  - exact Hst.
  - intros H7. rewrite Hst by lia. rewrite H7. reflexivity.
  - exact Hw.
  - exact How.
  - intros pre post i j H Hij.
    apply (Hos pre post j H i (j / BATCH_SIZE)); unfold BATCH_SIZE in *.
    + lia.
    + pose proof (Nat.div_mod_eq i 3). pose proof (Nat.mod_upper_bound i 3). lia.
    + pose proof (Nat.div_mod_eq j 3). lia.
  - exact Hp.
  - exact Hc.
Qed.

End BatchFacts.

(** ** The configuration refresh *)

Section ConfigFacts.

Variable toLowerCase : jsstring -> jsstring.

Local Abbreviation fetch := (fetchNetSuiteConfigs toLowerCase).
Local Abbreviation tick := (refresh_tick toLowerCase).
Local Abbreviation convert := (to_processor toLowerCase).

Lemma match_rules_in (fromAddress subj : jsstring) (rules : list processor) (p : processor) :
  match_rules toLowerCase fromAddress subj rules = Ok (Some p) -> In p rules.
Proof.
  induction rules as [|q rules IH]; [discriminate|].
  cbn [match_rules]. destruct (negb (enabled q)).
  - intros H. right. exact (IH H).
  - destruct (criteria_from q); try discriminate.
    destruct (ToString (criteria_subjectContains q)) as [needle|]; [|discriminate].
    cbn [rbind]. destruct (_ && _).
    + intros H. inversion H. left. reflexivity.
    + intros H. right. exact (IH H).
Qed.

Lemma fetch_replaces (cfg : netsuite_config) (reply : http_reply) (ps : list processor)
    (st : app_state) :
  cfg.(netsuite_enabled) = true -> truthy cfg.(restletUrl) = true ->
  carries_rules toLowerCase reply ps ->
  fetch cfg reply st = (Ok tt, {| EMAIL_PROCESSORS := ps; CONFIG_processors := ps |}).
Proof.
  intros He Hu [data [ok [c [cs [Hr [Hs [Ht [Hc Hm]]]]]]]]. subst reply.
  unfold fetchNetSuiteConfigs. rewrite He, Hu. cbn [negb orb].
  unfold try_catch, fetch_body, bind, lift. rewrite Hs, Ht. cbn [negb].
  rewrite Hc, Hm. unfold replace_processors.
  destruct (map_result log_processor ps); reflexivity.
Qed.

Lemma fetch_keeps (cfg : netsuite_config) (reply : http_reply) (st : app_state) :
  (forall ps, ~ carries_rules toLowerCase reply ps) ->
  fetch cfg reply st = (Ok tt, st).
Proof.
  intros Hno. unfold fetchNetSuiteConfigs.
  destruct (negb (netsuite_enabled cfg) || negb (truthy (restletUrl cfg))); [reflexivity|].
  unfold try_catch, fetch_body. destruct reply as [data|m]; [|reflexivity].
  unfold bind, lift.
  destruct (get data (js "success")) as [ok|] eqn:Hs; [|reflexivity].
  destruct (truthy ok) eqn:Ht; [|reflexivity]. cbn [negb].
  destruct (get data (js "configs")) as [configs|] eqn:Hc; [|reflexivity].
  destruct configs as [| | | |[|x s]|[|c cs]|]; try reflexivity.
  destruct (map_result convert (c :: cs)) as [ps|] eqn:Hm; [|reflexivity].
  exfalso. apply (Hno ps). exists data, ok, c, cs. auto.
Qed.


End ConfigFacts.

(** ** The theorems at concrete inputs *)

Lemma oracle_rate_limit_not_retried_witness :
  let run := run_sample None [Rejects (Some (js "429 rate_limit_error: slow down"))] in
  fst run = Ok (FailedItem (js "credit.pdf") (Some (js "429 rate_limit_error: slow down"))) /\
  events (snd run) = [CallSavePdf; CallOracle (sample_prompt (js "credit.pdf"))] /\
  sleeps (events (snd run)) = [] /\
  counts (snd run) = {| processedCount := 1; successCount := 0; failCount := 1 |}.
Proof.
  apply (@oracle_rate_limit_not_retried sample_prompt None
           (scripted [Rejects (Some (js "429 rate_limit_error: slow down"))])
           sample_pdf 0 zero_counters (Some (js "429 rate_limit_error: slow down")));
    reflexivity.
Defined.



Lemma retry_prompt_is_never_sent_witness :
  let run := run_sample None [Replies (response_with_bill seven_digits);
                              Replies (response_with_bill (js "66811026"))] in
  fst run = Ok (Succeeded (js "credit.pdf")) /\
  oracle_prompts (events (snd run)) = [sample_prompt (js "credit.pdf")] /\
  persisted (events (snd run)) =
    [extraction_with_bill seven_digits; extraction_with_bill seven_digits] /\
  (forall label, invoice_label (extraction_with_bill seven_digits) = Ok label ->
     events (snd run) =
       [CallSavePdf; CallOracle (sample_prompt (js "credit.pdf"));
        Warn (BillValidationFailed (report [sample_short_nf]));
        Warn (CouldNotParse (ReferenceError (js "createExtractionPrompt")));
        CallSaveResult (extraction_with_bill seven_digits);
        CallUpload (extraction_with_bill seven_digits)]).
Proof.
  apply (@retry_prompt_is_never_sent sample_prompt
           (scripted [Replies (response_with_bill seven_digits);
                      Replies (response_with_bill (js "66811026"))])
           sample_pdf 0 zero_counters (response_with_bill seven_digits)
           (extraction_with_bill seven_digits) (report [sample_short_nf])
           [invalid_record (0, sample_short_nf)]);
    reflexivity.
Defined.



Lemma last_first_arranges (l : list (nat * job)) : Permutation (last_first l) l.
Proof. apply Permutation_sym, Permutation_rev. Qed.

Lemma batches_run_one_after_another_witness :
  let r := process_batches sample_prompt None last_first seven_jobs in
  stretches (fst r) = [[0; 1; 2]; [3; 4; 5]; [6]] /\
  progress (fst r) = [1; 2; 3; 4; 5; 6; 7] /\
  (snd r).(processedCount) = 7.
Proof.
  pose proof (@batches_run_one_after_another sample_prompt None last_first
                last_first_arranges seven_jobs) as H.
  cbv zeta in H |- *.
  destruct H as [_ [_ [_ [H7 [_ [_ [_ [Hp Hc]]]]]]]].
  split; [exact (H7 eq_refl)|]. split; [exact Hp|exact Hc].
Defined.

Lemma failures_stay_inside_the_pipeline_witness :
  let trace := fst (process_batches sample_prompt None last_first
                      [sample_job; hopeless_job; sample_job; sample_job]) in
  (forall idx r m, In (Settled idx r m) trace -> exists o, r = Ok o) /\
  (forall idx, idx < 4 ->
     In (Started idx) trace /\ exists o m, In (Settled idx (Ok o) m) trace).
Proof.
  exact (proj2 (@failures_stay_inside_the_pipeline sample_prompt None last_first
                  last_first_arranges [sample_job; hopeless_job; sample_job; sample_job])).
Defined.

(** The failing document of that run is reported failed, and the three
    others, in both batches, succeed. *)
Example hopeless_job_is_isolated :
  let r := process_batches sample_prompt None last_first
             [sample_job; hopeless_job; sample_job; sample_job] in
  fst r =
    [Started 0; Started 1; Started 2;
     Settled 2 (Ok (Succeeded (js "credit.pdf"))) 1;
     Settled 1 (Ok (FailedItem (js "credit.pdf") (Some (js "EIO: i/o error, write")))) 2;
     Settled 0 (Ok (Succeeded (js "credit.pdf"))) 3;
     Waited 5000;
     Started 3;
     Settled 3 (Ok (Succeeded (js "credit.pdf"))) 4] /\
  snd r = {| processedCount := 4; successCount := 3; failCount := 1 |}.
Proof. split; vm_compute; reflexivity. Qed.


(** The start-up rule matches the Marcone email before the refresh and no
    rule matches it afterwards; a refresh that fails changes nothing. *)
Example old_rule_no_longer_matches :
  matchEmailProcessor ascii_lower startup marcone_email = Ok (Some marcone_credits) /\
  matchEmailProcessor ascii_lower
    (snd (fetchNetSuiteConfigs ascii_lower live other_vendor_reply startup)) marcone_email
  = Ok None /\
  snd (fetchNetSuiteConfigs ascii_lower live (RequestFails (Some (js "socket hang up")))
         startup) = startup /\
  snd (fetchNetSuiteConfigs ascii_lower live
         (Responds (VObj [(js "success", VBool true); (js "configs", VArr [])])) startup)
  = startup.
Proof. repeat split; vm_compute; reflexivity. Qed.

(** C3 (the code at the failing input).  The JSON text of an object
    followed by a note is refused by the parser of [email-poller.js], bare
    or fenced, and [parseJSONFromResponse] refuses it when fenced; the
    parser of the test scripts returns the object in all these cases. *)
Theorem poller_refuses_trailing_prose :
  JSON_parse (fenced_body json_text) = Ok json_object /\
  JSON_parse (fenced_body (fenced json_text)) = Ok json_object /\
  JSON_parse (fenced_body (json_text ++ trailing_note)) = Throw SyntaxError /\
  JSON_parse (fenced_body (json_text ++ bold_note)) = Throw SyntaxError /\
  JSON_parse (fenced_body (fenced (json_text ++ trailing_note))) = Throw SyntaxError /\
  JSON_parse (fenced_body (fenced (json_text ++ bold_note))) = Throw SyntaxError /\
  parseJSONFromResponse (json_text ++ trailing_note) = json_object /\
  parseJSONFromResponse (json_text ++ bold_note) = json_object /\
  parseJSONFromResponse (fenced (json_text ++ trailing_note)) = VNull /\
  parseJSONFromResponse (fenced (json_text ++ bold_note)) = VNull /\
  test_detailed_parse (json_text ++ trailing_note) = Ok json_object /\
  test_detailed_parse (json_text ++ bold_note) = Ok json_object /\
  test_detailed_parse (fenced (json_text ++ trailing_note)) = Ok json_object /\
  test_detailed_parse (fenced (json_text ++ bold_note)) = Ok json_object.
Proof. repeat split; vm_compute; reflexivity. Qed.

(** In the pipeline such a response leaves the document without data. *)
Example trailing_prose_loses_the_extraction :
  let run := run_sample None [Replies (json_text ++ trailing_note)] in
  fst run = Ok (Succeeded (js "credit.pdf")) /\
  persisted (events (snd run)) = [VNull].
Proof. split; vm_compute; reflexivity. Qed.

(** The retry of the [catch] block is reached by a failure of the disk whose
    message happens to contain the marker: it waits 10, 20 and 40 seconds,
    and gives up after the fourth attempt. *)
Example disk_failures_are_retried_three_times :
  let w := {| savePdf_rejects := fun _ => Some (Some (js "rate_limit_error"));
              oracle := fun _ => Rejects None;
              saveResult_rejects := fun _ => None |} in
  let run := processSinglePdf sample_prompt None w sample_pdf 0 (initial zero_counters) in
  fst run = Ok (FailedItem (js "credit.pdf") (Some (js "rate_limit_error"))) /\
  sleeps (events (snd run)) = [10000; 20000; 40000]%Z /\
  List.length (filter (fun e => match e with CallSavePdf => true | _ => false end)
                 (events (snd run))) = 4.
Proof. repeat split; vm_compute; reflexivity. Qed.

(** * More of [email-poller.js] *)

(** ** What the validator throws *)

Lemma value_elems_ind (P : value -> Prop) :
  P VUndefined -> P VNull -> (forall b, P (VBool b)) -> (forall m e, P (VNum m e)) ->
  (forall s, P (VStr s)) -> (forall l, Forall P l -> P (VArr l)) ->
  (forall fields, P (VObj fields)) ->
  forall v, P v.
Proof.
  intros H1 H2 H3 H4 H5 H6 H7. fix IH 1. intros [| |b|m e|s|l|fields];
    [exact H1|exact H2|apply H3|apply H4|apply H5| |apply H7].
  apply H6. induction l as [|x l IHl]; constructor; [apply IH|exact IHl].
Qed.

Lemma ToString_cons (x : value) (rest : list value) :
  ToString (VArr (x :: rest)) =
  (sx <- match x with VUndefined | VNull => Ok [] | _ => ToString x end ;;
   match rest with
   | [] => Ok sx
   | _ => sr <- ToString (VArr rest) ;; Ok (sx ++ js "," ++ sr)
   end).
Proof. reflexivity. Qed.

Lemma ToString_throws : forall (v : value) (e : error), ToString v = Throw e -> e = TypeError.
Proof.
  induction v as [| |b|m x|s|l IH|fields] using value_elems_ind; intros e;
    try (cbn [ToString]; discriminate).
  - destruct b; discriminate.
  - induction IH as [|x rest Hx _ IHl]; [discriminate|].
    rewrite ToString_cons.
    destruct (match x with VUndefined | VNull => Ok [] | _ => ToString x end) as [sx|e1] eqn:E.
    + cbn [rbind]. destruct rest as [|y rest']; [discriminate|].
      destruct (ToString (VArr (y :: rest'))) as [sr|e2] eqn:Hr; cbn [rbind]; [discriminate|].
      intros H. inversion H. subst e2. apply IHl. reflexivity.
    + cbn [rbind]. intros H. inversion H. subst e1.
      destruct x; try discriminate E; exact (Hx _ E).
  - cbn [ToString]. destruct (has_key _ fields); [|discriminate].
    intros H. inversion H. reflexivity.
Qed.

Lemma get_throws (v : value) (k : jsstring) (e : error) : get v k = Throw e -> e = TypeError.
Proof. destruct v; cbn [get]; try discriminate; intros H; inversion H; reflexivity. Qed.

Lemma bill_rejected_throws (b : value) (e : error) :
  bill_rejected b = Throw e -> e = TypeError.
Proof.
  unfold bill_rejected. destruct (negb (truthy b)); [discriminate|].
  destruct (get b (js "length")) as [len|e1] eqn:Hl; cbn [rbind].
  - destruct (not_eight len); [discriminate|].
    destruct (ToString b) as [s|e2] eqn:Hs; cbn [rbind]; [discriminate|].
    intros H. inversion H. subst e2. exact (ToString_throws _ Hs).
  - intros H. inversion H. subst e1. exact (get_throws _ _ Hl).
Qed.

Lemma collect_invalid_throws (items : list value) : forall i e,
  collect_invalid i items = Throw e -> e = TypeError.
Proof.
  induction items as [|item rest IH]; intros i e; cbn [collect_invalid]; [discriminate|].
  destruct (get item (js "originalBillNumber")) as [b|e1] eqn:Hb; cbn [rbind].
  2:{ intros H. inversion H. subst e1. exact (get_throws _ _ Hb). }
  destruct (bill_rejected b) as [bad|e2] eqn:Hr; cbn [rbind].
  2:{ intros H. inversion H. subst e2. exact (bill_rejected_throws _ Hr). }
  destruct bad; [|apply IH].
  destruct (get item (js "nardaNumber")) as [nd|e3] eqn:Hn; cbn [rbind].
  2:{ intros H. inversion H. subst e3. exact (get_throws _ _ Hn). }
  match goal with |- context [rbind ?r _] => destruct r as [len|e4] eqn:Hl end; cbn [rbind].
  2:{ intros H. inversion H. subst e4. destruct (truthy b); [|discriminate Hl].
      exact (get_throws _ _ Hl). }
  destruct (collect_invalid (S i) rest) as [more|e5] eqn:Hm; cbn [rbind]; [discriminate|].
  intros H. inversion H. subst e5. exact (IH _ _ Hm).
Qed.

Lemma collect_invalid_null (items : list value) : forall i,
  (In VNull items \/ In VUndefined items) -> collect_invalid i items = Throw TypeError.
Proof.
  induction items as [|item rest IH]; intros i Hin; [destruct Hin as [[]|[]]|].
  destruct (collect_invalid i (item :: rest)) as [l|e] eqn:E.
  2:{ rewrite (collect_invalid_throws _ _ E). reflexivity. }
  exfalso. cbn [collect_invalid] in E.
  assert (Hrest : In VNull rest \/ In VUndefined rest -> False).
  { intros H. specialize (IH (S i) H).
    destruct (get item (js "originalBillNumber")) as [b|]; [|discriminate E]. cbn [rbind] in E.
    destruct (bill_rejected b) as [[|]|]; cbn [rbind] in E; try discriminate E.
    - destruct (get item (js "nardaNumber")); [|discriminate E]. cbn [rbind] in E.
      match type of E with context [rbind ?r _] => destruct r end; [|discriminate E].
      cbn [rbind] in E. rewrite IH in E. discriminate E.
    - rewrite IH in E. discriminate E. }
  destruct Hin as [[H|H]|[H|H]]; try (apply Hrest; auto; fail); subst item; discriminate E.
Qed.

(** X1.  An extraction without line items passes: when [lineItems] is missing,
    is not a list or is the empty list (and for [null] or any other value
    that is not an object), the validator answers [valid: true]. *)
Theorem nothing_to_validate_is_valid (extractedData : value) :
  (forall items, field extractedData (js "lineItems") = VArr items -> items = []) ->
  validateBillNumbers extractedData = Ok Valid.
Proof.
  intros H. unfold validateBillNumbers. destruct (truthy extractedData) eqn:T; [|reflexivity].
  cbn [negb]. unfold field in H.
  destruct (get extractedData (js "lineItems")) as [l|e] eqn:Hl.
  - cbn [rbind]. destruct l as [| | | | |items|]; try reflexivity.
    rewrite (H items eq_refl). reflexivity.
  - destruct extractedData; try discriminate T; discriminate Hl.
Qed.

(** X2.  A line-items list with a [null] entry makes the validator throw a
    [TypeError] (it reads a property of the entry) instead of returning,
    wherever the entry stands and whatever the other entries are. *)
Theorem null_line_item_throws (fields : list (jsstring * value)) (items : list value) :
  lookup (js "lineItems") fields = Some (VArr items) ->
  In VNull items ->
  validateBillNumbers (VObj fields) = Throw TypeError.
Proof.
  intros Hl Hin. unfold validateBillNumbers. cbn [truthy negb get]. rewrite Hl. cbn [rbind].
  rewrite (@collect_invalid_null items 0) by (left; exact Hin). reflexivity.
Qed.

(** ** Routing rules *)
Section MatchFacts.

Variable toLowerCase : jsstring -> jsstring.
Variables fromAddress subj : jsstring.

Local Abbreviation look := (match_rules toLowerCase fromAddress subj).
Local Abbreviation skips := (passes_over toLowerCase fromAddress subj).

Lemma match_rules_skip (pre rest : list processor) :
  Forall skips pre -> look (pre ++ rest) = look rest.
Proof.
  induction 1 as [|q pre Hq _ IH]; [reflexivity|].
  cbn [app match_rules]. destruct Hq as [Hd|[f [needle [Hf [Hn Hm]]]]].
  - rewrite Hd. exact IH.
  - destruct (negb (enabled q)); [exact IH|].
    rewrite Hf, Hn. cbn [rbind]. rewrite Hm. exact IH.
Qed.

Lemma match_rules_outcome (rules : list processor) :
  match look rules with
  | Ok (Some p) =>
      exists pre post, rules = pre ++ p :: post /\ Forall skips pre /\
                       accepts toLowerCase fromAddress subj p
  | Ok None => Forall skips rules
  | Throw e =>
      exists pre q post, rules = pre ++ q :: post /\ Forall skips pre /\ unreadable q e
  end.
Proof.
  induction rules as [|q rules IH]; [constructor|].
  cbn [match_rules]. destruct (enabled q) eqn:He; cbn [negb].
  - destruct (criteria_from q) as [| | | |f| |] eqn:Hf;
      try (exists [], q, rules; split; [reflexivity|]; split; [constructor|];
           split; [exact He|]; left; split; [intros f0; rewrite Hf; discriminate|reflexivity]).
    destruct (ToString (criteria_subjectContains q)) as [needle|e] eqn:Hn; cbn [rbind].
    + destruct (includes fromAddress (toLowerCase f) && includes subj needle) eqn:Hm.
      * exists [], rules. split; [reflexivity|]. split; [constructor|].
        split; [exact He|]. exists f, needle. apply andb_prop in Hm. tauto.
      * assert (Hq : skips q) by (right; exists f, needle; auto).
        destruct (look rules) as [[p|]|e].
        -- destruct IH as [pre [post [H1 [H2 H3]]]]. exists (q :: pre), post.
           rewrite H1. split; [reflexivity|]. split; [constructor; assumption|exact H3].
        -- constructor; assumption.
        -- destruct IH as [pre [r [post [H1 [H2 H3]]]]]. exists (q :: pre), r, post.
           rewrite H1. split; [reflexivity|]. split; [constructor; assumption|exact H3].
    + exists [], q, rules. split; [reflexivity|]. split; [constructor|].
      split; [exact He|]. right. split; [exists f; rewrite Hf; reflexivity|exact Hn].
  - assert (Hq : skips q) by (left; exact He).
    destruct (look rules) as [[p|]|e].
    + destruct IH as [pre [post [H1 [H2 H3]]]]. exists (q :: pre), post.
      rewrite H1. split; [reflexivity|]. split; [constructor; assumption|exact H3].
    + constructor; assumption.
    + destruct IH as [pre [r [post [H1 [H2 H3]]]]]. exists (q :: pre), r, post.
      rewrite H1. split; [reflexivity|]. split; [constructor; assumption|exact H3].
Qed.

Lemma match_rules_accepts (p : processor) (post : list processor) :
  accepts toLowerCase fromAddress subj p -> look (p :: post) = Ok (Some p).
Proof.
  intros [He [f [needle [Hf [Hn [H1 H2]]]]]]. cbn [match_rules].
  rewrite He, Hf, Hn. cbn [negb rbind]. rewrite H1, H2. reflexivity.
Qed.

Lemma match_rules_unreadable (q : processor) (e : error) (post : list processor) :
  unreadable q e -> look (q :: post) = Throw e.
Proof.
  intros [He [[Hf Hte]|[[f Hf] Hn]]]; cbn [match_rules]; rewrite He; cbn [negb].
  - subst e. destruct (criteria_from q) as [| | | |f| |]; try reflexivity.
    exfalso. exact (Hf f eq_refl).
  - rewrite Hf, Hn. reflexivity.
Qed.

End MatchFacts.

(** X3.  [matchEmailProcessor] returns the first enabled rule, in the order of
    the list, whose sender and subject criteria the email meets; it returns
    [null] when every rule is disabled or declines; and it throws exactly
    when, before any match, it comes to an enabled rule whose criteria it
    cannot read.  Rules after the first match are not looked at. *)
Theorem first_matching_rule_wins (toLowerCase : jsstring -> jsstring)
    (st : app_state) (e : email) :
  let fromAddress :=
    or_else (option_map toLowerCase e.(from_text))
            (or_else (option_map toLowerCase e.(from_address)) []) in
  let subj := or_else e.(subject) [] in
  let rules := st.(CONFIG_processors) in
  (forall p,
     matchEmailProcessor toLowerCase st e = Ok (Some p) <->
     exists pre post, rules = pre ++ p :: post /\
       Forall (passes_over toLowerCase fromAddress subj) pre /\
       accepts toLowerCase fromAddress subj p) /\
  (matchEmailProcessor toLowerCase st e = Ok None <->
     Forall (passes_over toLowerCase fromAddress subj) rules) /\
  (forall err,
     matchEmailProcessor toLowerCase st e = Throw err <->
     exists pre q post, rules = pre ++ q :: post /\
       Forall (passes_over toLowerCase fromAddress subj) pre /\ unreadable q err).
Proof.
  cbv zeta. unfold matchEmailProcessor.
  set (fromAddress := or_else _ _). set (subj := or_else (subject e) []).
  pose proof (match_rules_outcome toLowerCase fromAddress subj (CONFIG_processors st)) as Hout.
  split; [|split].
  - intros p. split.
    + intros H. rewrite H in Hout. exact Hout.
    + intros [pre [post [H1 [H2 H3]]]]. rewrite H1.
      rewrite (match_rules_skip _ H2). apply match_rules_accepts. exact H3.
  - split.
    + intros H. rewrite H in Hout. exact Hout.
    + intros H. rewrite <- (app_nil_r (CONFIG_processors st)).
      rewrite (match_rules_skip _ H). reflexivity.
  - intros err. split.
    + intros H. rewrite H in Hout. exact Hout.
    + intros [pre [q [post [H1 [H2 H3]]]]]. rewrite H1.
      rewrite (match_rules_skip _ H2). apply match_rules_unreadable. exact H3.
Qed.
Section RuleFacts.

Variable toLowerCase : jsstring -> jsstring.

Lemma replace_runs_chars (s : jsstring) : forall in_run,
  forallb is_name_char (replace_runs in_run s) = true.
Proof.
  induction s as [|c s IH]; intros in_run; [reflexivity|].
  cbn [replace_runs]. destruct (is_lower_alnum c) eqn:Hc.
  - cbn [forallb]. unfold is_name_char at 1. rewrite Hc. cbn [orb andb]. apply IH.
  - destruct in_run; [apply IH|]. cbn [forallb]. rewrite IH. reflexivity.
Qed.

Lemma replace_runs_head (s : jsstring) :
  match replace_runs true s with
  | c :: _ => N.eqb c 95 = false
  | [] => True
  end.
Proof.
  induction s as [|c s IH]; [exact I|].
  cbn [replace_runs]. destruct (is_lower_alnum c) eqn:Hc; [|exact IH].
  destruct (N.eqb c 95) eqn:E; [|reflexivity].
  apply N.eqb_eq in E. subst c. discriminate Hc.
Qed.

Lemma replace_runs_single (s : jsstring) : forall in_run,
  single_underscores (replace_runs in_run s) = true.
Proof.
  induction s as [|c s IH]; intros in_run; [reflexivity|].
  cbn [replace_runs]. destruct (is_lower_alnum c) eqn:Hc.
  - specialize (IH false). cbn [single_underscores].
    destruct (replace_runs false s) as [|b r] eqn:E; [reflexivity|].
    rewrite IH. destruct (N.eqb c 95) eqn:E1; [|reflexivity].
    apply N.eqb_eq in E1. subst c. discriminate Hc.
  - destruct in_run; [apply IH|].
    pose proof (replace_runs_head s) as Hh. specialize (IH true).
    cbn [single_underscores].
    destruct (replace_runs true s) as [|b r] eqn:E; [reflexivity|].
    rewrite Hh, IH. reflexivity.
Qed.

(** X4.  A rule made from an entry of the response is enabled, has a prompt
    (the entry's own, or [marcone]), and is named by lower-case letters,
    digits and single underscores only, whatever the display name was; its
    criteria and folders are the entry's fields as they came, missing ones
    included. *)
Theorem refreshed_rule_shape (config : value) (p : processor) :
  to_processor toLowerCase config = Ok p ->
  p.(enabled) = true /\
  truthy p.(claudePrompt) = true /\
  forallb is_name_char p.(name) = true /\
  single_underscores p.(name) = true /\
  p.(criteria_from) = field config (js "emailFrom") /\
  p.(criteria_subjectContains) = field config (js "emailSubjectContains") /\
  p.(pdfFolderId) = field config (js "pdfFolderId") /\
  p.(jsonFolderId) = field config (js "jsonFolderId").
Proof.
  unfold to_processor, field.
  destruct (get config (js "displayName")) as [d|] eqn:Hd; [|discriminate]. cbn [rbind].
  destruct d as [| | | |s| |]; try discriminate.
  destruct (get config (js "emailFrom")) as [v1|]; [|discriminate]. cbn [rbind].
  destruct (get config (js "emailSubjectContains")) as [v2|]; [|discriminate]. cbn [rbind].
  destruct (get config (js "pdfFolderId")) as [v3|]; [|discriminate]. cbn [rbind].
  destruct (get config (js "jsonFolderId")) as [v4|]; [|discriminate]. cbn [rbind].
  destruct (get config (js "claudePrompt")) as [v5|]; [|discriminate]. cbn [rbind].
  destruct (get config (js "id")) as [v6|]; [|discriminate]. cbn [rbind].
  destruct (get config (js "vendor")) as [v7|]; [|discriminate]. cbn [rbind].
  destruct (get config (js "transactionType")) as [v8|]; [|discriminate]. cbn [rbind].
  intros H. inversion H. subst p. clear H. cbn [enabled claudePrompt name criteria_from
    criteria_subjectContains pdfFolderId jsonFolderId].
  split; [reflexivity|]. split.
  { destruct (truthy v5) eqn:T; [exact T|reflexivity]. }
  split; [apply replace_runs_chars|]. split; [apply replace_runs_single|].
  repeat split.
Qed.

Lemma to_processor_sender (config : value) (p : processor) :
  to_processor toLowerCase config = Ok p ->
  p.(enabled) = true /\ p.(criteria_from) = field config (js "emailFrom").
Proof.
  unfold to_processor, field.
  destruct (get config (js "displayName")) as [d|] eqn:Hd; [|discriminate]. cbn [rbind].
  destruct d as [| | | |s| |]; try discriminate.
  destruct (get config (js "emailFrom")) as [v1|]; [|discriminate]. cbn [rbind].
  destruct (get config (js "emailSubjectContains")) as [v2|]; [|discriminate]. cbn [rbind].
  destruct (get config (js "pdfFolderId")) as [v3|]; [|discriminate]. cbn [rbind].
  destruct (get config (js "jsonFolderId")) as [v4|]; [|discriminate]. cbn [rbind].
  destruct (get config (js "claudePrompt")) as [v5|]; [|discriminate]. cbn [rbind].
  destruct (get config (js "id")) as [v6|]; [|discriminate]. cbn [rbind].
  destruct (get config (js "vendor")) as [v7|]; [|discriminate]. cbn [rbind].
  destruct (get config (js "transactionType")) as [v8|]; [|discriminate]. cbn [rbind].
  intros H. inversion H. split; reflexivity.
Qed.

(** X5.  An entry of the response without [emailFrom] is accepted by the
    refresh; the rule made from it has no sender to compare with, and
    matching throws on it.  When it is the first entry, every email makes
    [matchEmailProcessor] throw a [TypeError] from then on. *)
Theorem rule_without_sender_breaks_matching (cfg : netsuite_config) (data ok c : value)
    (cs : list value) (ps : list processor) (st : app_state) (e : email) :
  cfg.(netsuite_enabled) = true -> truthy cfg.(restletUrl) = true ->
  get data (js "success") = Ok ok -> truthy ok = true ->
  get data (js "configs") = Ok (VArr (c :: cs)) ->
  map_result (to_processor toLowerCase) (c :: cs) = Ok ps ->
  (forall s, field c (js "emailFrom") <> VStr s) ->
  let st' := snd (fetchNetSuiteConfigs toLowerCase cfg (Responds data) st) in
  st'.(CONFIG_processors) = ps /\
  matchEmailProcessor toLowerCase st' e = Throw TypeError.
Proof.
  intros He Hu Hs Ht Hc Hm Hf. cbv zeta.
  rewrite (@fetch_replaces toLowerCase cfg (Responds data) ps st He Hu).
  2:{ exists data, ok, c, cs. auto. }
  cbn [snd CONFIG_processors]. split; [reflexivity|].
  cbn [map_result] in Hm.
  destruct (to_processor toLowerCase c) as [p|] eqn:Hp; [|discriminate]. cbn [rbind] in Hm.
  destruct (map_result (to_processor toLowerCase) cs) as [rest|]; [|discriminate].
  cbn [rbind] in Hm. inversion Hm. subst ps. clear Hm.
  destruct (to_processor_sender _ Hp) as [Hen Hcf].
  unfold matchEmailProcessor. cbn [CONFIG_processors match_rules]. rewrite Hen. cbn [negb].
  rewrite Hcf. destruct (field c (js "emailFrom")) as [| | | |s| |] eqn:E; try reflexivity.
  exfalso. exact (Hf s eq_refl).
Qed.

End RuleFacts.

(** ** More on the per-document pipeline *)

Section MoreRuns.

Variable marconePrompt : jsstring -> jsstring.
Variable createExtractionPrompt : option (jsstring -> jsstring).

Lemma throwing_truthy (d : value) (e : error) :
  validateBillNumbers d = Throw e -> truthy d = true.
Proof.
  unfold validateBillNumbers. destruct (truthy d); [reflexivity|discriminate].
Qed.

(** X6.  When the validator itself throws on the extraction (a [null] line
    item, say), the exception is caught with the parse errors: the data, not
    validated, is saved and uploaded as it is, no corrective request is
    made, and the document counts as succeeded. *)
Theorem unvalidated_data_is_persisted
    (w : world) (p : pdf) (index : nat) (c : counters) (analysis : jsstring)
    (d : value) (e : error) :
  w.(savePdf_rejects) 0 = None ->
  w.(oracle) 0 = Replies analysis ->
  JSON_parse (fenced_body analysis) = Ok d ->
  validateBillNumbers d = Throw e ->
  w.(saveResult_rejects) 0 = None ->
  let run := processSinglePdf marconePrompt createExtractionPrompt w p index (initial c) in
  fst run = Ok (Succeeded p.(filename)) /\
  oracle_prompts (events (snd run)) = [marconePrompt p.(filename)] /\
  persisted (events (snd run)) = [d; d] /\
  (exists e', events (snd run) =
     [CallSavePdf; CallOracle (marconePrompt p.(filename)); Warn (CouldNotParse e');
      CallSaveResult d; CallUpload d]) /\
  counts (snd run) = bump true c.
Proof.
  intros Hs Ho Hp Hv Hr.
  pose proof (throwing_truthy _ Hv) as Td.
  unfold processSinglePdf. rewrite processSinglePdf_from_unfold.
  unfold try_catch, attempt, bind, savePdf, processPdfWithClaude, initial.
  state_simpl. rewrite Hs. state_simpl. rewrite Ho. state_simpl.
  unfold parse_response. rewrite Hp. unfold try_catch, bind, lift.
  destruct (invoice_label d) as [label|e0] eqn:L.
  - unfold validate_and_retry, bind, lift. rewrite Hv.
    unfold emit, ret, saveResult. state_simpl. rewrite Hr. rewrite Td. cbn.
    repeat split; try reflexivity. exists e. reflexivity.
  - unfold emit, ret, saveResult. state_simpl. rewrite Hr. rewrite Td. cbn.
    repeat split; try reflexivity. exists e0. reflexivity.
Qed.

End MoreRuns.

Section Cost.

Variable marconePrompt : jsstring -> jsstring.
Variable createExtractionPrompt : option (jsstring -> jsstring).
Variable cnt : event -> nat.
Variables ko ksr kup ksl : nat.
Hypothesis warn_weight : forall w, cnt (Warn w) = 0.
Hypothesis oracle_weight : forall q, cnt (CallOracle q) <= ko.
Hypothesis saveResult_weight : forall d, cnt (CallSaveResult d) <= ksr.
Hypothesis upload_weight : forall d, cnt (CallUpload d) <= kup.
Hypothesis sleep_weight : forall ms, cnt (Sleep ms) <= ksl.

Lemma adds_warn (w : warning) : adds cnt 0 (emit (Warn w)).
Proof. rewrite <- (warn_weight w). apply adds_emit. Qed.

Lemma oracle_call_weight (w : world) (p : pdf) (custom : option jsstring) :
  adds cnt ko (processPdfWithClaude marconePrompt w p custom).
Proof.
  intros st. unfold processPdfWithClaude. eexists [CallOracle _].
  destruct (oracle w _); (split; [reflexivity|]); unfold tally; cbn;
    match goal with |- cnt (CallOracle ?x) + 0 <= ko => specialize (oracle_weight x); lia end.
Qed.

(** The corrective request is the only thing the validation step can add,
    and only when the helper is bound. *)
Lemma validate_and_retry_weight (w : world) (p : pdf) (retryCount : nat) (d : value) :
  adds cnt (match createExtractionPrompt with Some _ => ko | None => 0 end)
    (validate_and_retry marconePrompt createExtractionPrompt w p retryCount d).
Proof.
  unfold validate_and_retry.
  apply (adds_bind (k1 := 0)); [apply adds_lift|]. intros v.
  destruct (negb (valid v) && Nat.eqb retryCount 0).
  - apply (adds_bind (k1 := 0)); [apply adds_warn|]. intros _.
    unfold call_createExtractionPrompt. destruct createExtractionPrompt as [f|].
    + apply (adds_bind (k1 := 0) (k2 := ko)); [apply adds_ret|].
      intros ins. replace ko with (ko + 0) by lia. apply adds_bind.
      { apply oracle_call_weight. }
      intros [a|m]; [|apply adds_ret].
      apply (adds_bind (k1 := 0) (k2 := 0)); [apply adds_lift|]. intros d2.
      apply (adds_bind (k1 := 0) (k2 := 0)); [apply adds_lift|]. intros v2.
      destruct (valid v2); [apply adds_ret|].
      apply (adds_bind (k1 := 0) (k2 := 0)); [apply adds_warn|]. intros _. apply adds_ret.
    + intros st. exists []. split; [symmetry; apply app_nil_r|reflexivity].
  - apply (adds_weaken (k := 0)); [lia|].
    destruct (negb (valid v)); [|apply adds_ret].
    apply (adds_bind (k1 := 0) (k2 := 0)); [apply adds_warn|]. intros _. apply adds_ret.
Qed.

Local Abbreviation kv := (match createExtractionPrompt with Some _ => ko | None => 0 end).

Lemma parse_response_weight (w : world) (p : pdf) (retryCount : nat) (analysis : jsstring) :
  adds cnt kv (parse_response marconePrompt createExtractionPrompt w p retryCount analysis).
Proof.
  unfold parse_response. destruct (JSON_parse _) as [d|e].
  - replace kv with (kv + 0) by lia. apply adds_try_catch.
    + apply (adds_bind (k1 := 0)); [apply adds_lift|]. intros _.
      apply validate_and_retry_weight.
    + intros e. apply (adds_bind (k1 := 0) (k2 := 0)); [apply adds_warn|].
      intros _. apply adds_ret.
  - apply (adds_weaken (k := 0)); [lia|].
    apply (adds_bind (k1 := 0) (k2 := 0)); [apply adds_warn|]. intros _. apply adds_ret.
Qed.

(** One run of the outer [try]. *)
Lemma attempt_weight (w : world) (p : pdf) (retryCount : nat) :
  adds cnt (cnt CallSavePdf + (ko + (kv + (ksr + kup))))
    (attempt marconePrompt createExtractionPrompt w p retryCount).
Proof.
  unfold attempt.
  apply adds_bind; [apply adds_savePdf|]. intros _.
  apply adds_bind; [apply oracle_call_weight|]. intros [a|m].
  - apply adds_bind; [apply parse_response_weight|]. intros d.
    apply adds_bind.
    { apply (adds_weaken (k := cnt (CallSaveResult d))); [apply saveResult_weight|].
      apply adds_saveResult. }
    intros _. replace kup with (kup + 0) by lia. apply adds_bind.
    { destruct (truthy d).
      - apply (adds_weaken (k := cnt (CallUpload d))); [apply upload_weight|].
        apply adds_emit.
      - apply (adds_weaken (k := 0)); [lia|apply adds_ret]. }
    intros _. apply (adds_bind (k1 := 0) (k2 := 0)); [apply adds_count_success|].
    intros _. apply adds_ret.
  - apply (adds_weaken (k := 0)); [lia|].
    apply (adds_bind (k1 := 0) (k2 := 0)); [apply adds_count_failure|].
    intros _. apply adds_ret.
Qed.

Local Abbreviation ka := (cnt CallSavePdf + (ko + (kv + (ksr + kup)))).

(** A document: one attempt more than the retries left, and a pause before
    each retry. *)
Lemma processSinglePdf_from_weight (w : world) (p : pdf) (index : nat) : forall budget,
  adds cnt (S budget * ka + budget * ksl)
    (processSinglePdf_from marconePrompt createExtractionPrompt budget w p index).
Proof.
  assert (Hfail : forall e, adds cnt 0 (report_failure p e)).
  { intros e. apply (adds_bind (k1 := 0) (k2 := 0)); [apply adds_count_failure|].
    intros _. apply adds_ret. }
  induction budget as [|b IH]; rewrite processSinglePdf_from_unfold.
  - replace (1 * ka + 0 * ksl) with (ka + 0) by lia.
    apply adds_try_catch; [apply attempt_weight|].
    intros e. destruct (_ && _); apply Hfail.
  - replace (S (S b) * ka + S b * ksl) with (ka + (ksl + (S b * ka + b * ksl))) by lia.
    apply adds_try_catch; [apply attempt_weight|].
    intros e. destruct (_ && _); [|apply (adds_weaken (k := 0)); [lia|apply Hfail]].
    apply (adds_bind (k1 := 0)); [apply adds_warn|]. intros _.
    apply adds_bind.
    { match goal with |- adds _ _ (emit (Sleep ?ms)) =>
        apply (adds_weaken (k := cnt (Sleep ms))); [apply sleep_weight|apply adds_emit] end. }
    intros _. exact IH.
Qed.

End Cost.

Lemma sleeps_app (a b : list event) : sleeps (a ++ b) = sleeps a ++ sleeps b.
Proof.
  induction a as [|e a IH]; [reflexivity|].
  destruct e; cbn [app sleeps]; rewrite IH; reflexivity.
Qed.

Lemma tally_cons (cnt : event -> nat) (e : event) (evs : list event) :
  tally cnt (e :: evs) = cnt e + tally cnt evs.
Proof. reflexivity. Qed.

Lemma sleeps_quiet (evs : list event) : tally slept evs <= 0 -> sleeps evs = [].
Proof.
  induction evs as [|e evs IH]; [reflexivity|].
  rewrite tally_cons. intros H.
  destruct e; cbn [slept sleeps] in *; try (apply IH; lia). lia.
Qed.

Section DocumentCost.

Variable marconePrompt : jsstring -> jsstring.
Variable createExtractionPrompt : option (jsstring -> jsstring).

Lemma attempt_never_sleeps (w : world) (p : pdf) (retryCount : nat) :
  adds slept 0 (attempt marconePrompt createExtractionPrompt w p retryCount).
Proof.
  apply (adds_weaken (k := slept CallSavePdf +
           (0 + (match createExtractionPrompt with Some _ => 0 | None => 0 end + (0 + 0)))));
    [destruct createExtractionPrompt; cbn; lia|].
  apply attempt_weight; intros; cbn; lia.
Qed.

Lemma processSinglePdf_from_asks (w : world) (p : pdf) (index : nat) :
  forall budget, budget <= RETRY_ATTEMPTS ->
  adds oracle_called (S budget + (if Nat.eqb budget RETRY_ATTEMPTS then 1 else 0))
    (processSinglePdf_from marconePrompt createExtractionPrompt budget w p index).
Proof.
  assert (Hfail : forall e, adds oracle_called 0 (report_failure p e)).
  { intros e. apply (adds_bind (k1 := 0) (k2 := 0)); [apply adds_count_failure|].
    intros _. apply adds_ret. }
  induction budget as [|b IH]; intros Hb; rewrite processSinglePdf_from_unfold.
  - apply (adds_weaken (k := (1 + (if Nat.eqb (RETRY_ATTEMPTS - 0) 0 then 1 else 0)) + 0));
      [cbn; lia|].
    apply adds_try_catch; [apply attempt_asks_at_most_twice|].
    intros e. destruct (_ && _); apply Hfail.
  - assert (Hlt : Nat.eqb b RETRY_ATTEMPTS = false) by (apply Nat.eqb_neq; lia).
    specialize (IH ltac:(lia)). rewrite Hlt in IH.
    replace (S (S b) + (if Nat.eqb (S b) RETRY_ATTEMPTS then 1 else 0))
      with ((1 + (if Nat.eqb (RETRY_ATTEMPTS - S b) 0 then 1 else 0)) + (S b + 0)).
    2:{ unfold RETRY_ATTEMPTS in *.
        destruct b as [|[|[|b]]]; cbn; try reflexivity. lia. }
    apply adds_try_catch; [apply attempt_asks_at_most_twice|].
    intros e. destruct (_ && _); [|apply (adds_weaken (k := 0)); [lia|apply Hfail]].
    apply (adds_bind (k1 := 0)); [apply (adds_emit oracle_called)|]. intros _.
    apply (adds_bind (k1 := 0)); [apply (adds_emit oracle_called)|]. intros _.
    exact IH.
Qed.

Lemma processSinglePdf_from_sleeps (w : world) (p : pdf) (index : nat) :
  forall budget st, budget <= RETRY_ATTEMPTS ->
  exists evs k,
    events (snd (processSinglePdf_from marconePrompt createExtractionPrompt budget w p index st))
    = events st ++ evs /\
    k <= budget /\
    sleeps evs = firstn k (backoff (RETRY_ATTEMPTS - budget) budget).
Proof.
  induction budget as [|b IH]; intros st Hb; rewrite processSinglePdf_from_unfold;
    unfold try_catch.
  - destruct (attempt_never_sleeps w p (RETRY_ATTEMPTS - 0) st) as [evs [He Hq]].
    apply sleeps_quiet in Hq.
    destruct (attempt marconePrompt createExtractionPrompt w p _ st) as [[o|e] st'];
      cbn [snd] in He.
    + exists evs, 0. split; [exact He|]. split; [lia|exact Hq].
    + exists evs, 0. split; [|split; [lia|exact Hq]].
      destruct (_ && _); cbn; exact He.
  - destruct (attempt_never_sleeps w p (RETRY_ATTEMPTS - S b) st) as [evs [He Hq]].
    apply sleeps_quiet in Hq.
    destruct (attempt marconePrompt createExtractionPrompt w p _ st) as [[o|e] st'];
      cbn [snd] in He.
    + exists evs, 0. split; [exact He|]. split; [lia|exact Hq].
    + destruct (is_rate_limit e && _).
      * unfold bind, emit. cbn [fst snd].
        match goal with |- context [processSinglePdf_from _ _ b w p index ?s] =>
          destruct (IH s ltac:(lia)) as [evs2 [k [H2 [Hk Hs2]]]]; rewrite H2 end.
        cbn [events]. rewrite He.
        eexists (evs ++ [Warn _; Sleep _] ++ evs2), (S k).
        split; [rewrite <- !app_assoc; reflexivity|]. split; [lia|].
        rewrite !sleeps_app, Hq, Hs2. cbn [app sleeps].
        unfold backoff. cbn [seq map firstn]. f_equal.
        replace (S (RETRY_ATTEMPTS - S b)) with (RETRY_ATTEMPTS - b)
          by (unfold RETRY_ATTEMPTS in *; lia).
        reflexivity.
      * exists evs, 0. split; [|split; [lia|exact Hq]]. cbn. exact He.
Qed.

(** X7.  Whatever the collaborators do, one document costs at most four runs of
    the pipeline: [savePdf] and [saveResult] are called at most four times
    each, the oracle is asked at most five times (four while the helper of
    the corrective prompt is unbound), and the pauses are the first [k] of
    10, 20 and 40 seconds. *)
Theorem document_cost_is_bounded (w : world) (p : pdf) (index : nat) (c : counters) :
  let evs := events (snd (processSinglePdf marconePrompt createExtractionPrompt w p index
                            (initial c))) in
  tally savePdf_called evs <= 4 /\
  tally saveResult_called evs <= 4 /\
  tally oracle_called evs <= 5 /\
  (createExtractionPrompt = None -> tally oracle_called evs <= 4) /\
  exists k, k <= 3 /\ sleeps evs = firstn k [10000; 20000; 40000]%Z.
Proof.
  cbv zeta. unfold processSinglePdf. repeat split.
  - destruct (@processSinglePdf_from_weight marconePrompt createExtractionPrompt
                savePdf_called 0 0 0 0) with (w := w) (p := p) (index := index)
              (budget := RETRY_ATTEMPTS) (st := initial c) as [evs [He Ht]];
      try (intros; cbn; lia).
    rewrite He. cbn [initial events app].
    destruct createExtractionPrompt; cbn in Ht; lia.
  - destruct (@processSinglePdf_from_weight marconePrompt createExtractionPrompt
                saveResult_called 0 1 0 0) with (w := w) (p := p) (index := index)
              (budget := RETRY_ATTEMPTS) (st := initial c) as [evs [He Ht]];
      try (intros; cbn; lia).
    rewrite He. cbn [initial events app].
    destruct createExtractionPrompt; cbn in Ht; lia.
  - destruct (@processSinglePdf_from_asks w p index RETRY_ATTEMPTS (le_n _) (initial c))
      as [evs [He Ht]].
    rewrite He. cbn [initial events app]. cbn in Ht. lia.
  - intros Hnone.
    destruct (@processSinglePdf_from_weight marconePrompt createExtractionPrompt
                oracle_called 1 0 0 0) with (w := w) (p := p) (index := index)
              (budget := RETRY_ATTEMPTS) (st := initial c) as [evs [He Ht]];
      try (intros; cbn; lia).
    rewrite He. cbn [initial events app]. rewrite Hnone in Ht. cbn in Ht. lia.
  - destruct (@processSinglePdf_from_sleeps w p index RETRY_ATTEMPTS (initial c) (le_n _))
      as [evs [k [He [Hk Hs]]]].
    exists k. split; [exact Hk|]. rewrite He. cbn [initial events app]. exact Hs.
Qed.

End DocumentCost.
Lemma uploads_app (a b : list event) : uploads (a ++ b) = uploads a ++ uploads b.
Proof.
  induction a as [|e a IH]; [reflexivity|].
  destruct e; cbn [app uploads]; rewrite IH; reflexivity.
Qed.

Lemma uploads_quiet (evs : list event) : tally upload_called evs <= 0 -> uploads evs = [].
Proof.
  induction evs as [|e evs IH]; [reflexivity|].
  rewrite tally_cons. intros H.
  destruct e; cbn [upload_called uploads] in *; try (apply IH; lia). lia.
Qed.

Section Uploads.

Variable marconePrompt : jsstring -> jsstring.
Variable createExtractionPrompt : option (jsstring -> jsstring).

Lemma attempt_uploads (w : world) (p : pdf) (retryCount : nat) (st : pstate) :
  match attempt marconePrompt createExtractionPrompt w p retryCount st with
  | (Ok (Succeeded _), st') =>
      exists pre d, events st' = events st ++ pre ++ closing d /\ uploads pre = []
  | (_, st') => exists evs, events st' = events st ++ evs /\ uploads evs = []
  end.
Proof.
  assert (Hup : forall q, upload_called (CallOracle q) <= 0) by (intros; cbn; lia).
  assert (Hw : forall x, upload_called (Warn x) = 0) by reflexivity.
  unfold attempt, bind.
  destruct (adds_savePdf upload_called w st) as [e1 [H1 T1]].
  destruct (savePdf w st) as [[[]|x1] s1]; cbn [snd] in H1.
  2:{ exists e1. split; [exact H1|apply uploads_quiet; exact T1]. }
  destruct (@oracle_call_weight marconePrompt upload_called 0 Hup w p None s1) as [e2 [H2 T2]].
  destruct (processPdfWithClaude marconePrompt w p None s1) as [[[a|m]|x2] s2]; cbn [snd] in H2.
  3:{ exists (e1 ++ e2). rewrite H2, H1, app_assoc. split; [reflexivity|].
      rewrite uploads_app, (uploads_quiet _ T1), (uploads_quiet _ T2). reflexivity. }
  2:{ cbn. exists (e1 ++ e2). rewrite H2, H1, app_assoc. split; [reflexivity|].
      rewrite uploads_app, (uploads_quiet _ T1), (uploads_quiet _ T2). reflexivity. }
  destruct (@parse_response_weight marconePrompt createExtractionPrompt upload_called 0 Hw Hup
              w p retryCount a s2) as [e3 [H3 T3]].
  assert (T3' : tally upload_called e3 <= 0) by (destruct createExtractionPrompt; exact T3).
  destruct (parse_response_returns marconePrompt createExtractionPrompt w p retryCount a s2)
    as [d Hd].
  destruct (parse_response marconePrompt createExtractionPrompt w p retryCount a s2)
    as [r3 s3]. cbn [fst snd] in Hd, H3. subst r3.
  assert (Hpre : uploads (e1 ++ e2 ++ e3) = []).
  { rewrite !uploads_app, (uploads_quiet _ T1), (uploads_quiet _ T2), (uploads_quiet _ T3').
    reflexivity. }
  unfold saveResult. destruct (saveResult_rejects w _).
  - eexists (e1 ++ e2 ++ e3 ++ [CallSaveResult d]). cbn [events].
    rewrite H3, H2, H1, <- !app_assoc. split; [reflexivity|].
    rewrite !app_assoc, uploads_app, <- !app_assoc, Hpre. reflexivity.
  - unfold uploadToNetSuite, emit, ret, count_success, closing.
    destruct (truthy d) eqn:T; cbn [events fst snd]; exists (e1 ++ e2 ++ e3), d;
      (split; [|exact Hpre]); rewrite T, H3, H2, H1, <- !app_assoc; reflexivity.
Qed.

Lemma processSinglePdf_from_uploads (w : world) (p : pdf) (index : nat) :
  forall budget st,
  match processSinglePdf_from marconePrompt createExtractionPrompt budget w p index st with
  | (Ok (Succeeded _), st') =>
      exists pre d, events st' = events st ++ pre ++ closing d /\ uploads pre = []
  | (_, st') => exists evs, events st' = events st ++ evs /\ uploads evs = []
  end.
Proof.
  induction budget as [|b IH]; intros st; rewrite processSinglePdf_from_unfold;
    unfold try_catch.
  - pose proof (attempt_uploads w p (RETRY_ATTEMPTS - 0) st) as HA.
    destruct (attempt marconePrompt createExtractionPrompt w p (RETRY_ATTEMPTS - 0) st)
      as [[o|e] st']; [exact HA|].
    destruct (_ && _); cbn; exact HA.
  - pose proof (attempt_uploads w p (RETRY_ATTEMPTS - S b) st) as HA.
    destruct (attempt marconePrompt createExtractionPrompt w p (RETRY_ATTEMPTS - S b) st)
      as [[o|e] st']; [exact HA|].
    destruct HA as [evs [He Hu]].
    destruct (is_rate_limit e && _); [|cbn; exists evs; auto].
    unfold bind, emit. cbn [fst snd].
    match goal with |- context [processSinglePdf_from _ _ b w p index ?s] =>
      specialize (IH s); destruct (processSinglePdf_from _ _ b w p index s) as [[[f|f m]|x] s']
    end; cbn [events] in IH.
    + destruct IH as [pre [d [H1 H2]]]. eexists (evs ++ [Warn _; Sleep _] ++ pre). exists d.
      rewrite H1, He, <- !app_assoc. split; [reflexivity|].
      rewrite !uploads_app, Hu, H2. reflexivity.
    + destruct IH as [ev2 [H1 H2]]. eexists (evs ++ [Warn _; Sleep _] ++ ev2).
      rewrite H1, He, <- !app_assoc. split; [reflexivity|].
      rewrite !uploads_app, Hu, H2. reflexivity.
    + destruct IH as [ev2 [H1 H2]]. eexists (evs ++ [Warn _; Sleep _] ++ ev2).
      rewrite H1, He, <- !app_assoc. split; [reflexivity|].
      rewrite !uploads_app, Hu, H2. reflexivity.
Qed.

(** X8.  A document is handed to [uploadToNetSuite] at most once, and only at
    the very end of a run that succeeded: the last thing the pipeline does
    is to save the result, and to upload that same value if it is truthy.
    A document reported failed has uploaded nothing. *)
Theorem upload_follows_the_save (w : world) (p : pdf) (index : nat) (c : counters) :
  let run := processSinglePdf marconePrompt createExtractionPrompt w p index (initial c) in
  let evs := events (snd run) in
  (forall file, fst run = Ok (Succeeded file) ->
     exists pre d,
       evs = pre ++ CallSaveResult d :: (if truthy d then [CallUpload d] else []) /\
       uploads pre = [] /\
       uploads evs = (if truthy d then [d] else [])) /\
  (forall file msg, fst run = Ok (FailedItem file msg) -> uploads evs = []).
Proof.
  cbv zeta. unfold processSinglePdf.
  pose proof (processSinglePdf_from_uploads w p index RETRY_ATTEMPTS (initial c)) as H.
  destruct (processSinglePdf_from marconePrompt createExtractionPrompt RETRY_ATTEMPTS w p index
              (initial c)) as [[[f|f m]|x] st']; cbn [fst snd initial events app] in *.
  - split; [|discriminate]. intros file _. destruct H as [pre [d [H1 H2]]].
    exists pre, d. split; [exact H1|]. split; [exact H2|].
    rewrite H1, uploads_app, H2. unfold closing. destruct (truthy d); reflexivity.
  - split; [discriminate|]. intros file msg _. destruct H as [evs [H1 H2]].
    rewrite H1. exact H2.
  - split; discriminate.
Qed.

End Uploads.

(** ** The counters of the batch loop *)
Section CounterFacts.

Variable marconePrompt : jsstring -> jsstring.
Variable createExtractionPrompt : option (jsstring -> jsstring).
Variable completion : list (nat * job) -> list (nat * job).
Hypothesis completion_arranges : forall l, Permutation (completion l) l.
Variable pdfAttachments : list job.

Local Abbreviation settles := (settle marconePrompt createExtractionPrompt).
Local Abbreviation runs :=
  (run_batches marconePrompt createExtractionPrompt completion).
Local Abbreviation n := (List.length pdfAttachments).

Lemma count_events_app (f : sevent -> nat) (a b : list sevent) :
  count_events f (a ++ b) = count_events f a + count_events f b.
Proof. unfold count_events. rewrite map_app, list_sum_app. reflexivity. Qed.

Lemma count_events_starts (f : sevent -> nat) (idxs : list nat) :
  (forall i, f (Started i) = 0) -> count_events f (map Started idxs) = 0.
Proof.
  intros Hf. induction idxs as [|i l IH]; [reflexivity|].
  unfold count_events in *. cbn [map]. change (list_sum (?a :: ?l)) with (a + list_sum l).
  rewrite Hf, IH. reflexivity.
Qed.

Lemma settle_tallies (running : list (nat * job)) : forall c,
  let r := settles running c in
  (snd r).(successCount) = c.(successCount) + count_events settled_ok (fst r) /\
  (snd r).(failCount) = c.(failCount) + count_events settled_failed (fst r) /\
  (snd r).(successCount) + (snd r).(failCount) + c.(processedCount) =
  c.(successCount) + c.(failCount) + (snd r).(processedCount).
Proof.
  induction running as [|[idx [p w]] rest IH]; intros c.
  - cbn. lia.
  - cbn [settle]. unfold processSinglePdf.
    destruct (processSinglePdf_from_returns marconePrompt createExtractionPrompt
                RETRY_ATTEMPTS w p idx (initial c)) as [o [st' [Hrun Hc]]].
    rewrite Hrun. cbn [initial counts] in Hc.
    specialize (IH (counts st')).
    destruct (settles rest (counts st')) as [evs c'] eqn:E.
    cbn [fst snd] in IH |- *. destruct IH as [I1 [I2 I3]].
    unfold count_events in *. cbn [map].
    change (list_sum (?a :: ?l)) with (a + list_sum l).
    rewrite Hc in I1, I2, I3. cbn [settled_ok settled_failed].
    destruct (success o); cbn [bump successCount failCount processedCount] in *; lia.
Qed.

Lemma run_batches_tallies : forall fuel i c,
  let r := runs fuel pdfAttachments i c in
  (snd r).(successCount) = c.(successCount) + count_events settled_ok (fst r) /\
  (snd r).(failCount) = c.(failCount) + count_events settled_failed (fst r) /\
  (snd r).(successCount) + (snd r).(failCount) + c.(processedCount) =
  c.(successCount) + c.(failCount) + (snd r).(processedCount).
Proof.
  induction fuel as [|f IH]; intros i c; [cbn; lia|].
  destruct (Nat.lt_ge_cases i n) as [Hlt|Hge].
  2:{ rewrite (@run_batches_done marconePrompt createExtractionPrompt completion
                 pdfAttachments (S f) i c Hge). cbn. lia. }
  rewrite (@run_batches_round marconePrompt createExtractionPrompt completion
             pdfAttachments f i c Hlt).
  cbv zeta. cbn [fst snd].
  match goal with |- context [settles ?l c] =>
    pose proof (settle_tallies l c) as Hs; cbv zeta in Hs;
    destruct (settles l c) as [evs c'] end.
  cbn [fst snd] in *. destruct Hs as [S1 [S2 S3]].
  specialize (IH (i + BATCH_SIZE) c'). cbv zeta in IH. destruct IH as [I1 [I2 I3]].
  rewrite !count_events_app.
  rewrite !count_events_starts by reflexivity.
  destruct (Nat.ltb (i + BATCH_SIZE) n); cbn [count_events map list_sum settled_ok settled_failed
    fold_right]; lia.
Qed.

(** X9.  When the loop ends, the counters agree with what the pipelines
    returned: [successCount] is the number of documents that settled with
    [success: true], [failCount] the number that settled with
    [success: false], and together they make [processedCount], the number
    of PDF attachments. *)
Theorem counters_agree_with_outcomes :
  let r := process_batches marconePrompt createExtractionPrompt completion pdfAttachments in
  (snd r).(successCount) = count_events settled_ok (fst r) /\
  (snd r).(failCount) = count_events settled_failed (fst r) /\
  (snd r).(successCount) + (snd r).(failCount) = n /\
  (snd r).(processedCount) = n.
Proof.
  cbv zeta. unfold process_batches.
  destruct (run_batches_tallies n 0 zero_counters) as [H1 [H2 H3]].
  destruct (@run_batches_counts marconePrompt createExtractionPrompt completion
              completion_arranges pdfAttachments n 0 zero_counters) as [_ [_ [Hc _]]]; [lia|].
  cbn [zero_counters successCount failCount processedCount] in *.
  repeat split; lia.
Qed.

End CounterFacts.

(** ** The theorems above at concrete inputs *)

Lemma nothing_to_validate_is_valid_witness :
  validateBillNumbers (with_lineItems []) = Ok Valid.
Proof.
  apply (@nothing_to_validate_is_valid (with_lineItems [])).
  intros items H. vm_compute in H. inversion H. reflexivity.
Defined.

Lemma null_line_item_throws_witness :
  validateBillNumbers (with_lineItems [sample_good; VNull; sample_short]) = Throw TypeError.
Proof.
  apply (@null_line_item_throws
           [(js "invoiceNumber", VStr (js "67718510"));
            (js "lineItems", VArr [sample_good; VNull; sample_short])]
           [sample_good; VNull; sample_short]).
  - reflexivity.
  - right. left. reflexivity.
Defined.

Lemma refreshed_rule_shape_witness :
  enabled acme_rule = true /\
  truthy (claudePrompt acme_rule) = true /\
  forallb is_name_char (name acme_rule) = true /\
  single_underscores (name acme_rule) = true /\
  criteria_from acme_rule = VStr (js "billing@acme.example") /\
  criteria_subjectContains acme_rule = VStr (js "Invoice") /\
  pdfFolderId acme_rule = VNum 101 0 /\
  jsonFolderId acme_rule = VNum 102 0.
Proof.
  apply (@refreshed_rule_shape ascii_lower
           (rule_config (js "Acme Parts") (js "billing@acme.example") (js "Invoice"))
           acme_rule).
  vm_compute. reflexivity.
Defined.

Lemma rule_without_sender_breaks_matching_witness :
  let st' := snd (fetchNetSuiteConfigs ascii_lower live (Responds senderless_reply) startup) in
  CONFIG_processors st' = [senderless_rule] /\
  matchEmailProcessor ascii_lower st' marcone_email = Throw TypeError.
Proof.
  refine (@rule_without_sender_breaks_matching ascii_lower live senderless_reply (VBool true)
            (VObj [(js "id", VNum 9 0);
                   (js "displayName", VStr (js "Acme - Bill"));
                   (js "emailSubjectContains", VStr (js "Invoice"))])
            [] [senderless_rule] startup marcone_email _ _ _ _ _ _ _);
    try reflexivity.
  intros s H. vm_compute in H. discriminate H.
Defined.

Lemma unvalidated_data_is_persisted_witness :
  let run := run_sample None [Replies null_item_response] in
  fst run = Ok (Succeeded (js "credit.pdf")) /\
  oracle_prompts (events (snd run)) = [sample_prompt (js "credit.pdf")] /\
  persisted (events (snd run)) = [null_item_extraction; null_item_extraction] /\
  (exists e', events (snd run) =
     [CallSavePdf; CallOracle (sample_prompt (js "credit.pdf")); Warn (CouldNotParse e');
      CallSaveResult null_item_extraction; CallUpload null_item_extraction]) /\
  counts (snd run) = bump true zero_counters.
Proof.
  apply (@unvalidated_data_is_persisted sample_prompt None
           (scripted [Replies null_item_response]) sample_pdf 0 zero_counters
           null_item_response null_item_extraction TypeError);
    vm_compute; reflexivity.
Defined.

Lemma counters_agree_with_outcomes_witness :
  let r := process_batches sample_prompt None last_first
             [sample_job; hopeless_job; sample_job; sample_job] in
  successCount (snd r) = count_events settled_ok (fst r) /\
  failCount (snd r) = count_events settled_failed (fst r) /\
  successCount (snd r) + failCount (snd r) = 4 /\
  processedCount (snd r) = 4.
Proof.
  exact (@counters_agree_with_outcomes sample_prompt None last_first last_first_arranges
           [sample_job; hopeless_job; sample_job; sample_job]).
Defined.

(** ** The configuration at startup *)

(** X10.  [validateConfig] returns when the four required settings are all set
    and not empty.  Otherwise it throws an error whose message, after the
    fixed opening, names each of the four that is missing and none that is
    present. *)
Theorem validateConfig_names_the_missing (env : environment) :
  let run := validateConfig (CONFIG env) (at_start env) in
  (run = Ok tt <-> forall k, In k required_names -> unset (env k) = false) /\
  (forall e, run = Throw e ->
     exists msg, e = Failure (Some msg) /\
       starts_with (js "Missing required environment variables: ") msg = true /\
       forall k, In k required_names -> includes msg k = unset (env k)).
Proof.
  cbv zeta. unfold validateConfig, required, CONFIG, at_start, EMAIL_PROCESSORS_at_start.
  cbn [imap_user imap_password imap_host claude_apiKey CONFIG_processors filter map snd fst
       enabled].
  destruct (not_false (env (js "MARCONE_ENABLED")));
  destruct (unset (env (js "IMAP_USER"))) eqn:U1;
  destruct (unset (env (js "IMAP_PASSWORD"))) eqn:U2;
  destruct (unset (env (js "IMAP_HOST"))) eqn:U3;
  destruct (unset (env (js "ANTHROPIC_API_KEY"))) eqn:U4;
  cbn [map fst filter];
  (split;
   [ split;
     [ intros H; first [ discriminate H
                       | intros k [Hk|[Hk|[Hk|[Hk|[]]]]]; subst k; assumption ]
     | intros H; first [ reflexivity
                       | exfalso;
                         first [ pose proof (H _ (or_introl eq_refl)) as C; congruence
                               | pose proof (H _ (or_intror (or_introl eq_refl))) as C; congruence
                               | pose proof (H _ (or_intror (or_intror (or_introl eq_refl)))) as C;
                                 congruence
                               | pose proof (H _ (or_intror (or_intror (or_intror
                                               (or_introl eq_refl))))) as C; congruence ] ] ]
   | intros e H;
     first [ discriminate H
           | inversion H; eexists; split; [reflexivity|]; split; [reflexivity|];
             intros k [Hk|[Hk|[Hk|[Hk|[]]]]]; subst k;
             first [ rewrite U1 | rewrite U2 | rewrite U3 | rewrite U4 ];
             vm_compute; reflexivity ] ]).
Qed.

(** ** The text of the oracle's answer *)

Lemma text_blocks_plain (blocks : list value) :
  forallb plain_block blocks = true ->
  exists kept,
    text_blocks blocks = Ok kept /\
    map_result (fun block => get block (js "text")) kept = Ok (map VStr (texts_of blocks)).
Proof.
  induction blocks as [|block rest IH]; intros H.
  - exists []. split; reflexivity.
  - cbn [forallb] in H. apply andb_prop in H. destruct H as [Hb Hr].
    destruct (IH Hr) as [kept [Hk Hm]].
    destruct block as [| | | | | |fields]; try discriminate Hb.
    cbn [text_blocks]. unfold plain_block in Hb. cbn [texts_of].
    unfold field in *. cbn [get] in *. cbn [rbind]. rewrite Hk. cbn [rbind].
    destruct (is_string (match lookup (js "type") fields with Some x => x | None => VUndefined end)
                (js "text")).
    + cbn [negb orb] in Hb.
      destruct (match lookup (js "text") fields with Some x => x | None => VUndefined end)
        as [| | | |s| |] eqn:Ht; try discriminate Hb.
      exists (VObj fields :: kept). split; [reflexivity|].
      cbn [map_result get]. rewrite Ht. cbn [rbind]. rewrite Hm. reflexivity.
    + exists kept. split; [reflexivity|exact Hm].
Qed.

Lemma join_values_strings (sep : jsstring) (l : list jsstring) :
  join_values sep (map VStr l) = Ok (join sep l).
Proof.
  unfold join_values.
  assert (H : map_result (fun v => match v with
                                   | VUndefined | VNull => Ok []
                                   | _ => ToString v
                                   end) (map VStr l) = Ok l).
  { induction l as [|s l IH]; [reflexivity|].
    cbn [map map_result ToString rbind]. rewrite IH. reflexivity. }
  rewrite H. reflexivity.
Qed.

(** X11.  The analysis is the texts of the blocks of type [text], in order,
    joined by line feeds; blocks of any other type contribute nothing.
    With the token counts in place the call reports success with that
    text. *)
Theorem analysis_joins_the_text_blocks (fields : list (jsstring * value))
    (blocks : list value) :
  lookup (js "content") fields = Some (VArr blocks) ->
  forallb plain_block blocks = true ->
  analysis_of (VObj fields) = Ok (join nl (texts_of blocks)) /\
  claude_result_of (Ok (message_with blocks)) = ClaudeOk (join nl (texts_of blocks)).
Proof.
  intros Hc Hb. destruct (text_blocks_plain _ Hb) as [kept [Hk Hm]].
  assert (Ha : forall fs, lookup (js "content") fs = Some (VArr blocks) ->
                          analysis_of (VObj fs) = Ok (join nl (texts_of blocks))).
  { intros fs Hfs. unfold analysis_of. cbn [get]. rewrite Hfs. cbn [rbind].
    rewrite Hk. cbn [rbind]. rewrite Hm. cbn [rbind]. apply join_values_strings. }
  split; [exact (Ha fields Hc)|].
  unfold claude_result_of. cbn [rbind]. unfold message_with. rewrite Ha by reflexivity.
  reflexivity.
Qed.

Lemma analysis_joins_the_text_blocks_witness :
  let blocks := [thinking_block; text_block (js "{"); text_block (js "}")] in
  analysis_of (message_with blocks) = Ok (js "{" ++ nl ++ js "}") /\
  claude_result_of (Ok (message_with blocks)) = ClaudeOk (js "{" ++ nl ++ js "}").
Proof.
  exact (@analysis_joins_the_text_blocks
           [(js "id", VStr (js "msg_01"));
            (js "content", VArr [thinking_block; text_block (js "{"); text_block (js "}")]);
            (js "model", VStr (js "claude-haiku-4-5-20251001"));
            (js "stop_reason", VStr (js "end_turn"));
            (js "usage", VObj [(js "input_tokens", VNum 1520 0);
                               (js "output_tokens", VNum 212 0)])]
           [thinking_block; text_block (js "{"); text_block (js "}")]
           eq_refl eq_refl).
Defined.

(** ** Files on disk *)

Lemma jseqb_same (s : jsstring) : jseqb s s = true.
Proof. induction s as [|c s IH]; [reflexivity|]. cbn. rewrite N.eqb_refl. exact IH. Qed.

Lemma safe_char_cases (c : N) :
  is_safe_char c = true -> N.eqb c 47 = false /\ N.eqb c 92 = false /\ N.eqb c 95 = false.
Proof.
  unfold is_safe_char. intros H.
  repeat split; apply N.eqb_neq; intros E; subst c; discriminate H.
Qed.

(** X12.  The name under which [savePdf] stores an attachment keeps the length of
    the attachment's file name and consists of ASCII letters, digits, dots,
    hyphens and underscores only: in particular it contains no slash and no
    backslash, whatever the sender called the file.  The names that were
    already made of such characters, and only they, are kept as they
    are. *)
Theorem sanitized_name_is_safe (filename : jsstring) :
  List.length (sanitize filename) = List.length filename /\
  forallb (fun c => is_safe_char c || N.eqb c 95) (sanitize filename) = true /\
  forallb (fun c => negb (N.eqb c 47) && negb (N.eqb c 92)) (sanitize filename) = true /\
  sanitize (sanitize filename) = sanitize filename /\
  (forallb (fun c => is_safe_char c || N.eqb c 95) filename = true <->
   sanitize filename = filename).
Proof.
  unfold sanitize. split; [apply length_map|].
  induction filename as [|c s IH]; [repeat split; reflexivity|].
  destruct IH as [I1 [I2 [I3 [I4 I5]]]]. cbn [map forallb].
  destruct (is_safe_char c) eqn:Hc.
  - destruct (safe_char_cases _ Hc) as [H47 [H92 H95]].
    rewrite Hc, H47, H92, I1, I2, I3. cbn [orb negb andb].
    split; [reflexivity|]. split; [reflexivity|]. split; [reflexivity|]. split.
    + intros H. f_equal. exact (I4 H).
    + intros H. inversion H as [H1]. rewrite H1. exact (I5 H1).
  - assert (H95 : is_safe_char 95 = false) by reflexivity.
    rewrite H95, I1, I2, I3. cbn [N.eqb Pos.eqb orb negb andb].
    split; [reflexivity|]. split; [reflexivity|]. split; [reflexivity|].
    destruct (N.eqb c 95) eqn:E; cbn [orb andb]; split.
    + intros H. apply N.eqb_eq in E. subst c. f_equal. exact (I4 H).
    + intros H. inversion H as [[H0 H1]]. rewrite H1. exact (I5 H1).
    + discriminate.
    + intros H. inversion H as [[H0 H1]]. subst c. discriminate E.
Qed.

Lemma read_written (path : jsstring) (c : file_content) (d : disk) :
  read_file path (write_file path c d) = Some c.
Proof.
  induction d as [|[p old] rest IH]; cbn [write_file read_file].
  - rewrite jseqb_same. reflexivity.
  - destruct (jseqb path p) eqn:E; cbn [read_file]; rewrite E; [reflexivity|exact IH].
Qed.

Lemma rewrite_keeps_paths (path : jsstring) (c c' : file_content) (d : disk) :
  map fst (write_file path c (write_file path c' d)) = map fst (write_file path c' d).
Proof.
  induction d as [|[p old] rest IH]; cbn [write_file].
  - rewrite jseqb_same. reflexivity.
  - destruct (jseqb path p) eqn:E; cbn [write_file]; rewrite E; cbn [map fst];
      [reflexivity|rewrite IH; reflexivity].
Qed.

(** X13.  The file of a result is named after the clock reading alone.  When two
    results are saved at the same reading (two documents of a batch, say)
    they go to the same path: the second save adds no file, and what the
    file holds afterwards is the second result, not the first. *)
Theorem results_of_one_instant_share_a_file
    (path_join : jsstring -> jsstring -> jsstring) (stringify : value -> jsstring)
    (c : config) (now : jsstring) (first second : value) (d : disk) :
  c.(output_saveResults) = true ->
  let save := Disk.saveResult path_join stringify (fun _ => None) (fun _ => None) c now in
  let d1 := snd (save first d) in
  let d2 := snd (save second d1) in
  let path := path_join c.(output_resultsDir) (js "analysis_" ++ dashed now ++ js ".json") in
  fst (save first d) = Ok tt /\ fst (save second d1) = Ok tt /\
  read_file path d1 = Some (Text (stringify first)) /\
  read_file path d2 = Some (Text (stringify second)) /\
  map fst d2 = map fst d1.
Proof.
  intros He. cbv zeta. unfold Disk.saveResult, Disk.mkdir, Disk.writeFile, Disk.result_name.
  rewrite He. cbn [negb bind ret fst snd].
  split; [reflexivity|]. split; [reflexivity|].
  split; [apply read_written|]. split; [apply read_written|]. apply rewrite_keeps_paths.
Qed.

Lemma results_of_one_instant_share_a_file_witness :
  let now := js "2026-01-05T10:15:30.123Z" in
  let save := Disk.saveResult slash_join invoice_of (fun _ => None) (fun _ => None)
                (CONFIG saving) now in
  let d1 := snd (save json_object []) in
  let d2 := snd (save null_item_extraction d1) in
  let path := slash_join (js "./results") (js "analysis_" ++ dashed now ++ js ".json") in
  fst (save json_object []) = Ok tt /\ fst (save null_item_extraction d1) = Ok tt /\
  read_file path d1 = Some (Text (invoice_of json_object)) /\
  read_file path d2 = Some (Text (invoice_of null_item_extraction)) /\
  map fst d2 = map fst d1.
Proof.
  exact (@results_of_one_instant_share_a_file slash_join invoice_of (CONFIG saving)
           (js "2026-01-05T10:15:30.123Z") json_object null_item_extraction [] eq_refl).
Defined.

(** ** The upload *)

Section UploadFacts.

Variable base64 : list N -> jsstring.
Variable authorize : result jsstring.
Variable post : Upload.payload -> http_reply.

Local Abbreviation upload := (Upload.uploadToNetSuite base64 authorize post).

(** X14.  [uploadToNetSuite] never throws: whatever the signature, the server
    and its answer do, it returns one of its three results.  It sends at
    most one request, none when the integration is disabled, and reports
    success only for a request that was answered.  The request carries the
    extraction it was given and, for each folder, the rule's own id when
    that is truthy and the default of the configuration otherwise. *)
Theorem upload_sends_one_request (c : config) (now : jsstring) (pdfBuffer : list N)
    (filename : jsstring) (data : value) (subject : jsstring)
    (folderIds : option (value * value)) (sent : list Upload.payload) :
  let run := upload c now pdfBuffer filename data subject folderIds sent in
  let request :=
    {| Upload.pdfBase64 := base64 pdfBuffer;
       Upload.pdfFilename := filename;
       Upload.emailSubject := subject;
       Upload.extractedData := data;
       Upload.processedDate := now;
       Upload.pdfFolderId :=
         either (match folderIds with Some ids => fst ids | None => VUndefined end)
                         c.(netsuite_defaultPdfFolderId);
       Upload.jsonFolderId :=
         either (match folderIds with Some ids => snd ids | None => VUndefined end)
                         c.(netsuite_defaultJsonFolderId) |} in
  (exists r, fst run = Ok r) /\
  (snd run = sent \/ snd run = sent ++ [request]) /\
  (c.(netsuite).(netsuite_enabled) = false -> fst run = Ok Upload.Disabled /\ snd run = sent) /\
  (forall pdfFileId jsonFileId response,
     fst run = Ok (Upload.Uploaded pdfFileId jsonFileId response) ->
     snd run = sent ++ [request] /\ post request = Responds response /\
     get response (js "pdfFileId") = Ok pdfFileId /\
     get response (js "jsonFileId") = Ok jsonFileId) /\
  (forall m, post request = RequestFails m ->
     fst run = Ok Upload.Disabled \/ exists m', fst run = Ok (Upload.UploadFailed m')).
Proof.
  cbv zeta. unfold Upload.uploadToNetSuite.
  destruct (netsuite_enabled (netsuite c)) eqn:He; cbn [negb].
  2:{ unfold ret. cbn [fst snd]. repeat split; eauto; try discriminate. }
  unfold try_catch, bind, lift, ret, Upload.send.
  match goal with |- context [post ?r] => set (request := r) end.
  match goal with |- context [if truthy ?v then ToString ?v else Ok []] =>
    destruct (if truthy v then ToString v else Ok []) as [s1|e1] end.
  2:{ cbn [fst snd]. repeat split; eauto; try discriminate. }
  match goal with |- context [if truthy ?v then ToString ?v else Ok []] =>
    destruct (if truthy v then ToString v else Ok []) as [s2|e2] end.
  2:{ cbn [fst snd]. repeat split; eauto; try discriminate. }
  destruct authorize as [header|e3].
  2:{ cbn [fst snd]. repeat split; eauto; try discriminate. }
  destruct (post request) as [response|m] eqn:Hp.
  2:{ cbn [fst snd]. repeat split; eauto; try discriminate. }
  destruct (get response (js "pdfFileId")) as [pid|e4] eqn:G1.
  2:{ cbn [fst snd]. repeat split; eauto; try discriminate. }
  destruct (ToString (either pid (VStr (js "N/A")))) as [s3|e5].
  2:{ cbn [fst snd]. repeat split; eauto; try discriminate. }
  destruct (get response (js "jsonFileId")) as [jid|e6] eqn:G2.
  2:{ cbn [fst snd]. repeat split; eauto; try discriminate. }
  destruct (ToString (either jid (VStr (js "N/A")))) as [s4|e7].
  2:{ cbn [fst snd]. repeat split; eauto; try discriminate. }
  cbn [fst snd]. repeat split; eauto; try discriminate.
  all: intros; match goal with H : Ok _ = Ok _ |- _ => inversion H; subst end; auto.
Qed.

End UploadFacts.

(** ** The handler of a message body *)

Section HandlerFacts.

Variable toLowerCase : jsstring -> jsstring.
Variable marconePrompt : jsstring -> jsstring.
Variable createExtractionPrompt : option (jsstring -> jsstring).
Variable completion : list (nat * job) -> list (nat * job).
Hypothesis completion_arranges : forall l, Permutation (completion l) l.

Local Abbreviation settles := (settle marconePrompt createExtractionPrompt).
Local Abbreviation runs := (run_batches marconePrompt createExtractionPrompt completion).

Lemma attempt_file (w : world) (p : pdf) (retryCount : nat) (st st' : pstate) (o : outcome) :
  attempt marconePrompt createExtractionPrompt w p retryCount st = (Ok o, st') ->
  file_of o = p.(filename).
Proof.
  unfold attempt, bind.
  destruct (savePdf w st) as [[[]|e1] s1]; [|discriminate].
  destruct (processPdfWithClaude marconePrompt w p None s1) as [[[a|m]|e2] s2];
    [| |discriminate].
  - destruct (parse_response marconePrompt createExtractionPrompt w p retryCount a s2)
      as [[d|e3] s3]; [|discriminate].
    destruct (saveResult w d s3) as [[[]|e4] s4]; [|discriminate].
    destruct (truthy d); cbn; intros H; inversion H; reflexivity.
  - cbn. intros H. inversion H. reflexivity.
Qed.

Lemma processSinglePdf_from_file (w : world) (p : pdf) (index : nat) :
  forall budget st st' o,
  processSinglePdf_from marconePrompt createExtractionPrompt budget w p index st = (Ok o, st') ->
  file_of o = p.(filename).
Proof.
  induction budget as [|b IH]; intros st st' o; rewrite processSinglePdf_from_unfold;
    unfold try_catch.
  - destruct (attempt marconePrompt createExtractionPrompt w p (RETRY_ATTEMPTS - 0) st)
      as [[o1|e] s1] eqn:E.
    + intros H. inversion H. subst. exact (attempt_file _ _ _ _ E).
    + destruct (_ && _); cbn; intros H; inversion H; reflexivity.
  - destruct (attempt marconePrompt createExtractionPrompt w p (RETRY_ATTEMPTS - S b) st)
      as [[o1|e] s1] eqn:E.
    + intros H. inversion H. subst. exact (attempt_file _ _ _ _ E).
    + destruct (is_rate_limit e && _).
      * unfold bind, emit. apply IH.
      * cbn. intros H. inversion H. reflexivity.
Qed.

Lemma settle_files (running : list (nat * job)) : forall c idx o m,
  In (Settled idx (Ok o) m) (fst (settles running c)) ->
  exists p w, In (idx, (p, w)) running /\ file_of o = p.(filename).
Proof.
  induction running as [|[i [p w]] rest IH]; intros c idx o m; [intros []|].
  cbn [settle]. unfold processSinglePdf.
  destruct (processSinglePdf_from marconePrompt createExtractionPrompt RETRY_ATTEMPTS w p i
              (initial c)) as [r st] eqn:E.
  specialize (IH (counts st)).
  destruct (settles rest (counts st)) as [evs c']. cbn [fst] in *.
  intros [H|H].
  - inversion H. subst. exists p, w. split; [left; reflexivity|].
    exact (processSinglePdf_from_file _ _ _ _ _ E).
  - destruct (IH _ _ _ H) as [p' [w' [Hin Hf]]]. exists p', w'. split; [right; exact Hin|exact Hf].
Qed.

Lemma in_combine_slice {A} (l : list A) (i k idx : nat) (x : A) :
  In (idx, x) (combine (seq i (List.length (slice i (i + k) l))) (slice i (i + k) l)) ->
  nth_error l idx = Some x.
Proof.
  unfold slice. replace (i + k - i) with k by lia.
  rewrite <- (firstn_skipn i l) at 3.
  assert (Hgen : forall (l' : list A) j, In (idx, x) (combine (seq j (List.length l')) l') ->
                   j <= idx /\ nth_error l' (idx - j) = Some x).
  { induction l' as [|y l' IHl]; intros j; [intros []|].
    cbn [List.length seq combine]. intros [H|H].
    - inversion H. subst. rewrite Nat.sub_diag. split; [lia|reflexivity].
    - destruct (IHl (S j) H) as [Hle Hn]. split; [lia|].
      replace (idx - j) with (S (idx - S j)) by lia. exact Hn. }
  intros H. destruct (Hgen _ _ H) as [Hle Hn].
  rewrite nth_error_firstn in Hn.
  destruct (Nat.ltb (idx - i) k); [|discriminate Hn].
  rewrite nth_error_skipn in Hn. rewrite firstn_skipn.
  replace (i + (idx - i)) with idx in Hn by lia. exact Hn.
Qed.

Lemma run_batches_files (jobs : list job) : forall fuel i c idx o m,
  In (Settled idx (Ok o) m) (fst (runs fuel jobs i c)) ->
  exists p w, nth_error jobs idx = Some (p, w) /\ file_of o = p.(filename).
Proof.
  induction fuel as [|f IH]; intros i c idx o m; [intros []|].
  destruct (Nat.lt_ge_cases i (List.length jobs)) as [Hlt|Hge].
  2:{ rewrite (@run_batches_done marconePrompt createExtractionPrompt completion
                 jobs (S f) i c Hge). intros []. }
  rewrite (@run_batches_round marconePrompt createExtractionPrompt completion
             jobs f i c Hlt). cbn [fst].
  intros H. apply in_app_or in H. destruct H as [H|H].
  { apply in_map_iff in H. destruct H as [j [Hj _]]. discriminate Hj. }
  apply in_app_or in H. destruct H as [H|H].
  { destruct (settle_files _ _ _ _ _ H) as [p [w [Hin Hf]]].
    exists p, w. split; [|exact Hf].
    apply (Permutation_in _ (completion_arranges _)) in Hin.
    exact (in_combine_slice _ _ _ _ _ Hin). }
  apply in_app_or in H. destruct H as [H|H].
  { destruct (Nat.ltb (i + BATCH_SIZE) (List.length jobs)); [|destruct H].
    destruct H as [H|[]]. discriminate H. }
  exact (IH _ _ _ _ _ H).
Qed.


End HandlerFacts.


(** That email at work: the two PDFs are processed, the spreadsheet is
    not. *)
Example spreadsheet_is_passed_over :
  on_body ascii_lower sample_prompt None last_first startup
    (Ok (marcone_email, Some three_attachments)) =
  Ok (Processed [Started 0; Started 1;
                 Settled 1 (Ok (Succeeded (js "b.pdf"))) 1;
                 Settled 0 (Ok (Succeeded (js "a.pdf"))) 2]
                {| processedCount := 2; successCount := 2; failCount := 0 |}).
Proof. vm_compute. reflexivity. Qed.

(** * More of [retry_claude_json_scheduled.js] *)

(** ** Responses [parseJSONFromResponse] reads *)

Lemma find_from_none (a pat : jsstring) :
  no_backquote a = true -> find_from a (96%N :: pat) = None.
Proof.
  induction a as [|c a IH]; intros H; [reflexivity|].
  cbn in H. apply andb_prop in H. destruct H as [Hc Ha].
  cbn [find_from starts_with].
  replace (N.eqb 96 c) with false.
  2:{ symmetry. apply N.eqb_neq. intros E. subst c. discriminate Hc. }
  cbn [andb]. rewrite (IH Ha). reflexivity.
Qed.

Lemma find_from_char (x : N) (a rest : jsstring) :
  lacks x a = true -> find_from (a ++ x :: rest) [x] = Some (List.length a).
Proof.
  intros H. induction a as [|c a IH].
  - cbn [app find_from starts_with]. rewrite N.eqb_refl. reflexivity.
  - cbn in H. apply andb_prop in H. destruct H as [Hc Ha].
    cbn [app find_from starts_with].
    replace (N.eqb x c) with false.
    2:{ symmetry. apply N.eqb_neq. intros E. subst c. rewrite N.eqb_refl in Hc. discriminate Hc. }
    cbn [andb]. rewrite (IH Ha). reflexivity.
Qed.

Lemma no_backquote_app (a b : jsstring) :
  no_backquote (a ++ b) = no_backquote a && no_backquote b.
Proof. unfold no_backquote. apply forallb_app. Qed.

Lemma match_fence_reads (tagged : bool) (pre text post : jsstring) :
  no_backquote pre = true -> no_backquote text = true -> tight text = true ->
  match_fence (pre ++ fence tagged text ++ post) = Some text.
Proof.
  intros Hpre Htext Ht. unfold match_fence, fence.
  assert (Hskip : forall tail,
            skipn (List.length pre + 3) (pre ++ 96%N :: (js "``" ++ tail)) = tail).
  { intros tail. rewrite skipn_app, skipn_all2 by lia.
    replace (List.length pre + 3 - List.length pre) with 3 by lia. reflexivity. }
  assert (Hrest : forall r1,
            r1 = nl ++ text ++ nl ++ js "```" ++ post ->
            match find_from (drop_space r1) (js "```") with
            | Some q => Some (rev (drop_space (rev (firstn q (drop_space r1)))))
            | None => None
            end = Some text).
  { intros r1 ->. unfold tight in Ht.
    destruct text as [|c s]; [discriminate|].
    destruct (rev (c :: s)) as [|d t] eqn:R; [discriminate|].
    apply andb_prop in Ht. destruct Ht as [Hc Hd]. apply negb_true_iff in Hc, Hd.
    rewrite (@drop_space_tight c s _ Hc).
    replace ((c :: s) ++ nl ++ js "```" ++ post)
      with (((c :: s) ++ nl) ++ 96%N :: (js "``" ++ post))
      by (rewrite <- !app_assoc; reflexivity).
    change (js "```") with (96%N :: js "``").
    rewrite (@find_from_after ((c :: s) ++ nl) (js "``") (js "``" ++ post)).
    2:{ rewrite no_backquote_app, Htext. reflexivity. }
    2:{ reflexivity. }
    rewrite firstn_app, firstn_all, Nat.sub_diag. cbn [firstn]. rewrite app_nil_r.
    rewrite rev_app_distr, R. cbn [rev nl app drop_space].
    replace (is_space 10) with true by reflexivity. rewrite Hd.
    rewrite <- R, rev_involutive. reflexivity. }
  assert (Hopen : forall tail,
            find_from (pre ++ 96%N :: (js "``" ++ tail)) (js "```") = Some (List.length pre)).
  { intros tail. change (js "```") with (96%N :: js "``").
    apply (@find_from_after pre (js "``") (js "``" ++ tail) Hpre). reflexivity. }
  destruct tagged.
  - replace (pre ++ (js "```json" ++ nl ++ text ++ nl ++ js "```") ++ post)
      with (pre ++ 96%N :: (js "``" ++ (js "json" ++ nl ++ text ++ nl ++ js "```" ++ post)))
      by (cbn [js app]; rewrite <- !app_assoc; reflexivity).
    rewrite Hopen, Hskip.
    change (starts_with (js "json") (js "json" ++ nl ++ text ++ nl ++ js "```" ++ post))
      with true. cbv iota.
    change (skipn 4 (js "json" ++ nl ++ text ++ nl ++ js "```" ++ post))
      with (nl ++ text ++ nl ++ js "```" ++ post).
    apply Hrest. reflexivity.
  - replace (pre ++ (js "```" ++ nl ++ text ++ nl ++ js "```") ++ post)
      with (pre ++ 96%N :: (js "``" ++ (nl ++ text ++ nl ++ js "```" ++ post)))
      by (cbn [js app]; rewrite <- !app_assoc; reflexivity).
    rewrite Hopen, Hskip.
    change (starts_with (js "json") (nl ++ text ++ nl ++ js "```" ++ post)) with false.
    cbv iota. apply Hrest. reflexivity.
Qed.

(** X16.  A response that wraps the JSON text of the extraction in a fenced
    block, with or without the [json] tag and with prose before and after
    the block, is read: [parseJSONFromResponse] returns the value of the
    text between the fences. *)
Theorem fenced_json_is_read (tagged : bool) (pre text post : jsstring)
    (o : value) (e : error) :
  no_backquote pre = true -> no_backquote text = true -> tight text = true ->
  JSON_parse text = Ok o ->
  JSON_parse (pre ++ fence tagged text ++ post) = Throw e ->
  parseJSONFromResponse (pre ++ fence tagged text ++ post) = o.
Proof.
  intros Hpre Htext Ht Ho Hw. unfold parseJSONFromResponse.
  rewrite Hw, (@match_fence_reads tagged pre text post Hpre Htext Ht), Ho. reflexivity.
Qed.

Lemma lacks_app (x : N) (a b : jsstring) : lacks x (a ++ b) = lacks x a && lacks x b.
Proof. unfold lacks. apply forallb_app. Qed.

Lemma lacks_rev (x : N) (a : jsstring) : lacks x (rev a) = lacks x a.
Proof.
  induction a as [|c a IH]; [reflexivity|].
  cbn [rev]. rewrite lacks_app, IH. cbn. rewrite andb_true_r. apply andb_comm.
Qed.

Lemma match_object_reads (pre text post : jsstring) :
  lacks 123 pre = true -> lacks 125 post = true -> braced text = true ->
  match_object (pre ++ text ++ post) = Some text.
Proof.
  intros Hpre Hpost Hb. unfold braced in Hb.
  destruct text as [|a [|a' body]]; try discriminate.
  destruct (rev (a :: a' :: body)) as [|b t] eqn:R; [discriminate|].
  apply andb_prop in Hb. destruct Hb as [Ha Hb].
  apply N.eqb_eq in Ha, Hb. subst a b.
  unfold match_object. change (js "{") with [123%N]. change (js "}") with [125%N].
  change (pre ++ (123%N :: a' :: body) ++ post) with (pre ++ 123%N :: (a' :: body) ++ post).
  rewrite (@find_from_char 123 pre ((a' :: body) ++ post) Hpre).
  rewrite skipn_app, skipn_all, Nat.sub_diag. cbn [skipn app].
  change (123%N :: a' :: body ++ post) with ((123%N :: a' :: body) ++ post).
  rewrite rev_app_distr, R.
  change ((rev post) ++ 125%N :: t) with (rev post ++ 125%N :: t).
  rewrite (@find_from_char 125 (rev post) t) by (rewrite lacks_rev; exact Hpost).
  rewrite length_rev, length_app.
  replace (Nat.ltb (S (List.length post))
                   (List.length (123%N :: a' :: body) + List.length post)) with true.
  2:{ symmetry. apply Nat.ltb_lt. cbn [List.length]. lia. }
  replace (List.length (123%N :: a' :: body) + List.length post - List.length post)
    with (List.length (123%N :: a' :: body)) by lia.
  rewrite firstn_app, firstn_all, Nat.sub_diag. cbn [firstn]. rewrite app_nil_r. reflexivity.
Qed.

(** X17.  A response that gives the JSON text of an object with prose before and
    after it, and no fence, is read as well: [parseJSONFromResponse]
    returns the object, provided the prose before it has no opening brace
    and the prose after it no closing brace. *)
Theorem json_between_prose_is_read (pre text post : jsstring) (o : value) (e : error) :
  no_backquote (pre ++ text ++ post) = true ->
  lacks 123 pre = true -> lacks 125 post = true -> braced text = true ->
  JSON_parse text = Ok o ->
  JSON_parse (pre ++ text ++ post) = Throw e ->
  parseJSONFromResponse (pre ++ text ++ post) = o.
Proof.
  intros Hq Hpre Hpost Hb Ho Hw. unfold parseJSONFromResponse, match_fence.
  change (js "```") with (96%N :: js "``").
  rewrite Hw, (@find_from_none (pre ++ text ++ post) (js "``") Hq),
    (@match_object_reads pre text post Hpre Hpost Hb), Ho.
  reflexivity.
Qed.

Lemma fenced_json_is_read_witness :
  parseJSONFromResponse (preamble ++ fence true json_text ++ closing_remark) = json_object /\
  parseJSONFromResponse (preamble ++ fence false json_text ++ closing_remark) = json_object.
Proof.
  split.
  - apply (@fenced_json_is_read true preamble json_text closing_remark json_object SyntaxError);
      vm_compute; reflexivity.
  - apply (@fenced_json_is_read false preamble json_text closing_remark json_object SyntaxError);
      vm_compute; reflexivity.
Defined.

Lemma json_between_prose_is_read_witness :
  parseJSONFromResponse (preamble ++ json_text ++ closing_remark) = json_object.
Proof.
  apply (@json_between_prose_is_read preamble json_text closing_remark json_object SyntaxError);
    vm_compute; reflexivity.
Defined.

(** ** The retry script *)

Section RetryFacts.

Variable pf : platform.
Variable stringify : value -> jsstring.

Local Abbreviation processPDFFile := (Retry.processPDFFile pf stringify).

(** The ways [processPDFFile] can end. *)
Lemma retry_file_cases (pdfFile : Retry.pdf_file)
    (config : Retry.vendor_config) (apiKey : value) (startTime endTime : Z)
    (now : jsstring) (log : list suite_event) :
  let run := processPDFFile pdfFile config apiKey startTime endTime now log in
  exists r evs,
    run = (Ok r, log ++ evs) /\
    match r with
    | Retry.Done jsonFileId movedPdfId extractedData =>
        exists userPrompt pdfBase64 baseName,
          baseName_of pdfFile.(Retry.name) = Ok baseName /\
          truthy extractedData = true /\
          let name := baseName ++ js ".json" in
          let contents := VStr (stringify extractedData) in
          pf.(save_file) name JSON contents config.(Retry.jsonFolderId) = Ok jsonFileId /\
          ((pf.(move_file) pdfFile.(Retry.file_id) config.(Retry.pdfFolderId) = Ok movedPdfId /\
            evs = [AskClaude userPrompt pdfBase64;
                   SaveFile name JSON contents config.(Retry.jsonFolderId);
                   MoveFile pdfFile.(Retry.file_id) config.(Retry.pdfFolderId)])
           \/
           ((exists e, pf.(move_file) pdfFile.(Retry.file_id) config.(Retry.pdfFolderId)
                       = Throw e) /\
            movedPdfId = pdfFile.(Retry.file_id) /\
            evs = [AskClaude userPrompt pdfBase64;
                   SaveFile name JSON contents config.(Retry.jsonFolderId)]))
    | Retry.NotDone error =>
        evs = [] \/
        (exists userPrompt pdfBase64, evs = [AskClaude userPrompt pdfBase64]) \/
        (exists userPrompt pdfBase64 name contents e,
           pf.(save_file) name JSON contents config.(Retry.jsonFolderId) = Throw e /\
           evs = [AskClaude userPrompt pdfBase64;
                  SaveFile name JSON contents config.(Retry.jsonFolderId)])
    end.
Proof.
  cbv zeta. unfold Retry.processPDFFile, Retry.process_body, try_catch, bind, lift, ret,
    record_event.
  destruct (getContents pf (Retry.file_id pdfFile)) as [pdfBase64|e1].
  2:{ eexists. exists []. rewrite app_nil_r. split; [reflexivity|]. left. reflexivity. }
  match goal with |- context [get ?u (js "length")] => set (userPrompt := u) end.
  destruct (get userPrompt (js "length")) as [l1|e2].
  2:{ eexists. exists []. rewrite app_nil_r. split; [reflexivity|]. left. reflexivity. }
  destruct (get pdfBase64 (js "length")) as [l2|e3].
  2:{ eexists. exists []. rewrite app_nil_r. split; [reflexivity|]. left. reflexivity. }
  destruct (callClaude pf userPrompt pdfBase64) as [claudeResult|e4].
  2:{ eexists. eexists. split; [reflexivity|]. right. left. eauto. }
  destruct (get claudeResult (js "success")) as [ok|e5].
  2:{ eexists. eexists. split; [reflexivity|]. right. left. eauto. }
  destruct (truthy ok); cbn [negb].
  2:{ destruct (get claudeResult (js "error")) as [err|e6];
        eexists; eexists; (split; [reflexivity|]); right; left; eauto. }
  destruct (get claudeResult (js "analysis")) as [analysis|e7].
  2:{ eexists. eexists. split; [reflexivity|]. right. left. eauto. }
  destruct (Retry.parse_analysis analysis) as [extractedData|e8].
  2:{ eexists. eexists. split; [reflexivity|]. right. left. eauto. }
  destruct (truthy extractedData) eqn:Hdata; cbn [negb].
  2:{ eexists. eexists. split; [reflexivity|]. right. left. eauto. }
  destruct (Retry.retryMetadata pdfFile config claudeResult startTime endTime now) as [meta|e9].
  2:{ eexists. eexists. split; [reflexivity|]. right. left. eauto. }
  assert (Hmeta : truthy (Retry.with_metadata extractedData meta) = true).
  { destruct extractedData; try exact Hdata; reflexivity. }
  destruct (baseName_of (Retry.name pdfFile)) as [baseName|e10] eqn:Hbase.
  2:{ eexists. eexists. split; [reflexivity|]. right. left. eauto. }
  match goal with |- context [save_file pf ?n JSON ?c ?f] =>
    set (name := n); set (contents := c);
    destruct (save_file pf name JSON contents f) as [jsonFileId|e11] eqn:Hs
  end.
  2:{ eexists. eexists. split; [rewrite <- app_assoc; reflexivity|]. right. right.
      exists userPrompt, pdfBase64, name, contents, e11. auto. }
  unfold Retry.movePDFToProcessedFolder, record_event, ret.
  destruct (move_file pf (Retry.file_id pdfFile) (Retry.pdfFolderId config))
    as [newFileId|e12] eqn:Hm.
  - eexists. eexists. split; [rewrite <- !app_assoc; reflexivity|].
    exists userPrompt, pdfBase64, baseName. split; [reflexivity|]. split; [exact Hmeta|].
    cbv zeta. split; [exact Hs|]. left. auto.
  - eexists. eexists. split; [rewrite <- !app_assoc; reflexivity|].
    exists userPrompt, pdfBase64, baseName. split; [reflexivity|]. split; [exact Hmeta|].
    cbv zeta. split; [exact Hs|]. right.
    split; [exists e12; reflexivity|]. auto.
Qed.

(** X18.  [processPDFFile] never throws: it returns a result whatever the
    platform and the oracle do.  It asks the oracle at most once.  A PDF is
    moved only after its JSON file has been saved, and only when the result
    is a success; when the move itself fails the result is a success all
    the same, [movedPdfId] is the id the PDF had, and the PDF stays in the
    retry folder. *)
Theorem retry_moves_only_what_it_saved (pdfFile : Retry.pdf_file)
    (config : Retry.vendor_config) (apiKey : value) (startTime endTime : Z)
    (now : jsstring) (log : list suite_event) :
  let run := processPDFFile pdfFile config apiKey startTime endTime now log in
  exists r evs,
    run = (Ok r, log ++ evs) /\
    match r with
    | Retry.Done jsonFileId movedPdfId extractedData =>
        exists userPrompt pdfBase64 baseName,
          baseName_of pdfFile.(Retry.name) = Ok baseName /\
          truthy extractedData = true /\
          let name := baseName ++ js ".json" in
          let contents := VStr (stringify extractedData) in
          pf.(save_file) name JSON contents config.(Retry.jsonFolderId) = Ok jsonFileId /\
          ((pf.(move_file) pdfFile.(Retry.file_id) config.(Retry.pdfFolderId) = Ok movedPdfId /\
            evs = [AskClaude userPrompt pdfBase64;
                   SaveFile name JSON contents config.(Retry.jsonFolderId);
                   MoveFile pdfFile.(Retry.file_id) config.(Retry.pdfFolderId)])
           \/
           ((exists e, pf.(move_file) pdfFile.(Retry.file_id) config.(Retry.pdfFolderId)
                       = Throw e) /\
            movedPdfId = pdfFile.(Retry.file_id) /\
            evs = [AskClaude userPrompt pdfBase64;
                   SaveFile name JSON contents config.(Retry.jsonFolderId)]))
    | Retry.NotDone error =>
        evs = [] \/
        (exists userPrompt pdfBase64, evs = [AskClaude userPrompt pdfBase64]) \/
        (exists userPrompt pdfBase64 name contents e,
           pf.(save_file) name JSON contents config.(Retry.jsonFolderId) = Throw e /\
           evs = [AskClaude userPrompt pdfBase64;
                  SaveFile name JSON contents config.(Retry.jsonFolderId)])
    end.
Proof. exact (retry_file_cases pdfFile config apiKey startTime endTime now log). Qed.


End RetryFacts.

Section RetryLoop.

Variable pf : platform.
Variable stringify : value -> jsstring.

Lemma truthy_has_fields (v : value) (k : jsstring) :
  truthy v = true -> exists x, get v k = Ok x.
Proof. destruct v; try discriminate; intros _; cbn [get]; eauto. Qed.

(** X19.  An answer of the oracle that is no JSON, or whose JSON is [null],
    [false], zero or the empty string, is reported as a failure to parse:
    nothing is saved and the PDF is not moved. *)
Theorem falsy_extraction_is_a_parse_failure (pdfFile : Retry.pdf_file)
    (config : Retry.vendor_config) (apiKey : value) (startTime endTime : Z)
    (now : jsstring) (log : list suite_event)
    (pdfBase64 claudeResult ok : value) (analysis : jsstring) :
  let userPrompt :=
    either config.(Retry.aiPrompt)
      (VStr (js "Extract all relevant data from this PDF and return as structured JSON.")) in
  pf.(getContents) pdfFile.(Retry.file_id) = Ok pdfBase64 ->
  truthy pdfBase64 = true ->
  pf.(callClaude) userPrompt pdfBase64 = Ok claudeResult ->
  get claudeResult (js "success") = Ok ok -> truthy ok = true ->
  get claudeResult (js "analysis") = Ok (VStr analysis) ->
  truthy (parseJSONFromResponse analysis) = false ->
  Retry.processPDFFile pf stringify pdfFile config apiKey startTime endTime now log =
  (Ok (Retry.NotDone (VStr (js "Failed to parse JSON from Claude response"))),
   log ++ [AskClaude userPrompt pdfBase64]).
Proof.
  cbv zeta. intros Hc Hp Hr Hs Ht Ha Hf.
  unfold Retry.processPDFFile, Retry.process_body, try_catch, bind, lift, ret, record_event.
  rewrite Hc.
  match goal with |- context [get ?u (js "length")] => set (userPrompt := u) in * end.
  assert (Hu : truthy userPrompt = true).
  { unfold userPrompt, either. destruct (truthy (Retry.aiPrompt config)) eqn:E;
      [exact E|reflexivity]. }
  destruct (@truthy_has_fields userPrompt (js "length") Hu) as [l1 H1]. rewrite H1.
  destruct (@truthy_has_fields pdfBase64 (js "length") Hp) as [l2 H2]. rewrite H2.
  rewrite Hr, Hs, Ht. cbn [negb]. rewrite Ha. cbn [Retry.parse_analysis]. rewrite Hf.
  reflexivity.
Qed.

Lemma processPDFFile_returns (pdfFile : Retry.pdf_file) (config : Retry.vendor_config)
    (apiKey : value) (startTime endTime : Z) (now : jsstring) (log : list suite_event) :
  exists r log',
    Retry.processPDFFile pf stringify pdfFile config apiKey startTime endTime now log
    = (Ok r, log').
Proof.
  unfold Retry.processPDFFile, try_catch.
  destruct (Retry.process_body pf stringify pdfFile config apiKey startTime endTime now log)
    as [[r|e] log']; eexists; eexists; reflexivity.
Qed.

Lemma process_files_counts (config : Retry.vendor_config) (apiKey : value) :
  forall pdfFiles i processedCount errorCount log,
  exists p e log',
    Retry.process_files pf stringify config apiKey i pdfFiles processedCount errorCount log
    = (Ok (p, e), log') /\
    p + e = processedCount + errorCount
            + rounds_made pf.(getRemainingUsage) i (List.length pdfFiles).
Proof.
  induction pdfFiles as [|pdfFile rest IH]; intros i p0 e0 log.
  - exists p0, e0, log. split; [reflexivity|]. cbn. lia.
  - cbn [Retry.process_files List.length rounds_made].
    destruct (getRemainingUsage pf i <? 200)%Z.
    + exists p0, e0, log. split; [reflexivity|]. lia.
    + unfold bind at 1. unfold try_catch, bind.
      match goal with |- context [Retry.processPDFFile pf stringify pdfFile config apiKey ?a ?b ?c log] =>
        destruct (processPDFFile_returns pdfFile config apiKey a b c log) as [r [log1 Hr]];
        rewrite Hr end.
      destruct r as [j m d|err]; unfold ret; cbn [fst snd].
      * destruct (IH (S i) (S p0) e0 log1) as [p [e [log' [H1 H2]]]].
        exists p, e, log'. split; [exact H1|lia].
      * destruct (IH (S i) p0 (S e0) log1) as [p [e [log' [H1 H2]]]].
        exists p, e, log'. split; [exact H1|lia].
Qed.

Lemma rounds_made_le (usage : nat -> Z) (n : nat) : forall i, rounds_made usage i n <= n.
Proof.
  induction n as [|n IH]; intros i; [reflexivity|].
  cbn [rounds_made]. destruct (usage i <? 200)%Z; [lia|]. specialize (IH (S i)). lia.
Qed.

(** X20.  [execute] never throws.  When it gets to the loop, it takes the files
    in order and stops at the first round that finds less than 200 units
    of usage left; every file of a round it made is counted exactly once,
    as processed or as an error, whatever happened to it.  When it returns
    before the loop (no key, no configuration, a folder missing, no file,
    or an exception), it has asked nothing of the oracle and touched no
    file. *)
Theorem execute_counts_every_file (log : list suite_event) :
  exists s log',
    Retry.execute pf stringify log = (Ok s, log') /\
    match s with
    | Retry.Complete totalFiles processed errors =>
        0 < totalFiles /\
        processed + errors = rounds_made pf.(getRemainingUsage) 0 totalFiles /\
        processed + errors <= totalFiles
    | _ => log' = log
    end.
Proof.
  unfold Retry.execute, try_catch, bind, lift, ret.
  destruct (getApiKey pf) as [apiKey|e1];
    [|eexists; eexists; split; reflexivity].
  destruct (truthy apiKey); cbn [negb];
    [|eexists; eexists; split; reflexivity].
  match goal with |- context [Retry.loadVendorConfig pf ?c] =>
    destruct (Retry.loadVendorConfig pf c) as [config|] end;
    [|eexists; eexists; split; reflexivity].
  destruct (negb (truthy (Retry.retryFolderId config)) || negb (truthy (Retry.jsonFolderId config))
            || negb (truthy (Retry.pdfFolderId config)));
    [eexists; eexists; split; reflexivity|].
  match goal with |- context [Retry.findPDFsInRetryFolder pf ?a ?b] =>
    destruct (Retry.findPDFsInRetryFolder pf a b) as [[|f files]|e2] end;
    [eexists; eexists; split; reflexivity| |eexists; eexists; split; reflexivity].
  destruct (process_files_counts config apiKey (f :: files) 0 0 0 log)
    as [p [e [log' [H1 H2]]]].
  rewrite H1. cbn [fst snd]. eexists. eexists. split; [reflexivity|].
  pose proof (rounds_made_le pf.(getRemainingUsage) (List.length (f :: files)) 0).
  cbn [List.length] in *. repeat split; lia.
Qed.

End RetryLoop.

(** ** The RESTlet *)

Section RestletFacts.

Variable pf : platform.
Variable stringify : value -> jsstring.

Local Abbreviation post := (Restlet.post pf stringify).

(** The ways [post] can end. *)
Lemma restlet_post_cases (requestBody : value) (now : jsstring)
    (log : list suite_event) :
  let pdfFolderId := either (field requestBody (js "pdfFolderId"))
                            (pf.(getParameter) (js "custscript_marcone_pdf_folder")) in
  let jsonFolderId := either (field requestBody (js "jsonFolderId"))
                             (pf.(getParameter) (js "custscript_marcone_json_folder")) in
  let pdfBase64 := field requestBody (js "pdfBase64") in
  let extractedData := field requestBody (js "extractedData") in
  exists r evs,
    post requestBody now log = (Ok r, log ++ evs) /\
    match r with
    | Restlet.Stored pdfFileId jsonFileId pdfFilename =>
        exists f,
          field requestBody (js "pdfFilename") = VStr f /\
          let stem := dashed now ++ js "_" ++ strip_pdf f in
          pdfFilename = stem ++ js ".pdf" /\
          truthy pdfFolderId = true /\ truthy jsonFolderId = true /\
          truthy pdfBase64 = true /\
          pf.(save_file) pdfFilename PDF pdfBase64 pdfFolderId = Ok pdfFileId /\
          if truthy extractedData then
            pf.(save_file) (stem ++ js ".json") JSON (VStr (stringify extractedData))
              jsonFolderId = Ok jsonFileId /\
            evs = [SaveFile pdfFilename PDF pdfBase64 pdfFolderId;
                   SaveFile (stem ++ js ".json") JSON (VStr (stringify extractedData))
                     jsonFolderId]
          else
            jsonFileId = VNull /\ evs = [SaveFile pdfFilename PDF pdfBase64 pdfFolderId]
    | Restlet.Refused error =>
        evs = [] \/
        (exists name, evs = [SaveFile name PDF pdfBase64 pdfFolderId]) \/
        (exists name name' contents,
           evs = [SaveFile name PDF pdfBase64 pdfFolderId;
                  SaveFile name' JSON contents jsonFolderId])
    end.
Proof.
  cbv zeta. unfold Restlet.post, Restlet.post_body, try_catch, bind, lift, ret, record_event,
    field.
  destruct (get requestBody (js "pdfFolderId")) as [rp|e1].
  2:{ eexists. exists []. rewrite app_nil_r. split; [reflexivity|]. left. reflexivity. }
  destruct (get requestBody (js "jsonFolderId")) as [rj|e2].
  2:{ eexists. exists []. rewrite app_nil_r. split; [reflexivity|]. left. reflexivity. }
  destruct (truthy (either rp (getParameter pf (js "custscript_marcone_pdf_folder")))) eqn:Tp;
    cbn [negb orb].
  2:{ eexists. exists []. rewrite app_nil_r. split; [reflexivity|]. left. reflexivity. }
  destruct (truthy (either rj (getParameter pf (js "custscript_marcone_json_folder")))) eqn:Tj;
    cbn [negb orb].
  2:{ eexists. exists []. rewrite app_nil_r. split; [reflexivity|]. left. reflexivity. }
  destruct (get requestBody (js "pdfBase64")) as [b64|e3].
  2:{ eexists. exists []. rewrite app_nil_r. split; [reflexivity|]. left. reflexivity. }
  destruct (get requestBody (js "pdfFilename")) as [fname|e4].
  2:{ eexists. exists []. rewrite app_nil_r. split; [reflexivity|]. left. reflexivity. }
  destruct (negb (truthy requestBody)); cbn [orb].
  { eexists. exists []. rewrite app_nil_r. split; [reflexivity|]. left. reflexivity. }
  destruct (truthy b64) eqn:Tb; cbn [negb orb].
  2:{ eexists. exists []. rewrite app_nil_r. split; [reflexivity|]. left. reflexivity. }
  destruct (truthy fname) eqn:Tf; cbn [negb].
  2:{ eexists. exists []. rewrite app_nil_r. split; [reflexivity|]. left. reflexivity. }
  destruct fname as [| | | |f| |];
    try (eexists; exists []; rewrite app_nil_r; split; [reflexivity|]; left; reflexivity).
  cbn [baseName_of].
  match goal with |- context [save_file pf ?n PDF b64 ?fo] =>
    set (pdfName := n); destruct (save_file pf pdfName PDF b64 fo) as [pid|e5] eqn:Hs1 end.
  2:{ eexists. eexists. split; [reflexivity|]. right. left. eauto. }
  destruct (get requestBody (js "extractedData")) as [data|e6].
  2:{ eexists. eexists. split; [reflexivity|]. right. left. eauto. }
  destruct (truthy data) eqn:Td.
  - match goal with |- context [save_file pf ?n JSON ?c ?fo] =>
      destruct (save_file pf n JSON c fo) as [jid|e7] eqn:Hs2 end.
    + eexists. eexists. split; [rewrite <- app_assoc; reflexivity|].
      exists f. split; [reflexivity|]. cbv zeta. unfold pdfName in *. rewrite <- !app_assoc. repeat split; auto.
    + eexists. eexists. split; [rewrite <- app_assoc; reflexivity|]. right. right.
      eexists. eexists. eexists. reflexivity.
  - eexists. eexists. split; [reflexivity|].
    exists f. split; [reflexivity|]. cbv zeta. unfold pdfName in *. rewrite <- !app_assoc.
    repeat split; auto.
Qed.

(** X21.  [post] never throws.  When it answers with success, the request named
    its PDF by a string and gave its content, both folders were known
    (those of the request, or else the script parameters), the PDF has been
    saved under the time of the call and the name without its [.pdf], and
    the extraction, if there was one, under the same stem with [.json].
    When it refuses, it has saved nothing, or the PDF alone (saving the
    PDF or the JSON threw). *)
Theorem restlet_stores_under_one_stem (requestBody : value) (now : jsstring)
    (log : list suite_event) :
  let pdfFolderId := either (field requestBody (js "pdfFolderId"))
                            (pf.(getParameter) (js "custscript_marcone_pdf_folder")) in
  let jsonFolderId := either (field requestBody (js "jsonFolderId"))
                             (pf.(getParameter) (js "custscript_marcone_json_folder")) in
  let pdfBase64 := field requestBody (js "pdfBase64") in
  let extractedData := field requestBody (js "extractedData") in
  exists r evs,
    post requestBody now log = (Ok r, log ++ evs) /\
    match r with
    | Restlet.Stored pdfFileId jsonFileId pdfFilename =>
        exists f,
          field requestBody (js "pdfFilename") = VStr f /\
          let stem := dashed now ++ js "_" ++ strip_pdf f in
          pdfFilename = stem ++ js ".pdf" /\
          truthy pdfFolderId = true /\ truthy jsonFolderId = true /\
          truthy pdfBase64 = true /\
          pf.(save_file) pdfFilename PDF pdfBase64 pdfFolderId = Ok pdfFileId /\
          if truthy extractedData then
            pf.(save_file) (stem ++ js ".json") JSON (VStr (stringify extractedData))
              jsonFolderId = Ok jsonFileId /\
            evs = [SaveFile pdfFilename PDF pdfBase64 pdfFolderId;
                   SaveFile (stem ++ js ".json") JSON (VStr (stringify extractedData))
                     jsonFolderId]
          else
            jsonFileId = VNull /\ evs = [SaveFile pdfFilename PDF pdfBase64 pdfFolderId]
    | Restlet.Refused error =>
        evs = [] \/
        (exists name, evs = [SaveFile name PDF pdfBase64 pdfFolderId]) \/
        (exists name name' contents,
           evs = [SaveFile name PDF pdfBase64 pdfFolderId;
                  SaveFile name' JSON contents jsonFolderId])
    end.
Proof. exact (restlet_post_cases requestBody now log). Qed.


End RestletFacts.

Lemma jseqb_eq (a b : jsstring) : jseqb a b = true -> a = b.
Proof.
  revert b. induction a as [|x a IH]; intros [|y b]; try discriminate; [reflexivity|].
  cbn [jseqb]. intros H. apply andb_prop in H. destruct H as [H1 H2].
  apply N.eqb_eq in H1. subst y. f_equal. exact (IH _ H2).
Qed.

Lemma wire_primitive (v : value) : primitive v = true -> wire v = v.
Proof. destruct v; try discriminate; reflexivity. Qed.

Lemma truthy_wire (v : value) : truthy (wire v) = truthy v.
Proof. destruct v; reflexivity. Qed.

(** The members of an object that cross the wire. *)
Local Abbreviation members :=
  (fix members (fs : list (jsstring * value)) : list (jsstring * value) :=
     match fs with
     | [] => []
     | (k, x) :: rest =>
         match x with
         | VUndefined => members rest
         | _ => (k, wire x) :: members rest
         end
     end).

Lemma wire_object (fields : list (jsstring * value)) :
  wire (VObj fields) = VObj (members fields).
Proof. reflexivity. Qed.

Lemma lookup_members_none (k : jsstring) (fields : list (jsstring * value)) :
  lookup k fields = None -> lookup k (members fields) = None.
Proof.
  induction fields as [|[k' x] rest IH]; [reflexivity|].
  cbn [lookup]. destruct (jseqb k k') eqn:E; [discriminate|]. intros H.
  destruct x; try exact (IH H); cbn [lookup]; rewrite E; exact (IH H).
Qed.

(** Reading a property after the wire gives what crossing the wire makes
    of the property. *)
Lemma get_wire (fields : list (jsstring * value)) (k : jsstring) :
  distinct_keys fields = true ->
  get (wire (VObj fields)) k = Ok (wire (field (VObj fields) k)).
Proof.
  rewrite wire_object. unfold field. cbn [get]. intros Hd. f_equal.
  induction fields as [|[k' x] rest IH]; [reflexivity|].
  cbn [distinct_keys] in Hd. apply andb_prop in Hd. destruct Hd as [Hk Hr].
  apply negb_true_iff in Hk. unfold has_key in Hk.
  destruct (lookup k' rest) eqn:Hl; [discriminate|]. clear Hk.
  cbn [lookup]. destruct (jseqb k k') eqn:E.
  - apply jseqb_eq in E. subst k'.
    destruct x; cbn [lookup]; rewrite ?jseqb_same; try reflexivity.
    rewrite (lookup_members_none _ _ Hl). reflexivity.
  - destruct x; cbn [lookup]; rewrite ?E; exact (IH Hr).
Qed.

Lemma body_keys (p : Upload.payload) :
  forall k, get (body_of p) k =
            Ok (wire (field (VObj [(js "pdfBase64", VStr p.(Upload.pdfBase64));
                                   (js "pdfFilename", VStr p.(Upload.pdfFilename));
                                   (js "emailSubject", VStr p.(Upload.emailSubject));
                                   (js "extractedData", p.(Upload.extractedData));
                                   (js "processedDate", VStr p.(Upload.processedDate));
                                   (js "pdfFolderId", p.(Upload.pdfFolderId));
                                   (js "jsonFolderId", p.(Upload.jsonFolderId))]) k)).
Proof. intros k. unfold body_of. apply get_wire. reflexivity. Qed.

Section EndToEnd.

Variable pf : platform.
Variable stringify : value -> jsstring.
Variable base64 : list N -> jsstring.

Local Abbreviation upload header later :=
  (Upload.uploadToNetSuite base64 (Ok header) (restlet_reply pf stringify later)).

Lemma restlet_post_returns (requestBody : value) (now : jsstring) (log : list suite_event) :
  exists r log', Restlet.post pf stringify requestBody now log = (Ok r, log').
Proof.
  unfold Restlet.post, try_catch.
  destruct (Restlet.post_body pf stringify requestBody now log) as [[r|e] log'];
    eexists; eexists; reflexivity.
Qed.


End EndToEnd.

(** ** The poller, the RESTlet and the retry script together *)

Lemma body_fields (p : Upload.payload) :
  field (body_of p) (js "pdfBase64") = VStr p.(Upload.pdfBase64) /\
  field (body_of p) (js "pdfFilename") = VStr p.(Upload.pdfFilename) /\
  field (body_of p) (js "extractedData") = wire p.(Upload.extractedData) /\
  field (body_of p) (js "pdfFolderId") = wire p.(Upload.pdfFolderId) /\
  field (body_of p) (js "jsonFolderId") = wire p.(Upload.jsonFolderId).
Proof. repeat split; unfold field at 1; rewrite body_keys; reflexivity. Qed.

Section Stored.

Variable pf : platform.
Variable stringify : value -> jsstring.
Variable base64 : list N -> jsstring.

Local Abbreviation upload header later :=
  (Upload.uploadToNetSuite base64 (Ok header) (restlet_reply pf stringify later)).

Lemma uploaded_response (c : config) (header now later : jsstring)
    (pdfBuffer : list N) (filename : jsstring) (data : value) (subject : jsstring)
    (folderIds : option (value * value)) (sent : list Upload.payload)
    (pdfFileId jsonFileId response : value) :
  let request :=
    {| Upload.pdfBase64 := base64 pdfBuffer;
       Upload.pdfFilename := filename;
       Upload.emailSubject := subject;
       Upload.extractedData := data;
       Upload.processedDate := now;
       Upload.pdfFolderId :=
         either (match folderIds with Some ids => fst ids | None => VUndefined end)
                c.(netsuite_defaultPdfFolderId);
       Upload.jsonFolderId :=
         either (match folderIds with Some ids => snd ids | None => VUndefined end)
                c.(netsuite_defaultJsonFolderId) |} in
  fst (upload header later c now pdfBuffer filename data subject folderIds sent)
  = Ok (Upload.Uploaded pdfFileId jsonFileId response) ->
  exists r, fst (Restlet.post pf stringify (body_of request) later []) = Ok r /\
            response = wire (Restlet.response_of r).
Proof.
  cbv zeta. unfold Upload.uploadToNetSuite.
  destruct (netsuite_enabled (netsuite c)); cbn [negb]; [|discriminate].
  unfold try_catch, bind, lift, ret, Upload.send, restlet_reply.
  repeat match goal with |- context [if truthy ?v then ToString ?v else Ok []] =>
    destruct (if truthy v then ToString v else Ok []); [|discriminate] end.
  match goal with |- context [Restlet.post pf stringify ?b later []] =>
    destruct (fst (Restlet.post pf stringify b later [])) as [r|e] end; [|discriminate].
  destruct (get (wire (Restlet.response_of r)) (js "pdfFileId")); [|discriminate].
  match goal with |- context [ToString ?v] => destruct (ToString v); [|discriminate] end.
  destruct (get (wire (Restlet.response_of r)) (js "jsonFileId")); [|discriminate].
  match goal with |- context [ToString ?v] => destruct (ToString v); [|discriminate] end.
  cbn [fst]. intros H. inversion H. subst. exists r. split; reflexivity.
Qed.

(** X23.  An upload that the RESTlet answers with success has stored the PDF,
    and the extraction when there is one, under the time of the RESTlet's
    clock and the name of the attachment, each in the first folder that is
    configured: the rule's, else the poller's default, else the script
    parameter of the RESTlet. *)
Theorem accepted_upload_is_stored (c : config) (header now later : jsstring)
    (pdfBuffer : list N) (filename : jsstring) (data : value) (subject : jsstring)
    (folderIds : option (value * value)) (sent : list Upload.payload)
    (pdfFileId jsonFileId response : value) :
  let request :=
    {| Upload.pdfBase64 := base64 pdfBuffer;
       Upload.pdfFilename := filename;
       Upload.emailSubject := subject;
       Upload.extractedData := data;
       Upload.processedDate := now;
       Upload.pdfFolderId :=
         either (match folderIds with Some ids => fst ids | None => VUndefined end)
                c.(netsuite_defaultPdfFolderId);
       Upload.jsonFolderId :=
         either (match folderIds with Some ids => snd ids | None => VUndefined end)
                c.(netsuite_defaultJsonFolderId) |} in
  primitive request.(Upload.pdfFolderId) = true ->
  primitive request.(Upload.jsonFolderId) = true ->
  fst (upload header later c now pdfBuffer filename data subject folderIds sent)
  = Ok (Upload.Uploaded pdfFileId jsonFileId response) ->
  get response (js "success") = Ok (VBool true) ->
  let pdfFolder := either request.(Upload.pdfFolderId)
                          (pf.(getParameter) (js "custscript_marcone_pdf_folder")) in
  let jsonFolder := either request.(Upload.jsonFolderId)
                           (pf.(getParameter) (js "custscript_marcone_json_folder")) in
  let stem := dashed later ++ js "_" ++ strip_pdf filename in
  snd (Restlet.post pf stringify (body_of request) later []) =
  SaveFile (stem ++ js ".pdf") PDF (VStr (base64 pdfBuffer)) pdfFolder
  :: (if truthy data
      then [SaveFile (stem ++ js ".json") JSON (VStr (stringify (wire data))) jsonFolder]
      else []).
Proof.
  cbv zeta. cbn [Upload.pdfFolderId Upload.jsonFolderId].
  match goal with |- _ -> _ -> _ -> _ -> snd (Restlet.post _ _ (body_of ?r) _ _) = _ =>
    set (request := r) end.
  intros Pp Pj Hu Hs.
  destruct (@restlet_post_cases pf stringify (body_of request) later [])
    as [r [evs [Hpost Hcases]]].
  cbv zeta in Hcases. cbn [app] in Hpost. rewrite Hpost. cbn [snd].
  assert (Hr : exists p j n, r = Restlet.Stored p j n).
  { destruct r as [p j n|error]; [eauto|]. exfalso.
    destruct (@uploaded_response c header now later pdfBuffer filename data subject
                folderIds sent pdfFileId jsonFileId response Hu) as [r' [H1 H2]].
    cbv zeta in H1. fold request in H1. rewrite Hpost in H1. cbn [fst] in H1.
    inversion H1. subst r' response. cbn [Restlet.response_of] in Hs.
    rewrite (@get_wire _ (js "success")) in Hs by reflexivity. discriminate Hs. }
  destruct Hr as [p [j [n ->]]].
  destruct Hcases as [f [Hf Hrest]]. cbv zeta in Hrest.
  destruct (body_fields request) as [B1 [B2 [B3 [B4 B5]]]].
  rewrite B1, B2, B3, B4, B5 in *. cbn [request Upload.pdfBase64 Upload.pdfFilename
    Upload.extractedData Upload.pdfFolderId Upload.jsonFolderId] in *.
  rewrite !wire_primitive in * by assumption. rewrite truthy_wire in *.
  inversion Hf. subst f.
  destruct Hrest as [Hn [_ [_ [_ [_ Hd]]]]].
  destruct (truthy data).
  - destruct Hd as [_ ->]. subst n. reflexivity.
  - destruct Hd as [_ ->]. subst n. reflexivity.
Qed.

End Stored.
(** Taking [.pdf] off a name that was made by adding it gives the name
    back. *)
Lemma strip_pdf_added (s : jsstring) : strip_pdf (s ++ js ".pdf") = s.
Proof.
  unfold strip_pdf, ends_in_pdf.
  replace (List.length (s ++ js ".pdf") - 4) with (List.length s + 0)
    by (rewrite length_app; cbn; lia).
  rewrite skipn_app, firstn_app_2. rewrite Nat.add_0_r, skipn_all.
  replace (List.length s - List.length s) with 0 by lia.
  cbn [skipn app firstn]. rewrite app_nil_r. reflexivity.
Qed.

Section Replaced.

Variable pf : platform.
Variable stringify : value -> jsstring.

(** X24.  The retry script names its JSON file as the RESTlet does.  When a PDF
    that the RESTlet stored with an extraction is later put through the
    retry script with success, the script saves its extraction under the
    very name of the JSON file the RESTlet saved. *)
Theorem retry_replaces_the_first_json (requestBody : value) (received : jsstring)
    (pdfFileId jsonFileId : value) (pdfFilename : jsstring)
    (pdfFile : Retry.pdf_file) (config : Retry.vendor_config) (apiKey : value)
    (startTime endTime : Z) (now : jsstring) (log : list suite_event)
    (jsonFileId' movedPdfId extractedData : value) :
  let stored := Restlet.post pf stringify requestBody received [] in
  let retried := Retry.processPDFFile pf stringify pdfFile config apiKey startTime endTime
                   now log in
  fst stored = Ok (Restlet.Stored pdfFileId jsonFileId pdfFilename) ->
  truthy (field requestBody (js "extractedData")) = true ->
  pdfFile.(Retry.name) = VStr pdfFilename ->
  fst retried = Ok (Retry.Done jsonFileId' movedPdfId extractedData) ->
  exists jsonName first folder,
    In (SaveFile jsonName JSON first folder) (snd stored) /\
    In (SaveFile jsonName JSON (VStr (stringify extractedData)) config.(Retry.jsonFolderId))
       (snd retried).
Proof.
  cbv zeta. intros Hs Hd Hn Hr.
  destruct (@restlet_post_cases pf stringify requestBody received [])
    as [r [evs [Hpost Hcases]]].
  destruct (@retry_file_cases pf stringify pdfFile config apiKey startTime endTime now log)
    as [r' [evs' [Hretry Hcases']]].
  cbv zeta in Hcases, Hcases', Hretry.
  rewrite Hpost in Hs |- *. rewrite Hretry in Hr |- *. cbn [fst snd app] in *.
  inversion Hs. subst r. inversion Hr. subst r'. clear Hs Hr.
  destruct Hcases as [f [Hf [Hname [_ [_ [_ [_ Hjson]]]]]]].
  rewrite Hd in Hjson. destruct Hjson as [_ ->].
  destruct Hcases' as [userPrompt [pdfBase64 [baseName [Hbase [_ [_ Hmove]]]]]].
  rewrite Hn, Hname in Hbase. cbn [baseName_of] in Hbase.
  rewrite strip_pdf_added in Hbase. inversion Hbase. subst baseName.
  eexists. eexists. eexists. split.
  - right. left. reflexivity.
  - apply in_or_app. right.
    destruct Hmove as [[_ ->]|[_ [_ ->]]]; right; left; reflexivity.
Qed.

End Replaced.
Lemma map_result_all {A B : Type} (f : A -> result B) (R : A -> B -> Prop) (l : list A) :
  Forall (fun x => exists y, f x = Ok y /\ R x y) l ->
  exists ys, map_result f l = Ok ys /\ Forall2 R l ys.
Proof.
  induction 1 as [|x l [y [Hy Hr]] _ [ys [Hys Hall]]].
  - exists []. split; [reflexivity|constructor].
  - exists (y :: ys). cbn [map_result]. rewrite Hy, Hys. split; [reflexivity|].
    constructor; assumption.
Qed.

Lemma Forall2_map_right {A B C : Type} (R : A -> C -> Prop) (g : B -> C) (l : list A)
    (l' : list B) :
  Forall2 (fun x y => R x (g y)) l l' -> Forall2 R l (map g l').
Proof. induction 1; constructor; assumption. Qed.

Lemma Forall2_chain {A B C : Type} (R : A -> B -> Prop) (f : B -> result C)
    (Q : A -> C -> Prop) (l : list A) (l' : list B) :
  Forall2 R l l' ->
  (forall x y, R x y -> exists z, f y = Ok z /\ Q x z) ->
  exists zs, map_result f l' = Ok zs /\ Forall2 Q l zs.
Proof.
  intros H Hstep. induction H as [|x y l l' Hxy _ [zs [Hzs Hall]]].
  - exists []. split; [reflexivity|constructor].
  - destruct (Hstep x y Hxy) as [z [Hz Hq]].
    exists (z :: zs). cbn [map_result]. rewrite Hz, Hzs. split; [reflexivity|].
    constructor; assumption.
Qed.

Section Listed.

Variable pf : platform.
Variable describe : error -> jsstring.
Variable toLowerCase : jsstring -> jsstring.

(** What the poller makes of the row of a configuration. *)
Local Abbreviation rule_of_row r p :=
  (p.(enabled) = true /\
   (exists vendor type,
      r.(getText) (js "custrecord_ap_assist_vendor") = VStr vendor /\
      r.(getText) (js "custrecord_ap_assist_transaction_type") = VStr type /\
      p.(name) = replace_runs false (toLowerCase (vendor ++ js " - " ++ type))) /\
   p.(criteria_from) = wire (r.(getValue) (js "custrecord_ap_assist_email_address")) /\
   p.(criteria_subjectContains)
   = wire (r.(getValue) (js "custrecord_ap_assist_email_subject")) /\
   p.(pdfFolderId) = wire (r.(getValue) (js "custrecord_ap_asssist_pdf_folder_id")) /\
   p.(jsonFolderId) = wire (r.(getValue) (js "custrecord_ap_assist_json_folder_id")) /\
   p.(claudePrompt)
   = let aiPrompt := r.(getValue) (js "custrecord_ap_assist_ai_prompt") in
     if truthy aiPrompt then wire aiPrompt else VStr (js "marcone")).

Lemma listed_row_becomes_rule (r : row) (vendor type : jsstring) :
  r.(getText) (js "custrecord_ap_assist_vendor") = VStr vendor ->
  r.(getText) (js "custrecord_ap_assist_transaction_type") = VStr type ->
  exists c, Restlet.config_of r = Ok c /\
            exists p, to_processor toLowerCase
                        (match c with VUndefined => VNull | _ => wire c end) = Ok p /\
                      rule_of_row r p.
Proof.
  intros Hv Ht. unfold Restlet.config_of, string_plus. rewrite Hv, Ht.
  cbn [ToString rbind]. eexists. split; [reflexivity|].
  unfold to_processor.
  rewrite !get_wire by reflexivity.
  change (field _ (js "displayName")) with (VStr ((vendor ++ js " - ") ++ type)).
  cbn [wire rbind].
  eexists. split; [reflexivity|].
  cbn [enabled name criteria_from criteria_subjectContains pdfFolderId jsonFolderId
       claudePrompt].
  split; [reflexivity|]. split.
  { exists vendor, type. rewrite <- app_assoc. repeat split; assumption. }
  repeat split.
  change (field _ (js "claudePrompt"))
    with (either (getValue r (js "custrecord_ap_assist_ai_prompt")) VNull).
  unfold either. rewrite truthy_wire.
  destruct (truthy (getValue r (js "custrecord_ap_assist_ai_prompt"))) eqn:T;
    rewrite ?T; reflexivity.
Qed.

(** X25.  The configurations the RESTlet lists are the rules the poller routes
    by after its next refresh: one rule for each row the search found, in
    the order of the search, enabled, named after the vendor and the
    transaction type, with the sender, the subject and the folders of the
    row as JSON carries them, and with the row's prompt or else
    [marcone]. *)
Theorem listed_configurations_become_rules (cfg : netsuite_config)
    (requestParams : value) (now : jsstring) (rows : list row) (st : app_state) :
  cfg.(netsuite_enabled) = true ->
  truthy cfg.(restletUrl) = true ->
  get requestParams (js "action") = Ok (VStr (js "configs")) ->
  pf.(find_configs) = Ok rows ->
  rows <> [] ->
  Forall (fun r => exists vendor type,
            r.(getText) (js "custrecord_ap_assist_vendor") = VStr vendor /\
            r.(getText) (js "custrecord_ap_assist_transaction_type") = VStr type) rows ->
  exists answer,
    Restlet.get_ pf describe requestParams now = Ok answer /\
    let st' := snd (fetchNetSuiteConfigs toLowerCase cfg (Responds (wire answer)) st) in
    st'.(CONFIG_processors) = st'.(EMAIL_PROCESSORS) /\
    Forall2 (fun r p => rule_of_row r p) rows st'.(EMAIL_PROCESSORS).
Proof.
  intros He Hu Ha Hf Hne Hrows.
  assert (Hall : Forall (fun r => exists c, Restlet.config_of r = Ok c /\
                   exists p, to_processor toLowerCase
                               (match c with VUndefined => VNull | _ => wire c end) = Ok p /\
                             rule_of_row r p) rows).
  { revert Hrows. apply Forall_impl. intros r [vendor [type [Hv Ht]]].
    exact (@listed_row_becomes_rule r vendor type Hv Ht). }
  destruct (@map_result_all _ _ Restlet.config_of _ rows Hall) as [configs [Hc Hcs]].
  unfold Restlet.get_. rewrite Ha. cbn [rbind].
  change (is_string (either (VStr (js "configs")) (VStr (js "health"))) (js "health"))
    with false.
  change (is_string (either (VStr (js "configs")) (VStr (js "health"))) (js "configs"))
    with true.
  cbv iota. rewrite Hf. cbn [rbind]. rewrite Hc.
  eexists. split; [reflexivity|]. cbv zeta.
  unfold fetchNetSuiteConfigs. rewrite He, Hu. cbn [negb orb].
  unfold try_catch, fetch_body, bind, lift, ret.
  rewrite !get_wire by reflexivity.
  change (field _ (js "success")) with (VBool true).
  change (field (VObj ?l) (js "configs")) with (VArr configs).
  cbn [wire truthy negb].
  pose proof (@Forall2_map_right _ _ _
                (fun r c' => exists p, to_processor toLowerCase c' = Ok p /\ rule_of_row r p)
                (fun x => match x with VUndefined => VNull | _ => wire x end)
                rows configs Hcs) as Hcs'.
  destruct (@Forall2_chain _ _ _ _ (to_processor toLowerCase)
              (fun r p => rule_of_row r p) rows _ Hcs') as [ps [Hps Hrules]].
  { intros r c H. exact H. }
  destruct rows as [|r0 rest]; [contradiction Hne; reflexivity|].
  destruct configs as [|c0 crest]; [inversion Hcs|].
  cbn [map] in Hps |- *.
  match type of Hps with map_result _ ?l = _ =>
    match goal with |- context [map_result (to_processor toLowerCase) ?l'] =>
      change l' with l end end.
  rewrite Hps. unfold replace_processors.
  destruct (map_result log_processor ps); cbn [snd EMAIL_PROCESSORS CONFIG_processors];
    split; [reflexivity|exact Hrules|reflexivity|exact Hrules].
Qed.

End Listed.
(** ** The theorems on the NetSuite scripts at concrete inputs *)

Lemma falsy_extraction_is_a_parse_failure_witness :
  Retry.processPDFFile (sample_platform [] apology) invoice_of
    (retry_file 7 (js "credit.pdf")) marcone_config (VStr (js "sk-ant-test")) 1000 4250
    sample_instant [] =
  (Ok (Retry.NotDone (VStr (js "Failed to parse JSON from Claude response"))),
   [AskClaude (VStr (js "Extract all relevant data from this PDF and return as structured JSON."))
              (VStr (js "JVBERi0xLjQK"))]).
Proof.
  apply (@falsy_extraction_is_a_parse_failure (sample_platform [] apology) invoice_of
           (retry_file 7 (js "credit.pdf")) marcone_config (VStr (js "sk-ant-test"))
           1000%Z 4250%Z sample_instant [] (VStr (js "JVBERi0xLjQK"))
           (claude_answer apology) (VBool true) apology);
    vm_compute; reflexivity.
Defined.


Lemma accepted_upload_is_stored_witness :
  snd (Restlet.post (sample_platform [] json_text) invoice_of
         (body_of (credit_request (VStr (js "303"), VStr (js "302")))) later_instant []) =
  [SaveFile (js "2026-01-05T10-15-31-004Z_credit.pdf") PDF (VStr (sample_base64 pdf_bytes))
     (VStr (js "303"));
   SaveFile (js "2026-01-05T10-15-31-004Z_credit.json") JSON (VStr (invoice_of json_object))
     (VStr (js "302"))].
Proof.
  refine (@accepted_upload_is_stored (sample_platform [] json_text) invoice_of
            sample_base64 (CONFIG uploading) (js "OAuth") sample_instant later_instant
            pdf_bytes (js "credit.pdf") json_object (js "Credit memo") None []
            (VNum 9001 0) (VNum 9001 0)
            (wire (Restlet.response_of
                     (Restlet.Stored (VNum 9001 0) (VNum 9001 0)
                        (js "2026-01-05T10-15-31-004Z_credit.pdf")))) _ _ _ _);
    vm_compute; reflexivity.
Defined.

Lemma retry_replaces_the_first_json_witness :
  let pf := sample_platform [] json_text in
  let stored := Restlet.post pf invoice_of
                  (body_of (credit_request (VStr (js "303"), VStr (js "302"))))
                  later_instant [] in
  let retried := Retry.processPDFFile pf invoice_of
                   (retry_file 9001 (js "2026-01-05T10-15-31-004Z_credit.pdf"))
                   marcone_config (VStr (js "sk-ant-test")) 1000 4250 sample_instant [] in
  exists jsonName first second folder,
    In (SaveFile jsonName JSON first folder) (snd stored) /\
    In (SaveFile jsonName JSON second (VNum 302 0)) (snd retried).
Proof.
  cbv zeta.
  destruct (@retry_replaces_the_first_json (sample_platform [] json_text) invoice_of
              (body_of (credit_request (VStr (js "303"), VStr (js "302")))) later_instant
              (VNum 9001 0) (VNum 9001 0) (js "2026-01-05T10-15-31-004Z_credit.pdf")
              (retry_file 9001 (js "2026-01-05T10-15-31-004Z_credit.pdf"))
              marcone_config (VStr (js "sk-ant-test")) 1000%Z 4250%Z sample_instant []
              (VNum 9001 0) (VNum 9001 0)
              (match fst (Retry.processPDFFile (sample_platform [] json_text) invoice_of
                            (retry_file 9001 (js "2026-01-05T10-15-31-004Z_credit.pdf"))
                            marcone_config (VStr (js "sk-ant-test")) 1000 4250
                            sample_instant []) with
               | Ok (Retry.Done _ _ d) => d
               | _ => VUndefined
               end))
    as [jsonName [first [folder [H1 H2]]]]; try (vm_compute; reflexivity).
  exists jsonName, first. eexists. exists folder. split; [exact H1|exact H2].
Defined.

Lemma listed_configurations_become_rules_witness :
  let pf := with_configs (sample_platform [] json_text)
              [config_row 1 (js "Marcone") (js "Vendor Credit")
                 (js "credits@marcone.example") (js "Credit Memo")] in
  exists answer,
    Restlet.get_ pf (fun _ => js "error") (VObj [(js "action", VStr (js "configs"))])
      sample_instant = Ok answer /\
    exists p,
      EMAIL_PROCESSORS
        (snd (fetchNetSuiteConfigs ascii_lower live (Responds (wire answer)) startup)) = [p] /\
      p.(name) = js "marcone_vendor_credit" /\
      p.(criteria_from) = VStr (js "credits@marcone.example") /\
      p.(claudePrompt) = VStr (js "marcone").
Proof.
  cbv zeta.
  destruct (@listed_configurations_become_rules
              (with_configs (sample_platform [] json_text)
                 [config_row 1 (js "Marcone") (js "Vendor Credit")
                    (js "credits@marcone.example") (js "Credit Memo")])
              (fun _ => js "error") ascii_lower live
              (VObj [(js "action", VStr (js "configs"))]) sample_instant
              [config_row 1 (js "Marcone") (js "Vendor Credit")
                 (js "credits@marcone.example") (js "Credit Memo")]
              startup eq_refl eq_refl eq_refl eq_refl)
    as [answer [Ha [_ Hrules]]].
  - discriminate.
  - constructor; [|constructor]. exists (js "Marcone"), (js "Vendor Credit").
    split; reflexivity.
  - exists answer. split; [exact Ha|]. cbv zeta in Hrules.
    inversion Hrules as [|r p rows ps Hp Hnil E1 E2]. inversion Hnil. subst.
    exists p. split; [reflexivity|].
    destruct Hp as [_ [[vendor [type [Hv [Ht Hn]]]] [Hfrom [_ [_ [_ Hprompt]]]]]].
    vm_compute in Hv, Ht. inversion Hv. inversion Ht. subst vendor type.
    split; [rewrite Hn; vm_compute; reflexivity|].
    split; [rewrite Hfrom; reflexivity|rewrite Hprompt; reflexivity].
Defined.

(** The retry script at work on four files with usage for three rounds:
    three files are processed, the fourth is left for the next run. *)
Example retry_stops_when_usage_runs_low :
  fst (Retry.execute
         (sample_platform [file_row 11 (js "a.pdf"); file_row 12 (js "b.pdf");
                           file_row 13 (js "c.pdf"); file_row 14 (js "d.pdf")] json_text)
         invoice_of []) =
  Ok (Retry.Complete 4 3 0).
Proof. vm_compute. reflexivity. Qed.
